(* ===== verification/_CoqProject ===== *)
-Q . S2P
Prelude.v
AppConfig.v
JsNumber.v
AreaCalculator.v
EventLoop.v
Screen.v
Pulse.v
Session.v
Selection.v
Render.v
Theme.v
Binary64.v
Liveness.v
Prompt.v
Preloader.v
SessionMachine.v
Traces.v
