(* ===== verification/Prelude.v ===== *)
(** * Kisaan-Sahayak: the farm-boundary screen, verified

    The program is the React Native screen
    [src/MyApp/screens/FetchingLocationScreen.jsx].  It has two parts with
    real logic, and this development models both from the source:

    - the area calculator [calculateAreaInAcres] (lines 200-220).  It is a
      pure function.  It runs a shoelace loop over four map points in mixed
      radian longitude/latitude, scales the result by [R * cos(meanLat) * R],
      converts it to acres and rounds it to three decimals with [Math.round];
    - the selection and analysis controller.  This is the component's React
      state ([useState] hooks, lines 117-127) and its handlers.  The
      handlers are [handlePreloaderComplete], [getUserLocation],
      [animateToUserLocation], [startPointSelection], [handleMapPress],
      [createBoundingBox] and [startAnalysis] (lines 193-415), together with
      the [Preloader] word cycle (lines 22-114).  They are chained through
      [setTimeout] and through the completion callbacks of [Animated]
      timings.

    The two parts interact in one place: [createBoundingBox] calls the
    calculator on the four tapped points and stores the result in
    [farmArea].  Beside the screen, [src/MyApp/app.config.js] is the Expo
    build configuration: a function that injects the Google Maps key of
    the environment into the static configuration the native map SDKs
    read.

    ** Files
    - [Prelude] (this file): the development's scope and hint database, the
      reflexive-transitive closure [star] used for reachability, and the
      list lemmas shared by the components.
    - [AppConfig]: [app.config.js] on JSON-like JavaScript values
      ([Value]): objects as association lists in property order, object
      spread ([spread_into]) as a fold of CreateDataProperty ([set_prop]),
      [||], [?.] and truthiness as JavaScript defines them, and the
      [TypeError] of [config.ios] on a [null] or [undefined] config as
      [None].  [app_config] is the exported function, [ios_config] and
      [android_config] its two nested literals.  Property reads ([get])
      give an object's own properties and an array's or a string's
      [length] and indices.  Theorems: the environment's key wins where
      the SDKs read it, and an unset or empty variable keeps the static
      key; every other setting reached through objects is unchanged.
    - [JsNumber]: the interface [JsNumber] of the JavaScript [Number]
      operations the calculator uses (arithmetic, [Math.abs], [Math.cos],
      [Math.round], [Math.PI], decimal literals).  It also gives the exact
      model [QNumber] over the rationals [Q].  In that model, [Math.round]
      is [floor (x + 1/2)] and [Math.PI] is the exact rational value of the
      double nearest to pi.  [Math.cos] stays a parameter, because
      ECMAScript leaves it implementation-approximated.  Setoid rewriting
      over [Qeq] is set up through [Proper] instances.
    - [AreaCalculator]: [calculateAreaInAcres], written once over any
      [JsNumber], together with its theorems in the exact model: the closed
      form of the loop, equivalence with a reference shoelace sum over
      consecutive vertex pairs, invariance under rotation and reversal of
      the points, zero for coincident and collinear points, the input-length
      guard, non-negativity, three-decimal granularity, the rounding error
      bound, and the spec's concrete case.

    - [Binary64]: the instance [B64] of [JsNumber] over IEEE binary64
      primitive floats (correctly rounded operations, nearest-double
      literals, an exact [Math.round], one implementation of
      [Math.cos]).  The spec's square gives 2.889 in binary64 as in the
      exact model, and the 1.1 m square gives exactly 0, so the render's
      crash holds with the device's arithmetic.
    - [EventLoop]: the JavaScript event loop, modelled from the spec
      (section 5) because the runtime is not part of the repository.  The
      interface between the loop and the screen is the class [Component]
      (state, callbacks, events, effects, the handlers and which events the
      render enables).  A [World] holds the clock ([N], milliseconds), the
      timer queue, the component state and the log of external effects.
      Timers fire by due time, ties in insertion order; [clearTimeout]
      does not exist because the code never calls it.  The relation
      [step] (fire, event, wait) comes with the executable [exec1], [run]
      and [drain], proved sound and complete for it.  [earliest], the
      choice of the next timer, is proved to be the head of the queue
      sorted stably by due time ([sort_by_due], a permutation, sorted and
      stable), the order the runtime promises.
    - [Screen]: the component state as the record [Screen] (one field per
      [useState] hook, plus [mounted], the pending location promise and a
      ghost counter of boundaries created), and one function per handler
      and per timer or animation callback, in a small state monad [M]
      whose [setState] is a no-op once unmounted, as in React.
      [setTimeout] and [Animated] completions are returned as
      (delay, callback) pairs.  [eventEnabled] says which handlers the
      render exposes (lines 421-636).  [ScreenComponent] is the
      [Component] instance.
    - [Pulse]: the shared [pointPulseAnims] array (a [useRef([])] that
      is never cleared) and the effect that creates a pulse value and
      starts its [Animated.loop] for each new point (lines 137-160), with
      JavaScript's array assignment.  Over any history of selections the
      array holds one value per index up to the largest selection seen,
      and each value's loop was started exactly once.
    - [Session]: the branches of [handleMapPress], the invariant
      [screen_inv] of the controller preserved by every handler and
      callback, and by rule induction over [step] the properties of every
      reachable world: at most four points with ids [1..n], a boundary is
      the four points in tap order, the analysis step stays inside
      [analysisSteps], and navigations performed plus navigations owed by
      pending timers equal the boundaries created.
    - [Render]: the conditional structure of the JSX (lines 421-700) as
      [render], with JavaScript's [&&] (its first falsy operand is what
      React renders) and React Native's rule that raw text outside
      [<Text>] throws.  In every reachable world the instructions ask
      for 1 to 4 more points (a new invariant: while selecting, fewer
      than four points are held).  An area of [0] renders as a raw
      number, and [Traces] exhibits a 1.1 m plot whose render throws.
    - [Theme]: how the screen reads its theme context ([useTheme], line
      127; the root, lines 418-419; the Preloader's guarded reads, lines
      92-107), with a [TypeError] as [None].  Rendering throws exactly
      when the context, [theme] or [theme.colors] is [null] or
      [undefined], in the Preloader phase too.
    - [Selection]: the tap handler folded over any list of taps after
      "Start Selection" ([press_all]) equals a closed form of the first
      four taps ([selection_ref]): ids 1..4 in tap order, then the
      boundary, the area and selection off.
    - [Liveness]: termination of the timer chains.  [potential] bounds
      the firings a pending callback still causes (the Preloader chain by
      its index, the analysis by its five steps), [timer_load] sums it
      over the queue, and every firing lowers it.  So [drain] with
      [timer_load w] fuel empties the queue of every reachable world, and
      the screen has then navigated once per boundary formed.
    - [Prompt]: the chain that shows the selection prompt (Preloader,
      location, map animation, the timer of line 281) runs once per
      visit, and a running fade has its completion pending; by rule
      induction over [step] and with [Liveness], once "Start Selection"
      was pressed, letting the timers run hides the prompt.
    - [Preloader]: by rule induction over [step], the Preloader's index
      stays below [words.length] (so [words[index]], line 108, is always a
      word), at most one timer of its animation chain is pending, and
      exactly one while it is mounted.
    - [SessionMachine]: the spec's session machine (section 4.2) as the
      relation [sstep] over [SessionState], the abstraction [abstract]
      from worlds of the screen, and a stuttering simulation: for the
      sessions the spec describes ([dstep]: mounted throughout, "Start
      Selection" pressed only from [AwaitingStart]), every run of the
      screen is a run of the machine, and the screen navigates at most
      once.  The invariant behind it counts the pending [StartAnalysis],
      step and navigation timers per status and fixes the step timers'
      due times, so that they fire in index order.
    - [Traces]: the witnesses of the theorems, and concrete runs
      executed in the kernel ([vm_compute]) from [mountScreen] that
      exhibit the findings: a full visit navigating once at 23200 ms, the step
      index sequence 0,0,1,2,3,4, navigation after unmount, two
      navigations after a restarted selection, and the crash of the
      render after tapping a 1.1 m square.  Fuel: [drain n] fires at
      most [n] timers; the runs use 7, 10 and 20, which the theorems show
      empty the queue or reach the claimed state.

    ** What is not modelled
    Rendering (JSX markup, styles, gradients, icons), animation curves and
    spring physics (springs have no completion callbacks in this code), the
    values the pulse loops animate (only which loops are started is
    modelled), the theme provider ([../context/ThemeContext], outside
    the repository: its value is an input, and the colours that only
    style the view are not modelled), React Navigation's stack (only its [replace] call is logged), and the
    operating-system location service (its answer is an input of the
    model).  In [app.config.js], JavaScript's listing of integer-like keys
    before the others is not modelled: the theorems read properties by
    name, never by position. *)

From Stdlib Require Import List Lia Arith.
Import ListNotations.

Declare Scope kisaan_scope.
Delimit Scope kisaan_scope with kisaan.

Create HintDb kisaan discriminated.
Create Rewrite HintDb kisaan.

(** ** Reflexive-transitive closure of a step relation *)

Section Star.
Context {A : Type} (R : A -> A -> Prop).

Inductive star : A -> A -> Prop :=
| star_refl x : star x x
| star_step x y z : R x y -> star y z -> star x z.

Lemma star_one x y : R x y -> star x y.
Proof. intros H. eapply star_step; [exact H | apply star_refl]. Qed.

Lemma star_trans x y z : star x y -> star y z -> star x z.
Proof. induction 1; intros; [assumption | eapply star_step; eauto]. Qed.

Lemma star_snoc x y z : star x y -> R y z -> star x z.
Proof. intros Hxy Hyz. eapply star_trans; [exact Hxy | apply star_one, Hyz]. Qed.

(** Rule induction for a predicate preserved by every step. *)
Lemma star_invariant (P : A -> Prop) :
  (forall x y, R x y -> P x -> P y) -> forall x y, star x y -> P x -> P y.
Proof. intros Hpres x y Hs. induction Hs; eauto. Qed.
End Star.

Notation "R ^*" := (star R) (at level 1, format "R ^*") : kisaan_scope.

#[export] Hint Resolve star_refl star_one star_trans star_snoc : kisaan.

(** ** Lists *)

Ltac inv H := inversion H; subst; clear H.

(** A list of length four is four named elements. *)
Lemma length_4_inv {A : Type} (l : list A) :
  length l = 4 -> exists a b c d, l = [a; b; c; d].
Proof.
  destruct l as [|a [|b [|c [|d [|e l]]]]]; simpl; intros H; try discriminate.
  eauto 6.
Qed.

Ltac destruct_4 l :=
  let H := fresh in
  match goal with
  | Hl : length l = 4 |- _ =>
      pose proof (length_4_inv l Hl) as (?&?&?&?&H); subst l
  end.

Lemma fold_left_ext {A B : Type} (f g : A -> B -> A) (l : list B) (a : A) :
  (forall x y, f x y = g x y) -> fold_left f l a = fold_left g l a.
Proof. intros Hfg. revert a. induction l as [|y l IH]; intros a; simpl; [|rewrite Hfg]; auto. Qed.

Lemma fold_left_map_fuse {A B C : Type} (f : A -> B -> A) (h : C -> B) (l : list C) (a : A) :
  fold_left f (map h l) a = fold_left (fun x y => f x (h y)) l a.
Proof. revert a. induction l as [|y l IH]; intros a; simpl; auto. Qed.

(** Left rotation by one place: the first element goes last. *)
Definition rotate1 {A : Type} (l : list A) : list A :=
  match l with
  | [] => []
  | x :: xs => xs ++ [x]
  end.

Lemma length_rotate1 {A : Type} (l : list A) : length (rotate1 l) = length l.
Proof. destruct l; simpl; [reflexivity | rewrite length_app; simpl; lia]. Qed.

#[export] Hint Rewrite @length_rotate1 @length_rev : kisaan.

(** Index arithmetic of [(i + 1) % n] as the code writes it. *)
Lemma succ_mod_lt (i n : nat) : i < n -> (i + 1) mod n < n.
Proof. intros H. apply Nat.mod_upper_bound. lia. Qed.

Lemma succ_mod_small (i n : nat) : i + 1 < n -> (i + 1) mod n = i + 1.
Proof. intros H. apply Nat.mod_small. exact H. Qed.

Lemma succ_mod_last (n : nat) : 0 < n -> (n - 1 + 1) mod n = 0.
Proof. intros H. replace (n - 1 + 1) with n by lia. apply Nat.Div0.mod_same. Qed.

#[export] Hint Resolve succ_mod_lt : kisaan.
