(* ===== verification/AppConfig.v ===== *)
(** * The Expo configuration [app.config.js]

    [src/MyApp/app.config.js] exports a function that receives the
    resolved static configuration and returns it with the Google Maps API
    key of the environment variable [EXPO_GOOGLE_MAPS_API_KEY] injected
    under [ios.config.googleMapsApiKey] and
    [android.config.googleMaps.apiKey].

    The configuration is JSON-like data, [Value].  Objects are
    association lists in property order; writing a property
    ([set_prop], JavaScript's CreateDataProperty) replaces an existing key
    in place and appends a new one.  Object spread [{...v}] copies the own
    enumerable entries of [v] in order ([own_entries]): the fields of an
    object, the indices of an array or a string, nothing for the other
    values.  [a || b], optional chaining [a?.k] and the conditional on the
    key follow JavaScript's truthiness ([truthy]).  Reading a property of
    [null] or [undefined] throws a [TypeError]; the function reads
    [config.ios] and [config.android] without [?.], so it throws when
    [config] itself is [null] or [undefined] ([app_config] returns
    [None]).

    Reading [v.k] gives the own properties of an object, and the
    [length] and the indices of an array or a string; inherited members
    are functions, which [Value] does not hold.  Numbers are kept as
    integers: the function only tests their truthiness.  Property order
    among integer-like keys, which JavaScript lists first, is not
    modelled: the theorems read properties by name.

    Theorems: the key the environment gives wins at both places the
    native map SDKs read it, and a missing or empty variable keeps the
    key already present in [app.json]; every other setting reached
    through objects of the static configuration is kept.  An array or a
    string where the function spreads is not kept: [{...[1]}] has no
    [length], so the frame asks the path to run through objects. *)

From Stdlib Require Import String Ascii List Bool ZArith Arith Lia Setoid.
From S2P Require Import Prelude.
Import ListNotations.
Local Open Scope string_scope.
#[local] Set Warnings "-register-all".

(** JSON-like JavaScript values. *)
Inductive Value :=
| VUndefined
| VNull
| VBool (b : bool)
| VNum (n : Z)
| VStr (s : string)
| VArr (items : list Value)
| VObj (fields : list (string * Value)).

(** [process.env]: variable names to their string values. *)
Definition Env := string -> option string.

(** ** Objects as association lists *)

Fixpoint assoc (fs : list (string * Value)) (k : string) : option Value :=
  match fs with
  | [] => None
  | (k', v) :: fs' => if String.eqb k k' then Some v else assoc fs' k
  end.

(** CreateDataProperty: an existing key keeps its place. *)
Fixpoint set_prop (fs : list (string * Value)) (k : string) (v : Value) : list (string * Value) :=
  match fs with
  | [] => [(k, v)]
  | (k', v') :: fs' => if String.eqb k k' then (k, v) :: fs' else (k', v') :: set_prop fs' k v
  end.

(** The decimal name of an array or string index. *)
Fixpoint digits (fuel n : nat) (acc : string) : string :=
  match fuel with
  | O => acc
  | S f =>
      let acc' := String (ascii_of_nat (48 + n mod 10)) acc in
      if Nat.ltb n 10 then acc' else digits f (n / 10) acc'
  end.

Definition index_key (n : nat) : string := digits (S n) n "".

Definition indexed (vs : list Value) : list (string * Value) :=
  combine (map index_key (seq 0 (length vs))) vs.

(** The own enumerable entries that [{...v}] copies. *)
Definition own_entries (v : Value) : list (string * Value) :=
  match v with
  | VObj fs => fs
  | VArr vs => indexed vs
  | VStr s => indexed (map (fun c => VStr (String c EmptyString)) (list_ascii_of_string s))
  | _ => []
  end.

(** [{...acc, ...v}]. *)
Definition spread_into (acc : list (string * Value)) (v : Value) : list (string * Value) :=
  fold_left (fun acc' kv => set_prop acc' (fst kv) (snd kv)) (own_entries v) acc.

(** ** JavaScript operators *)

Definition truthy (v : Value) : bool :=
  match v with
  | VUndefined | VNull => false
  | VBool b => b
  | VNum n => negb (Z.eqb n 0)
  | VStr s => negb (String.eqb s "")
  | VArr _ | VObj _ => true
  end.

(** [a || b] *)
Definition js_or (a b : Value) : Value := if truthy a then a else b.

(** [v.k] on a value that is not [null] or [undefined]: the own
    properties of an object; the [length] and the indices of an array or
    of a string (whose characters are one-character strings); nothing
    for the other values.  Inherited members are functions, which
    [Value] does not hold. *)
Definition get (v : Value) (k : string) : Value :=
  match v with
  | VObj fs => match assoc fs k with Some x => x | None => VUndefined end
  | VArr vs =>
      if String.eqb k "length" then VNum (Z.of_nat (length vs))
      else match assoc (own_entries v) k with Some x => x | None => VUndefined end
  | VStr str =>
      if String.eqb k "length" then VNum (Z.of_nat (String.length str))
      else match assoc (own_entries v) k with Some x => x | None => VUndefined end
  | _ => VUndefined
  end.

(** [v?.k] *)
Definition opt_get (v : Value) (k : string) : Value :=
  match v with
  | VUndefined | VNull => VUndefined
  | _ => get v k
  end.

(** [process.env.NAME] *)
Definition env_get (env : Env) (name : string) : Value :=
  match env name with Some s => VStr s | None => VUndefined end.

(** ** The exported function (lines 5-28) *)

(** [const key = process.env.EXPO_GOOGLE_MAPS_API_KEY || '';] *)
Definition api_key (env : Env) : Value := js_or (env_get env "EXPO_GOOGLE_MAPS_API_KEY") (VStr "").

(** [...(key ? { name: key } : {})] *)
Definition key_entry (key : Value) (name : string) : Value :=
  if truthy key then VObj [(name, key)] else VObj [].

(** The [ios] property (lines 10-16). *)
Definition ios_config (config key : Value) : Value :=
  let ios := get config "ios" in
  VObj (set_prop (spread_into [] (js_or ios (VObj [])))
          "config"
          (VObj (spread_into (spread_into [] (js_or (opt_get ios "config") (VObj [])))
                   (key_entry key "googleMapsApiKey")))).

(** The [android] property (lines 17-26). *)
Definition android_config (config key : Value) : Value :=
  let android := get config "android" in
  let aconfig := opt_get android "config" in
  VObj (set_prop (spread_into [] (js_or android (VObj [])))
          "config"
          (VObj (set_prop (spread_into [] (js_or aconfig (VObj [])))
                   "googleMaps"
                   (VObj (spread_into (spread_into [] (js_or (opt_get aconfig "googleMaps") (VObj [])))
                            (key_entry key "apiKey")))))).

(** [({ config }) => ({ ...config, ios: ..., android: ... })]; [None] is
    the [TypeError] of reading [config.ios] on [null] or [undefined]. *)
Definition app_config (env : Env) (config : Value) : option Value :=
  match config with
  | VUndefined | VNull => None
  | _ =>
      let key := api_key env in
      Some (VObj (set_prop (set_prop (spread_into [] config) "ios" (ios_config config key))
                    "android" (android_config config key)))
  end.

(** ** Well-formed JSON: object keys are distinct at every level *)

Fixpoint nodupb (l : list string) : bool :=
  match l with [] => true | x :: l' => negb (existsb (String.eqb x) l') && nodupb l' end.

Fixpoint wf_value (v : Value) : bool :=
  match v with
  | VObj fs => nodupb (map fst fs) && forallb (fun kv => wf_value (snd kv)) fs
  | VArr vs => forallb wf_value vs
  | _ => true
  end.

Definition is_digit (c : ascii) : bool := Nat.leb 48 (nat_of_ascii c) && Nat.leb (nat_of_ascii c) 57.

(** Names made only of digits: the keys of array and string indices. *)
Definition is_digit_string (s : string) : bool := forallb is_digit (list_ascii_of_string s).

(** ** Association lists *)

Local Open Scope list_scope.

Lemma assoc_set_same fs k v : assoc (set_prop fs k v) k = Some v.
Proof.
  induction fs as [|[k' v'] fs IH]; simpl; [rewrite String.eqb_refl; reflexivity|].
  destruct (String.eqb_spec k k'); simpl; [rewrite String.eqb_refl; reflexivity|].
  destruct (String.eqb_spec k k'); [contradiction | exact IH].
Qed.

Lemma assoc_set_other fs k k' v : k' <> k -> assoc (set_prop fs k v) k' = assoc fs k'.
Proof.
  intros Hne. induction fs as [|[k0 v0] fs IH]; simpl.
  - destruct (String.eqb_spec k' k); [contradiction | reflexivity].
  - destruct (String.eqb_spec k k0) as [->|]; simpl.
    + destruct (String.eqb_spec k' k0); [contradiction | reflexivity].
    + destruct (String.eqb_spec k' k0); [reflexivity | exact IH].
Qed.

(** Writing the value a key already has changes nothing. *)
Lemma set_prop_present fs k v : assoc fs k = Some v -> set_prop fs k v = fs.
Proof.
  induction fs as [|[k0 v0] fs IH]; simpl; [discriminate|].
  destruct (String.eqb_spec k k0) as [->|]; intros E; [inv E; reflexivity | rewrite IH; auto].
Qed.

Lemma keys_set_prop fs k v :
  map fst (set_prop fs k v) = if existsb (String.eqb k) (map fst fs) then map fst fs else map fst fs ++ [k].
Proof.
  induction fs as [|[k0 v0] fs IH]; simpl; [reflexivity|].
  destruct (String.eqb_spec k k0) as [->|]; simpl; [reflexivity|].
  rewrite IH. destruct (existsb _ _); reflexivity.
Qed.

Lemma NoDup_set_prop fs k v : NoDup (map fst fs) -> NoDup (map fst (set_prop fs k v)).
Proof.
  intros Hnd. rewrite keys_set_prop. destruct (existsb (String.eqb k) (map fst fs)) eqn:E;
    [exact Hnd|].
  apply NoDup_app; [exact Hnd | repeat constructor; auto |].
  intros x Hx [Ex|[]]. subst x. assert (existsb (String.eqb k) (map fst fs) = true)
    by (apply existsb_exists; exists k; split; [exact Hx | apply String.eqb_refl]).
  congruence.
Qed.

Lemma set_prop_absent fs k v : ~ In k (map fst fs) -> set_prop fs k v = fs ++ [(k, v)].
Proof.
  induction fs as [|[k0 v0] fs IH]; simpl; [reflexivity|]. intros Hn.
  destruct (String.eqb_spec k k0) as [->|]; [exfalso; auto | rewrite IH; auto].
Qed.

(** ** Spread *)

(** Spreading an object whose keys are new and distinct appends it. *)
Lemma fold_set_app acc fs :
  NoDup (map fst acc ++ map fst fs) ->
  fold_left (fun acc' kv => set_prop acc' (fst kv) (snd kv)) fs acc = acc ++ fs.
Proof.
  revert acc. induction fs as [|[k v] fs IH]; intros acc Hnd; simpl; [symmetry; apply app_nil_r|].
  assert (Hk : ~ In k (map fst acc)).
  { intros Hin. apply (NoDup_remove_2 _ _ _ Hnd). apply in_or_app. left. exact Hin. }
  rewrite set_prop_absent by exact Hk. rewrite IH; [rewrite <- app_assoc; reflexivity|].
  rewrite map_app, <- app_assoc. exact Hnd.
Qed.

Lemma spread_object fs : NoDup (map fst fs) -> spread_into [] (VObj fs) = fs.
Proof. intros Hnd. apply fold_set_app. exact Hnd. Qed.

Lemma spread_single acc k v : spread_into acc (VObj [(k, v)]) = set_prop acc k v.
Proof. reflexivity. Qed.

Lemma NoDup_spread acc v : NoDup (map fst acc) -> NoDup (map fst (spread_into acc v)).
Proof.
  unfold spread_into. generalize (own_entries v). intros es. revert acc.
  induction es as [|[k x] es IH]; intros acc Hnd; simpl; [exact Hnd|]. apply IH, NoDup_set_prop, Hnd.
Qed.

Lemma get_obj_set fs k v : get (VObj (set_prop fs k v)) k = v.
Proof. simpl. rewrite assoc_set_same. reflexivity. Qed.

Lemma get_obj_set_other fs k k' v : k' <> k -> get (VObj (set_prop fs k v)) k' = get (VObj fs) k'.
Proof. intros Hne. simpl. rewrite assoc_set_other by exact Hne. reflexivity. Qed.

(** [v?.k] reads what [v.k] reads: it only avoids the [TypeError]. *)
Lemma opt_get_get v k : opt_get v k = get v k.
Proof. destruct v; reflexivity. Qed.

#[export] Hint Rewrite assoc_set_same get_obj_set opt_get_get spread_single : kisaan.

Lemma nodupb_NoDup l : nodupb l = true <-> NoDup l.
Proof.
  induction l as [|x l IH]; simpl; [split; intros; [constructor | reflexivity]|].
  rewrite andb_true_iff, negb_true_iff, IH. split.
  - intros [Hx Hnd]. constructor; [|exact Hnd]. intros Hin.
    assert (existsb (String.eqb x) l = true)
      by (apply existsb_exists; exists x; split; [exact Hin | apply String.eqb_refl]).
    congruence.
  - intros Hnd. inv Hnd. split; [|assumption]. apply not_true_iff_false. intros E.
    apply existsb_exists in E as [y [Hy Ey]]. apply String.eqb_eq in Ey. subst y. contradiction.
Qed.

Lemma wf_obj fs :
  wf_value (VObj fs) = true <-> NoDup (map fst fs) /\ Forall (fun kv => wf_value (snd kv) = true) fs.
Proof. simpl. rewrite andb_true_iff, nodupb_NoDup, forallb_forall, Forall_forall. reflexivity. Qed.

(** ** Reading a property after a spread *)

Lemma assoc_app l1 l2 k :
  assoc (l1 ++ l2) k = match assoc l1 k with Some v => Some v | None => assoc l2 k end.
Proof.
  induction l1 as [|[k0 v0] l1 IH]; simpl; [reflexivity|].
  destruct (String.eqb k k0); [reflexivity | exact IH].
Qed.

Lemma assoc_set fs k0 v k : assoc (set_prop fs k0 v) k = if String.eqb k k0 then Some v else assoc fs k.
Proof.
  destruct (String.eqb_spec k k0) as [->|Hne]; [apply assoc_set_same | apply assoc_set_other, Hne].
Qed.

(** A spread writes its entries in order: the last occurrence of a key wins. *)
Lemma assoc_fold es acc k :
  assoc (fold_left (fun acc' kv => set_prop acc' (fst kv) (snd kv)) es acc) k =
  match assoc (rev es) k with Some v => Some v | None => assoc acc k end.
Proof.
  revert acc. induction es as [|[k0 v0] es IH]; intros acc; simpl; [reflexivity|].
  rewrite IH, assoc_app, assoc_set. simpl. destruct (assoc (rev es) k); [reflexivity|].
  destruct (String.eqb k k0); reflexivity.
Qed.

Lemma assoc_not_In fs k : ~ In k (map fst fs) -> assoc fs k = None.
Proof.
  induction fs as [|[k0 v0] fs IH]; simpl; [reflexivity|]. intros Hn.
  destruct (String.eqb_spec k k0) as [->|]; [exfalso; auto | auto].
Qed.

Lemma assoc_In fs k v : assoc fs k = Some v -> In (k, v) fs.
Proof.
  induction fs as [|[k0 v0] fs IH]; simpl; [discriminate|].
  destruct (String.eqb_spec k k0) as [->|]; intros E; [inv E; left; reflexivity | right; auto].
Qed.

Lemma assoc_rev es k : NoDup (map fst es) -> assoc (rev es) k = assoc es k.
Proof.
  induction es as [|[k0 v0] es IH]; simpl; [reflexivity|]. intros Hnd. inv Hnd.
  rewrite assoc_app, IH by assumption. simpl.
  destruct (String.eqb_spec k k0) as [->|]; [|destruct (assoc es k); reflexivity].
  rewrite assoc_not_In by assumption. reflexivity.
Qed.

Lemma is_digit_string_cons c s : is_digit_string (String c s) = is_digit c && is_digit_string s.
Proof. reflexivity. Qed.

Lemma digits_S f n acc :
  digits (S f) n acc =
  (let acc' := String (ascii_of_nat (48 + n mod 10)) acc in
   if Nat.ltb n 10 then acc' else digits f (n / 10) acc').
Proof. reflexivity. Qed.

Lemma digits_is_digit_string fuel n acc :
  is_digit_string acc = true -> is_digit_string (digits fuel n acc) = true.
Proof.
  revert n acc. induction fuel as [|f IH]; intros n acc Hacc; [exact Hacc|].
  assert (Hc : is_digit (ascii_of_nat (48 + n mod 10)) = true).
  { assert (n mod 10 < 10) by (apply Nat.mod_upper_bound; discriminate).
    unfold is_digit. rewrite nat_ascii_embedding by lia.
    apply andb_true_intro; split; apply Nat.leb_le; lia. }
  assert (Hs : is_digit_string (String (ascii_of_nat (48 + n mod 10)) acc) = true)
    by (rewrite is_digit_string_cons, Hc; exact Hacc).
  rewrite digits_S. cbv zeta. destruct (Nat.ltb n 10); [exact Hs | apply IH, Hs].
Qed.

(** The entries a spread copies from an array or a string have index names. *)
Lemma indexed_keys vs k : In k (map fst (indexed vs)) -> is_digit_string k = true.
Proof.
  unfold indexed. intros Hin. apply in_map_iff in Hin as [[k' x] [<- Hin]].
  apply in_combine_l, in_map_iff in Hin as [n [<- _]]. apply digits_is_digit_string. reflexivity.
Qed.

Lemma assoc_own_entries v k :
  wf_value v = true -> is_digit_string k = false ->
  assoc (rev (own_entries v)) k = match v with VObj fs => assoc fs k | _ => None end.
Proof.
  intros Hwf Hk.
  assert (Hidx : forall vs, assoc (rev (indexed vs)) k = None).
  { intros vs. apply assoc_not_In. rewrite map_rev, <- in_rev. intros Hin.
    rewrite (indexed_keys vs k Hin) in Hk. discriminate. }
  destruct v; cbn [own_entries]; try reflexivity; try apply Hidx.
  apply assoc_rev, wf_obj, Hwf.
Qed.

Lemma assoc_indexed_None vs k : is_digit_string k = false -> assoc (indexed vs) k = None.
Proof.
  intros Hk. apply assoc_not_In. intros Hin. rewrite (indexed_keys vs k Hin) in Hk. discriminate.
Qed.

(** [{...v}.k] reads [v.k] for a property name that is neither an index
    nor [length]. *)
Lemma get_spread v k :
  wf_value v = true -> is_digit_string k = false -> k <> "length" ->
  get (VObj (spread_into [] v)) k = get v k.
Proof.
  intros Hwf Hk Hl. unfold spread_into. cbn [get].
  rewrite assoc_fold, (assoc_own_entries v k Hwf Hk).
  destruct v; try reflexivity; cbn [get own_entries];
    try (rewrite (proj2 (String.eqb_neq k "length") Hl), assoc_indexed_None by exact Hk; reflexivity).
  destruct (assoc fields k); reflexivity.
Qed.

Lemma get_spread_or v k :
  wf_value v = true -> is_digit_string k = false -> k <> "length" ->
  get (VObj (spread_into [] (js_or v (VObj [])))) k = get v k.
Proof.
  intros Hwf Hk Hl. unfold js_or. destruct (truthy v) eqn:T; [apply get_spread; assumption|].
  destruct v; try discriminate; try reflexivity.
  cbn [get truthy] in *. apply negb_false_iff, String.eqb_eq in T as ->.
  rewrite (proj2 (String.eqb_neq k "length") Hl). reflexivity.
Qed.

(** ** Well-formedness is preserved *)

Lemma wf_js_or a b : wf_value a = true -> wf_value b = true -> wf_value (js_or a b) = true.
Proof. unfold js_or. destruct (truthy a); auto. Qed.

Lemma Forall_set_prop (P : Value -> Prop) fs k v :
  Forall (fun kv => P (snd kv)) fs -> P v -> Forall (fun kv => P (snd kv)) (set_prop fs k v).
Proof.
  intros Hall Hv. induction Hall as [|[k0 v0] fs H0 Hall IH]; simpl; [repeat constructor; exact Hv|].
  destruct (String.eqb k k0); constructor; auto.
Qed.

Lemma wf_own_entries v :
  wf_value v = true -> Forall (fun kv => wf_value (snd kv) = true) (own_entries v).
Proof.
  intros Hwf. apply Forall_forall. intros [k x] Hin.
  destruct v; cbn [own_entries In] in Hin; try contradiction.
  - unfold indexed in Hin. apply in_combine_r, in_map_iff in Hin as [c [<- _]]. reflexivity.
  - unfold indexed in Hin. apply in_combine_r in Hin. simpl in Hwf.
    rewrite forallb_forall in Hwf. apply Hwf, Hin.
  - apply wf_obj in Hwf as [_ Hall]. rewrite Forall_forall in Hall. exact (Hall _ Hin).
Qed.

Lemma wf_get v k : wf_value v = true -> wf_value (get v k) = true.
Proof.
  intros Hwf. pose proof (wf_own_entries v Hwf) as Hown. rewrite Forall_forall in Hown.
  destruct v as [| | | |str|vs|fs]; try reflexivity; cbn [get];
    [destruct (String.eqb k "length") | destruct (String.eqb k "length") |]; try reflexivity;
    [destruct (assoc (own_entries (VStr str)) k) eqn:E
    | destruct (assoc (own_entries (VArr vs)) k) eqn:E
    | destruct (assoc fs k) eqn:E]; try reflexivity;
    exact (Hown _ (assoc_In _ _ _ E)).
Qed.

Lemma wf_spread acc v :
  wf_value (VObj acc) = true -> wf_value v = true -> wf_value (VObj (spread_into acc v)) = true.
Proof.
  rewrite !wf_obj. intros [Hnd Hall] Hv. split; [apply NoDup_spread, Hnd|].
  unfold spread_into. pose proof (wf_own_entries v Hv) as He. clear Hnd.
  revert acc Hall. induction He as [|[k x] es Hx He IH]; intros acc Hall; simpl; [exact Hall|].
  apply IH, (Forall_set_prop (fun x => wf_value x = true)); assumption.
Qed.

Lemma wf_set acc k v :
  wf_value (VObj acc) = true -> wf_value v = true -> wf_value (VObj (set_prop acc k v)) = true.
Proof.
  rewrite !wf_obj. intros [Hnd Hall] Hv.
  split; [apply NoDup_set_prop, Hnd | apply (Forall_set_prop (fun x => wf_value x = true)); assumption].
Qed.

Lemma wf_key_entry key name : wf_value key = true -> wf_value (key_entry key name) = true.
Proof. intros Hk. unfold key_entry. destruct (truthy key); simpl; rewrite ?Hk; reflexivity. Qed.

Lemma wf_api_key env : wf_value (api_key env) = true.
Proof. unfold api_key, js_or, env_get. destruct (env _); destruct (truthy _); reflexivity. Qed.

#[export] Hint Resolve wf_get wf_js_or wf_spread wf_set wf_key_entry wf_api_key : kisaan.

Ltac wf_auto :=
  repeat (rewrite ?opt_get_get; first
    [ assumption | reflexivity | apply wf_spread | apply wf_set | apply wf_js_or
    | apply wf_key_entry | apply wf_get | apply wf_api_key ]).

(** ** The result of the function *)

Lemma app_config_some env config out :
  app_config env config = Some out ->
  out = VObj (set_prop (set_prop (spread_into [] config) "ios" (ios_config config (api_key env)))
                "android" (android_config config (api_key env))).
Proof. intros E. destruct config; cbn [app_config] in E; try discriminate; injection E as <-; reflexivity. Qed.

Lemma app_config_ios env config out :
  app_config env config = Some out -> get out "ios" = ios_config config (api_key env).
Proof.
  intros E. rewrite (app_config_some _ _ _ E), get_obj_set_other by discriminate. apply get_obj_set.
Qed.

Lemma app_config_android env config out :
  app_config env config = Some out -> get out "android" = android_config config (api_key env).
Proof. intros E. rewrite (app_config_some _ _ _ E). apply get_obj_set. Qed.

(** ** Reading nested properties *)

(** [v.k1.k2...kn], the way the native SDKs read the configuration. *)
Definition get_path (v : Value) (p : list string) : Value := fold_left get p v.

Definition ios_key_path : list string := ["ios"; "config"; "googleMapsApiKey"].
Definition android_key_path : list string := ["android"; "config"; "googleMaps"; "apiKey"].

(** Neither of [p] and [q] is a prefix of the other. *)
Fixpoint diverges (p q : list string) : bool :=
  match p, q with
  | k :: p', k' :: q' => if String.eqb k k' then diverges p' q' else true
  | _, _ => false
  end.

(** Every proper prefix of [p] reads an object of [v]: the path runs
    through objects, as the settings of [app.json] do. *)
Fixpoint objects_along (v : Value) (p : list string) : bool :=
  match p with
  | [] => true
  | k :: p' => match v with VObj _ => objects_along (get v k) p' | _ => false end
  end.

(** [x] reads as [v] on every path through objects of [v] that diverges
    from [q]. *)
Definition agrees_off (x v : Value) (q : list string) : Prop :=
  forall p, objects_along v p = true -> diverges p q = true -> get_path x p = get_path v p.

Lemma get_path_cons v k p : get_path v (k :: p) = get_path (get v k) p.
Proof. reflexivity. Qed.

Lemma get_path_step v v' k p : get v k = get v' k -> get_path v (k :: p) = get_path v' (k :: p).
Proof. intros E. rewrite !get_path_cons, E. reflexivity. Qed.

Lemma objects_along_cons v k p :
  objects_along v (k :: p) = true -> (exists fs, v = VObj fs) /\ objects_along (get v k) p = true.
Proof. destruct v; simpl; try discriminate. eauto. Qed.

Lemma diverges_nil_r p : diverges p [] = false.
Proof. destruct p; reflexivity. Qed.

(** [{...(v || {})}.k] reads [v.k] on an object [v]. *)
Lemma get_spread_or_obj fs k :
  wf_value (VObj fs) = true -> get (VObj (spread_into [] (js_or (VObj fs) (VObj [])))) k = get (VObj fs) k.
Proof. intros Hwf. cbn [js_or truthy]. rewrite spread_object by apply (wf_obj fs), Hwf. reflexivity. Qed.

(** [{...v, ...(key ? { name: key } : {})}] *)
Lemma get_key_entry acc key name :
  truthy key = true -> get (VObj (spread_into acc (key_entry key name))) name = key.
Proof. intros T. unfold key_entry. rewrite T, spread_single. apply get_obj_set. Qed.

Lemma get_key_layer v key name :
  wf_value v = true -> is_digit_string name = false -> name <> "length" ->
  get (VObj (spread_into (spread_into [] (js_or v (VObj []))) (key_entry key name))) name =
  js_or key (get v name).
Proof.
  intros Hwf Hn Hl. destruct (truthy key) eqn:T.
  - rewrite get_key_entry by exact T. unfold js_or. rewrite T. reflexivity.
  - unfold key_entry, js_or at 2. rewrite T. apply get_spread_or; assumption.
Qed.

Lemma key_layer_frame v key name :
  wf_value v = true ->
  agrees_off (VObj (spread_into (spread_into [] (js_or v (VObj []))) (key_entry key name))) v [name].
Proof.
  intros Hwf [|k p] Hp Hd; [discriminate|]. apply objects_along_cons in Hp as [[fs ->] _].
  cbn [diverges] in Hd. destruct (String.eqb_spec k name) as [->|Hne];
    [rewrite diverges_nil_r in Hd; discriminate|].
  apply get_path_step. unfold key_entry. destruct (truthy key);
    [rewrite spread_single, get_obj_set_other by exact Hne|]; apply get_spread_or_obj, Hwf.
Qed.

Lemma set_layer_frame v name x q :
  wf_value v = true -> agrees_off x (get v name) q ->
  agrees_off (VObj (set_prop (spread_into [] (js_or v (VObj []))) name x)) v (name :: q).
Proof.
  intros Hwf Hx [|k p] Hp Hd; [discriminate|]. apply objects_along_cons in Hp as [[fs ->] Hp].
  cbn [diverges] in Hd. destruct (String.eqb_spec k name) as [->|Hne].
  - rewrite ?String.eqb_refl in Hd. rewrite !get_path_cons, get_obj_set. apply Hx; assumption.
  - apply get_path_step. rewrite get_obj_set_other by exact Hne. apply get_spread_or_obj, Hwf.
Qed.

Lemma ios_config_frame config key :
  wf_value config = true -> agrees_off (ios_config config key) (get config "ios") (tl ios_key_path).
Proof.
  intros Hwf. unfold ios_config. cbv zeta.
  apply set_layer_frame; [wf_auto|]. rewrite opt_get_get. apply key_layer_frame. wf_auto.
Qed.

Lemma android_config_frame config key :
  wf_value config = true ->
  agrees_off (android_config config key) (get config "android") (tl android_key_path).
Proof.
  intros Hwf. unfold android_config. cbv zeta.
  apply set_layer_frame; [wf_auto|]. rewrite !opt_get_get.
  apply set_layer_frame; [wf_auto|]. apply key_layer_frame. wf_auto.
Qed.

(** ** Theorems *)

(** A configuration in the shape of the app's [app.json], and an
    environment that sets the key. *)
Definition sample_config : Value :=
  VObj [("name", VStr "Kisaan Sahayak"); ("slug", VStr "kisaan-sahayak");
        ("ios", VObj [("supportsTablet", VBool true);
                      ("config", VObj [("googleMapsApiKey", VStr "static-key")])]);
        ("android", VObj [("package", VStr "com.kisaan.sahayak")])].

Definition sample_env : Env :=
  fun name => if String.eqb name "EXPO_GOOGLE_MAPS_API_KEY" then Some "env-key" else None.

(** C20: frame.  On a well-formed configuration the function changes
    nothing but the two paths it writes: every path that runs through
    objects of the static configuration and is neither a prefix nor an
    extension of [ios.config.googleMapsApiKey] or
    [android.config.googleMaps.apiKey] reads the same in the result as in
    the static configuration. *)
Theorem app_config_frame env config out p :
  app_config env config = Some out -> wf_value config = true -> objects_along config p = true ->
  diverges p ios_key_path = true -> diverges p android_key_path = true ->
  get_path out p = get_path config p.
Proof.
  intros E Hwf Hp Hi Ha. destruct p as [|k p]; [discriminate|].
  pose proof (objects_along_cons _ _ _ Hp) as [[fs Ec] Hp'].
  cbn [diverges ios_key_path android_key_path] in Hi, Ha.
  destruct (String.eqb_spec k "android") as [->|Hna].
  - rewrite ?String.eqb_refl in Ha. rewrite !get_path_cons, (app_config_android _ _ _ E).
    exact (android_config_frame config _ Hwf p Hp' Ha).
  - destruct (String.eqb_spec k "ios") as [->|Hni].
    + rewrite ?String.eqb_refl in Hi. rewrite !get_path_cons, (app_config_ios _ _ _ E).
      exact (ios_config_frame config _ Hwf p Hp' Hi).
    + apply get_path_step. rewrite (app_config_some _ _ _ E), !get_obj_set_other by assumption.
      subst config. rewrite spread_object by apply (wf_obj fs), Hwf. reflexivity.
Qed.

Lemma app_config_frame_witness :
  exists out, app_config sample_env sample_config = Some out /\
    get_path out ["ios"; "supportsTablet"] = get_path sample_config ["ios"; "supportsTablet"].
Proof. eexists; split; [reflexivity | apply (app_config_frame sample_env sample_config); reflexivity]. Defined.

(** C21: where the environment does not give a key (the variable is
    unset or empty, so [key] is [''] and falsy), the result keeps the key
    the static configuration holds at either path; where it gives one, the
    environment's key wins. *)
Theorem app_config_key_fallback env config out :
  app_config env config = Some out -> wf_value config = true ->
  get_path out ios_key_path = js_or (api_key env) (get_path config ios_key_path) /\
  get_path out android_key_path = js_or (api_key env) (get_path config android_key_path).
Proof.
  intros E Hwf. unfold get_path, ios_key_path, android_key_path. cbn [fold_left].
  rewrite (app_config_ios _ _ _ E), (app_config_android _ _ _ E).
  unfold ios_config, android_config. cbv zeta. rewrite !get_obj_set, !opt_get_get.
  split; apply get_key_layer; solve [wf_auto | reflexivity | discriminate].
Qed.

Lemma app_config_key_fallback_witness :
  exists out, app_config (fun _ => None) sample_config = Some out /\
    get_path out ios_key_path = VStr "static-key" /\ get_path out android_key_path = VUndefined.
Proof.
  eexists; split; [reflexivity|].
  apply (app_config_key_fallback (fun _ => None) sample_config); reflexivity.
Defined.

