(* ===== verification/JsNumber.v ===== *)
(** * The JavaScript [Number] operations of the area calculator

    [calculateAreaInAcres] uses these operations of JavaScript [Number]:
    [+], [-], [*], [/], [Math.abs], [Math.cos], [Math.round], [Math.PI]
    and decimal literals; the render also tests the area's truthiness
    ([farmArea && ...], line 477).  The class [JsNumber] collects them, so
    that the calculator is written once.  [QNumber] is the exact model over [Q]:
    - each literal is its exact decimal value;
    - [Math.PI] is the exact rational value of the binary64 constant;
    - a number is falsy exactly when it equals [0];
    - [Math.round x] is the integer nearest to [x], with ties going up,
      which is [floor (x + 1/2)] (ECMAScript, Math.round);
    - [Math.cos] is a parameter, because ECMAScript leaves its accuracy to
      the implementation.
    Equality of rationals is [Qeq], so the file gives [Proper] instances
    for setoid rewriting. *)

From Stdlib Require Import QArith Qround Qabs ZArith Lqa Lia Morphisms.
From S2P Require Import Prelude.

Class JsNumber (F : Type) := {
  js_add : F -> F -> F;
  js_sub : F -> F -> F;
  js_mul : F -> F -> F;
  js_div : F -> F -> F;
  js_abs : F -> F;            (** [Math.abs] *)
  js_cos : F -> F;            (** [Math.cos] *)
  js_round : F -> F;          (** [Math.round] *)
  js_pi : F;                  (** [Math.PI] *)
  js_lit : Z -> nat -> F;     (** the literal [m * 10^-k], e.g. [4046.86] *)
  js_truthy : F -> bool       (** ToBoolean: false exactly for [0], [-0] and [NaN] *)
}.

Declare Scope js_scope.
Delimit Scope js_scope with js.
Infix "+$" := js_add (at level 50, left associativity) : js_scope.
Infix "-$" := js_sub (at level 50, left associativity) : js_scope.
Infix "*$" := js_mul (at level 40, left associativity) : js_scope.
Infix "/$" := js_div (at level 40, left associativity) : js_scope.

(** ** The exact model *)

Local Open Scope Q_scope.

(** [Math.round]: the nearest integer, ties toward +infinity. *)
Definition Qround_js (x : Q) : Q := inject_Z (Qfloor (x + (1 # 2))).

(** The binary64 value of [Math.PI], exactly: 884279719003555 / 2^48. *)
Definition Math_PI_Q : Q := 884279719003555 # 281474976710656.

Definition QNumber (qcos : Q -> Q) : JsNumber Q := {|
  js_add := Qplus; js_sub := Qminus; js_mul := Qmult; js_div := Qdiv;
  js_abs := Qabs; js_cos := qcos; js_round := Qround_js;
  js_pi := Math_PI_Q; js_lit := fun m k => Qmake m (Z.to_pos (10 ^ Z.of_nat k));
  js_truthy := fun x => negb (Qeq_bool x 0)
|}.

#[export] Instance Qround_js_Proper : Proper (Qeq ==> Qeq) Qround_js.
Proof. intros x y Hxy. unfold Qround_js. rewrite (Qfloor_comp (x + (1#2)) (y + (1#2))); [reflexivity|]. rewrite Hxy. reflexivity. Qed.

#[export] Instance Qabs_Proper : Proper (Qeq ==> Qeq) Qabs.
Proof. intros x y H. apply Qabs_wd, H. Qed.

(** ** [Math.round] in the exact model *)

Lemma Qround_js_le (x : Q) : Qround_js x <= x + (1 # 2).
Proof. unfold Qround_js. apply Qfloor_le. Qed.

Lemma Qround_js_gt (x : Q) : x - (1 # 2) < Qround_js x.
Proof.
  unfold Qround_js. pose proof (Qlt_floor (x + (1 # 2))) as H.
  rewrite inject_Z_plus in H. unfold inject_Z at 2 in H. lra.
Qed.

(** [Math.round x] is within one half of [x]. *)
Lemma Qround_js_error (x : Q) : Qabs (Qround_js x - x) <= 1 # 2.
Proof.
  apply Qabs_Qle_condition. pose proof (Qround_js_le x). pose proof (Qround_js_gt x). lra.
Qed.

Lemma Qround_js_integral (x : Q) : exists z : Z, Qround_js x == inject_Z z.
Proof. exists (Qfloor (x + (1 # 2))). reflexivity. Qed.

(** [Math.round x] is the integer [z] with [z - 1/2 <= x < z + 1/2]. *)
Lemma Qround_js_spec (x : Q) (z : Z) :
  inject_Z z - (1 # 2) <= x -> x < inject_Z z + (1 # 2) -> Qround_js x == inject_Z z.
Proof.
  intros Hlo Hhi. unfold Qround_js.
  pose proof (Qfloor_le (x + (1 # 2))) as H1. pose proof (Qlt_floor (x + (1 # 2))) as H2.
  revert H1 H2. generalize (Qfloor (x + (1 # 2))). intros f H1 H2.
  rewrite inject_Z_plus in H2. change (inject_Z 1) with 1 in H2.
  assert (Hfz : inject_Z f < inject_Z (z + 1)).
  { rewrite inject_Z_plus. change (inject_Z 1) with 1. lra. }
  assert (Hzf : inject_Z z < inject_Z (f + 1)).
  { rewrite inject_Z_plus. change (inject_Z 1) with 1. lra. }
  rewrite <- Zlt_Qlt in Hfz, Hzf.
  replace f with z by lia. reflexivity.
Qed.

Lemma Qround_js_nonneg (x : Q) : 0 <= x -> 0 <= Qround_js x.
Proof.
  intros Hx. apply Qle_trans with (Qround_js 0).
  - apply Qle_lteq. right. symmetry. apply (Qround_js_spec 0 0); unfold inject_Z; lra.
  - unfold Qround_js. rewrite <- Zle_Qle. apply Qfloor_resp_le. lra.
Qed.

(** Values below one half round to zero. *)
Lemma Qround_js_small (x : Q) : 0 <= x -> x < 1 # 2 -> Qround_js x == 0.
Proof. intros H0 H1. apply (Qround_js_spec x 0); unfold inject_Z; lra. Qed.

#[export] Hint Resolve Qround_js_nonneg Qabs_nonneg : kisaan.
