(* ===== verification/AreaCalculator.v ===== *)
(** * The area calculator [calculateAreaInAcres]

    This file models [calculateAreaInAcres]
    (src/MyApp/screens/FetchingLocationScreen.jsx, lines 199-220) over any
    [JsNumber].  The point type is left open.  The code passes the tapped
    points, which are objects [{latitude, longitude, id}].  The function
    reads only their coordinates, so the class [HasCoordinate] exposes
    them.

    The theorems are stated in the exact model [QNumber qcos], where
    [qcos] is any implementation of [Math.cos] that respects [Qeq].  They
    show that the loop computes the shoelace sum over the polygon's edges,
    and that the result is the spec's formula rounded to three decimals.
    They give the invariances under rotation and reversal, the degenerate
    cases, the input-length guard and the spec's concrete case.  They also
    show that a small but genuine quadrilateral comes out as zero acres. *)

From Stdlib Require Import List Arith QArith Qabs Qround Lqa Lia Morphisms Setoid.
From S2P Require Import Prelude JsNumber.
Import ListNotations.

(** A map coordinate, the JS object [{ latitude, longitude }]. *)
Record Coordinate (F : Type) := mkCoordinate { latitude : F; longitude : F }.
Arguments mkCoordinate {F} _ _.
Arguments latitude {F} _.
Arguments longitude {F} _.

(** Objects that carry a coordinate.  JavaScript's structural typing lets
    the code pass any object with these two fields. *)
Class HasCoordinate (P F : Type) := coordinate_of : P -> Coordinate F.

#[export] Instance Coordinate_HasCoordinate {F : Type} : HasCoordinate (Coordinate F) F :=
  fun c => c.

Section Calculator.
Context {P F : Type} `{JsNumber F} `{HasCoordinate P F}.
Local Open Scope js_scope.

Definition lat_of (p : P) : F := latitude (coordinate_of p).
Definition lng_of (p : P) : F := longitude (coordinate_of p).

(** [const toRadians = (degrees) => degrees * (Math.PI / 180);] *)
Definition toRadians (degrees : F) : F := degrees *$ (js_pi /$ js_lit 180 0).

(** One iteration of [for (let i = 0; i < points.length; i++)].  Both
    indices are below [points.length], so the lookups always succeed
    ([shoelace_body_in_range] below). *)
Definition shoelace_body (points : list P) (area : F) (i : nat) : F :=
  let j := (i + 1) mod length points in
  match nth_error points i, nth_error points j with
  | Some pi, Some pj =>
      let area := area +$ toRadians (lng_of pi) *$ toRadians (lat_of pj) in
      area -$ toRadians (lng_of pj) *$ toRadians (lat_of pi)
  | _, _ => area
  end.

(** [let area = 0; for (...) { ... }] *)
Definition shoelace_loop (points : list P) : F :=
  fold_left (shoelace_body points) (seq 0 (length points)) (js_lit 0 0).

(** [points.reduce((sum, p) => sum + p.latitude, 0) / points.length] *)
Definition centerLat (points : list P) : F :=
  fold_left (fun sum p => sum +$ lat_of p) points (js_lit 0 0)
    /$ js_lit (Z.of_nat (length points)) 0.

(** The unrounded [areaInAcres] of lines 211-217. *)
Definition areaInAcres (points : list P) : F :=
  let area := js_abs (shoelace_loop points) /$ js_lit 2 0 in
  let earthRadius := js_lit 6371000 0 in
  let latRadians := toRadians (centerLat points) in
  let adjustedRadius := earthRadius *$ js_cos latRadians in
  let areaInSquareMeters := area *$ adjustedRadius *$ earthRadius in
  areaInSquareMeters /$ js_lit 404686 2.

(** The whole function: the length guard of line 201, then
    [Math.round(areaInAcres * 1000) / 1000]. *)
Definition calculateAreaInAcres (points : list P) : F :=
  if negb (Nat.eqb (length points) 4) then js_lit 0 0
  else js_round (areaInAcres points *$ js_lit 1000 0) /$ js_lit 1000 0.

(** The loop never reads outside the array. *)
Lemma shoelace_body_in_range (points : list P) (i : nat) :
  (i < length points)%nat ->
  exists pi pj, nth_error points i = Some pi /\
                nth_error points ((i + 1) mod length points) = Some pj.
Proof.
  intros Hi.
  destruct (nth_error points i) as [pi|] eqn:Ei;
    [| apply nth_error_None in Ei; lia].
  destruct (nth_error points ((i + 1) mod length points)) as [pj|] eqn:Ej;
    [eauto | apply nth_error_None in Ej; pose proof (succ_mod_lt i _ Hi); lia].
Qed.
End Calculator.

(** The calculator reads a point only through its coordinate, so the
    screen's [MapPoint]s and their bare coordinates give the same area. *)
Lemma calculateAreaInAcres_coordinates {P F : Type} `{JsNumber F} `{HasCoordinate P F}
    (points : list P) :
  calculateAreaInAcres (map coordinate_of points) = calculateAreaInAcres points.
Proof.
  unfold calculateAreaInAcres, areaInAcres, shoelace_loop, centerLat. rewrite !length_map.
  rewrite fold_left_map_fuse.
  rewrite (fold_left_ext (shoelace_body (map coordinate_of points)) (shoelace_body points));
    [reflexivity|].
  intros area i. unfold shoelace_body. rewrite !nth_error_map, length_map.
  destruct (nth_error points i), (nth_error points _); reflexivity.
Qed.

(** ** The exact model *)

Section ExactModel.
Context {P : Type} `{HasCoordinate P Q}.
(** Any implementation of [Math.cos] that respects equality of rationals. *)
Context (qcos : Q -> Q) `{Hcos : !Proper (Qeq ==> Qeq) qcos}.
Local Open Scope Q_scope.

Local Abbreviation NQ := (QNumber qcos).
Local Abbreviation area := (@calculateAreaInAcres P Q NQ _).

(** [simpl] evaluates the model's arithmetic but keeps the relations and
    the named parts of the function. *)
#[local] Arguments Qeq : simpl never.
#[local] Arguments Qabs : simpl never.
#[local] Arguments Qround_js : simpl never.
#[local] Arguments shoelace_loop : simpl never.
#[local] Arguments centerLat : simpl never.
#[local] Arguments toRadians : simpl never.
#[local] Arguments areaInAcres : simpl never.
#[local] Arguments Qle : simpl never.
#[local] Arguments Qlt : simpl never.

(** The spec, 4.1: degrees to radians. *)
Definition radQ (d : Q) : Q := d * (Math_PI_Q / 180).

#[export] Instance radQ_Proper : Proper (Qeq ==> Qeq) radQ.
Proof. intros x y E. unfold radQ. rewrite E. reflexivity. Qed.

(** The spec's term for the edge from [p] to [q]: the mixed radian
    cross product [lon_p * lat_q - lon_q * lat_p]. *)
Definition cross (p q : P) : Q :=
  radQ (lng_of p) * radQ (lat_of q) - radQ (lng_of q) * radQ (lat_of p).

(** The polygon's edges: each vertex with its successor, the last one
    with the first. *)
Definition edges (points : list P) : list (P * P) := combine points (rotate1 points).

(** Reference shoelace sum over the edges. *)
Definition signed_area (points : list P) : Q :=
  fold_right (fun e acc => cross (fst e) (snd e) + acc) 0 (edges points).

Definition mean_latitude (points : list P) : Q :=
  fold_right (fun p s => lat_of p + s) 0 points / inject_Z (Z.of_nat (length points)).

(** The spec, 4.1 steps 1-5: [|sum| / 2 * R^2 * cos(meanLat) / 4046.86]. *)
Definition spec_acres (points : list P) : Q :=
  Qabs (signed_area points) / 2 * (6371000 * 6371000)
    * qcos (radQ (mean_latitude points)) / (404686 # 100).

Lemma toRadians_Q (d : Q) : @toRadians Q NQ d == radQ d.
Proof. unfold toRadians, radQ. simpl. ring. Qed.

Lemma shoelace_loop_4 (points : list P) :
  length points = 4%nat -> @shoelace_loop P Q NQ _ points == signed_area points.
Proof.
  intros Hl. destruct_4 points.
  unfold shoelace_loop, shoelace_body, signed_area, edges, cross. simpl.
  unfold toRadians, radQ. simpl. ring.
Qed.

Lemma fold_left_sum_lat (points : list P) (a : Q) :
  fold_left (fun sum p => sum + lat_of p) points a
  == a + fold_right (fun p s => lat_of p + s) 0 points.
Proof.
  revert a. induction points as [|p ps IH]; intros a; simpl; [ring|].
  rewrite IH. ring.
Qed.

Lemma centerLat_mean (points : list P) :
  @centerLat P Q NQ _ points == mean_latitude points.
Proof.
  unfold centerLat, mean_latitude. simpl. rewrite fold_left_sum_lat. simpl.
  unfold inject_Z. apply Qdiv_comp; [ring | reflexivity].
Qed.

(** The unrounded value the code computes is the spec's formula. *)
Lemma areaInAcres_spec (points : list P) :
  length points = 4%nat -> @areaInAcres P Q NQ _ points == spec_acres points.
Proof.
  intros Hl. unfold areaInAcres, spec_acres. simpl.
  rewrite shoelace_loop_4, centerLat_mean, toRadians_Q by exact Hl.
  field.
Qed.

Lemma calculateAreaInAcres_4 (points : list P) :
  length points = 4%nat -> area points == Qround_js (spec_acres points * 1000) / 1000.
Proof.
  intros Hl. unfold calculateAreaInAcres. rewrite Hl. simpl.
  rewrite areaInAcres_spec by exact Hl. reflexivity.
Qed.

Lemma signed_area_4 (a b c d : P) :
  signed_area [a; b; c; d] == cross a b + cross b c + cross c d + cross d a.
Proof. unfold signed_area, edges. simpl. ring. Qed.

Lemma spec_acres_congr (l1 l2 : list P) :
  Qabs (signed_area l1) == Qabs (signed_area l2) ->
  mean_latitude l1 == mean_latitude l2 ->
  spec_acres l1 == spec_acres l2.
Proof. intros Hs Hm. unfold spec_acres. rewrite Hs, Hm. reflexivity. Qed.

Lemma round3_congr (x y : Q) :
  x == y -> Qround_js (x * 1000) / 1000 == Qround_js (y * 1000) / 1000.
Proof. intros E. rewrite E. reflexivity. Qed.

Lemma Qdiv_1000 (r : Q) : r / 1000 == r * (1 # 1000).
Proof. reflexivity. Qed.

Lemma spec_acres_nonneg (points : list P) :
  0 <= qcos (radQ (mean_latitude points)) -> 0 <= spec_acres points.
Proof.
  intros Hc. unfold spec_acres, Qdiv.
  repeat apply Qmult_le_0_compat; auto with kisaan; discriminate.
Qed.

(** C1: with four points, the result is the spec's formula rounded to
    three decimals: within 1/2000 of it and a whole number of
    thousandths. *)
Theorem calculateAreaInAcres_refines_spec (points : list P) :
  length points = 4%nat ->
  Qabs (area points - spec_acres points) <= (1 # 2000) /\
  exists z : Z, area points == inject_Z z * (1 # 1000).
Proof.
  intros Hl. split.
  - rewrite calculateAreaInAcres_4, Qdiv_1000 by exact Hl.
    pose proof (Qround_js_error (spec_acres points * 1000)) as E.
    apply Qabs_Qle_condition in E. apply Qabs_Qle_condition. lra.
  - destruct (Qround_js_integral (spec_acres points * 1000)) as [z Hz].
    exists z. rewrite calculateAreaInAcres_4, Qdiv_1000, Hz by exact Hl. reflexivity.
Qed.

(** C11: the result does not depend on which tapped point comes first. *)
Theorem calculateAreaInAcres_rotate (points : list P) :
  length points = 4%nat ->
  @calculateAreaInAcres P Q NQ _ (rotate1 points) == @calculateAreaInAcres P Q NQ _ points.
Proof.
  intros Hl.
  rewrite !calculateAreaInAcres_4 by (rewrite ?length_rotate1; exact Hl).
  apply round3_congr, spec_acres_congr; destruct_4 points;
    unfold signed_area, edges, cross, mean_latitude; simpl.
  - apply Qabs_wd. ring.
  - apply Qdiv_comp; [ring | reflexivity].
Qed.

Lemma signed_area_rev (points : list P) :
  length points = 4%nat -> signed_area (rev points) == - signed_area points.
Proof.
  intros Hl. destruct_4 points. unfold signed_area, edges, cross. simpl. ring.
Qed.

(** C12: tapping the boundary in the opposite direction gives the same
    area: the signed sum changes sign and [Math.abs] removes it. *)
Theorem calculateAreaInAcres_rev (points : list P) :
  length points = 4%nat ->
  @calculateAreaInAcres P Q NQ _ (rev points) == @calculateAreaInAcres P Q NQ _ points.
Proof.
  intros Hl.
  rewrite !calculateAreaInAcres_4 by (rewrite ?length_rev; exact Hl).
  apply round3_congr, spec_acres_congr.
  - rewrite signed_area_rev by exact Hl. apply Qabs_opp.
  - destruct_4 points. unfold mean_latitude. simpl.
    apply Qdiv_comp; [ring | reflexivity].
Qed.

(** C13: a list of any other length gives 0 (line 201). *)
Theorem calculateAreaInAcres_length_guard (points : list P) :
  length points <> 4%nat -> @calculateAreaInAcres P Q NQ _ points == 0.
Proof.
  intros Hl. unfold calculateAreaInAcres.
  apply Nat.eqb_neq in Hl. rewrite Hl. reflexivity.
Qed.

(** C14: four points on one line in the (longitude, latitude) plane, in
    particular four equal points, have area 0. *)
Theorem calculateAreaInAcres_collinear (points : list P) (lat0 lng0 dlat dlng : Q) :
  length points = 4%nat ->
  Forall (fun p => exists t, lat_of p == lat0 + t * dlat /\ lng_of p == lng0 + t * dlng) points ->
  area points == 0.
Proof.
  intros Hl Hcol. rewrite calculateAreaInAcres_4 by exact Hl.
  assert (Hs : signed_area points == 0).
  { destruct_4 points. rewrite signed_area_4. unfold cross.
    repeat match goal with
           | Hf : Forall _ (_ :: _) |- _ => inv Hf
           | He : exists t, _ |- _ =>
               let t := fresh "t" in let E1 := fresh "E" in let E2 := fresh "E" in
               destruct He as (t & E1 & E2); rewrite E1, E2
           end.
    unfold radQ. ring. }
  assert (Ha : spec_acres points == 0).
  { unfold spec_acres. rewrite Hs. change (Qabs 0) with 0. unfold Qdiv. ring. }
  rewrite Ha. reflexivity.
Qed.

(** C15: the result is never negative, as long as [Math.cos] of the mean
    latitude is not negative (true for latitudes in [-90, 90]). *)
Theorem calculateAreaInAcres_nonneg (points : list P) :
  0 <= qcos (radQ (mean_latitude points)) -> 0 <= area points.
Proof.
  intros Hc. destruct (Nat.eq_dec (length points) 4) as [Hl|Hl].
  - rewrite calculateAreaInAcres_4, Qdiv_1000 by exact Hl.
    apply Qmult_le_0_compat; [|discriminate].
    apply Qround_js_nonneg, Qmult_le_0_compat; [apply spec_acres_nonneg, Hc | discriminate].
  - rewrite calculateAreaInAcres_length_guard by exact Hl. apply Qle_refl.
Qed.
End ExactModel.

(** ** Concrete boundaries *)

Local Open Scope Q_scope.

(** The spec's example (section 8): a square of 0.001 degree near
    (19 N, 73 E), in tap order. *)
Definition spec_square : list (Coordinate Q) :=
  [mkCoordinate 19 73; mkCoordinate 19 (73001 # 1000);
   mkCoordinate (19001 # 1000) (73001 # 1000); mkCoordinate (19001 # 1000) 73].

(** A square of 0.00001 degree (about 1.1 m a side) at the same place. *)
Definition tiny_square : list (Coordinate Q) :=
  [mkCoordinate 19 73; mkCoordinate 19 (7300001 # 100000);
   mkCoordinate (1900001 # 100000) (7300001 # 100000); mkCoordinate (1900001 # 100000) 73].

(** A truncated Taylor series of cosine, one implementation of [Math.cos]
    for the examples (accurate to 1e-8 on [-0.5, 0.5]). *)
Definition cos_taylor (x : Q) : Q :=
  let x2 := x * x in 1 - x2 / 2 + x2 * x2 / 24 - x2 * x2 * x2 / 720.

#[export] Instance cos_taylor_Proper : Proper (Qeq ==> Qeq) cos_taylor.
Proof. intros x y E. unfold cos_taylor. rewrite E. reflexivity. Qed.

Section Examples.
Context (qcos : Q -> Q) `{Hcos : !Proper (Qeq ==> Qeq) qcos}.
Local Abbreviation area := (@calculateAreaInAcres (Coordinate Q) Q (QNumber qcos) _).

(** [spec_acres] at a fixed mean latitude is a constant times the cosine. *)
Lemma spec_acres_scale (points : list (Coordinate Q)) (m : Q) :
  mean_latitude points == m ->
  spec_acres qcos points
  == Qabs (signed_area points) * (1 # 2) * (6371000 * 6371000) * (100 # 404686)
     * qcos (radQ m).
Proof. intros Hm. unfold spec_acres. rewrite Hm. field. Qed.

(** C16: the spec's 0.001-degree square (section 8) is 2.889 acres, for any
    [Math.cos] within 2e-4 of cos(19.0005 degrees) = 0.945516. *)
Theorem calculateAreaInAcres_spec_case :
  94542 # 100000 <= qcos (radQ (190005 # 10000)) <= 94573 # 100000 ->
  area spec_square == 2889 # 1000.
Proof.
  intros [Hlo Hhi].
  rewrite (calculateAreaInAcres_4 qcos spec_square) by reflexivity.
  rewrite (spec_acres_scale spec_square (190005 # 10000)) by reflexivity.
  let k := eval vm_compute in
    (Qred (Qabs (signed_area spec_square) * (1 # 2) * (6371000 * 6371000) * (100 # 404686))) in
  assert (Hk : Qabs (signed_area spec_square) * (1 # 2) * (6371000 * 6371000) * (100 # 404686) == k)
    by (vm_compute; reflexivity);
  rewrite Hk.
  rewrite (Qround_js_spec _ 2889); [reflexivity | unfold inject_Z; lra ..].
Qed.

(** C17: a genuine quadrilateral can come out as 0 acres.  The square of
    about 1.2 square meters has a positive shoelace sum, but its area
    rounds to 0.000. *)
Theorem calculateAreaInAcres_tiny_square :
  0 <= qcos (radQ (mean_latitude tiny_square)) <= 1 ->
  0 < signed_area tiny_square /\ area tiny_square == 0.
Proof.
  intros [Hlo Hhi]. split; [vm_compute; reflexivity|].
  rewrite (calculateAreaInAcres_4 qcos tiny_square) by reflexivity.
  rewrite (spec_acres_scale tiny_square (mean_latitude tiny_square)) by reflexivity.
  let k := eval vm_compute in
    (Qred (Qabs (signed_area tiny_square) * (1 # 2) * (6371000 * 6371000) * (100 # 404686))) in
  assert (Hk : Qabs (signed_area tiny_square) * (1 # 2) * (6371000 * 6371000) * (100 # 404686) == k)
    by (vm_compute; reflexivity);
  rewrite Hk.
  rewrite Qround_js_small; [reflexivity | lra ..].
Qed.
End Examples.

(** ** Witnesses: the theorems applied to concrete boundaries *)

Local Abbreviation areaT := (@calculateAreaInAcres (Coordinate Q) Q (QNumber cos_taylor) _).

(** Four points on the line through (19, 73) with direction (1, 2) / 1000. *)
Definition line_points : list (Coordinate Q) :=
  [mkCoordinate 19 73; mkCoordinate (19001 # 1000) (73002 # 1000);
   mkCoordinate (19002 # 1000) (73004 # 1000); mkCoordinate (19003 # 1000) (73006 # 1000)].

Lemma calculateAreaInAcres_refines_spec_witness :
  Qabs (areaT spec_square - spec_acres cos_taylor spec_square) <= (1 # 2000) /\
  exists z : Z, areaT spec_square == inject_Z z * (1 # 1000).
Proof. apply (calculateAreaInAcres_refines_spec cos_taylor spec_square). reflexivity. Defined.

Lemma calculateAreaInAcres_rotate_witness :
  areaT (rotate1 spec_square) == areaT spec_square.
Proof. apply (calculateAreaInAcres_rotate cos_taylor spec_square). reflexivity. Defined.

Lemma calculateAreaInAcres_rev_witness :
  areaT (rev spec_square) == areaT spec_square.
Proof. apply (calculateAreaInAcres_rev cos_taylor spec_square). reflexivity. Defined.

Lemma calculateAreaInAcres_length_guard_witness :
  areaT (firstn 3 spec_square) == 0.
Proof. apply (calculateAreaInAcres_length_guard cos_taylor). simpl. lia. Defined.

Lemma calculateAreaInAcres_collinear_witness : areaT line_points == 0.
Proof.
  apply (calculateAreaInAcres_collinear cos_taylor line_points 19 73 (1 # 1000) (2 # 1000)).
  - reflexivity.
  - repeat constructor;
      [exists 0 | exists 1 | exists 2 | exists 3]; split; vm_compute; reflexivity.
Defined.

Lemma calculateAreaInAcres_nonneg_witness : 0 <= areaT spec_square.
Proof.
  apply (calculateAreaInAcres_nonneg cos_taylor spec_square).
  apply Qle_bool_imp_le. vm_compute. reflexivity.
Defined.

Lemma calculateAreaInAcres_spec_case_witness : areaT spec_square == 2889 # 1000.
Proof.
  apply (calculateAreaInAcres_spec_case cos_taylor).
  split; apply Qle_bool_imp_le; vm_compute; reflexivity.
Defined.

Lemma calculateAreaInAcres_tiny_square_witness :
  0 < signed_area tiny_square /\ areaT tiny_square == 0.
Proof.
  apply (calculateAreaInAcres_tiny_square cos_taylor).
  split; apply Qle_bool_imp_le; vm_compute; reflexivity.
Defined.
