(* ===== verification/EventLoop.v ===== *)
(** * The JavaScript event loop, over a component interface

    A React Native screen reacts to two kinds of input.  The first is a
    timer callback, scheduled with [setTimeout] or as an [Animated]
    completion.  The second is an outside event: a tap, a press, a promise
    resolving, an unmount.  The class [Component] states what a component
    provides to the loop:
    - its state type;
    - its callbacks and events;
    - one handler per input kind, returning the new state, the timers to
      schedule and the external effects;
    - which events its render makes possible.

    A [World] is the clock, the timer queue, the component state and the
    log of external effects.  Timers fire by due time, and timers with the
    same due time fire in the order they were scheduled.  The loop has no
    [clearTimeout]: the screen never calls it, so nothing ever leaves the
    queue except by firing ([step_keeps_timers]).

    [step] is the loop's transition relation and [exec1] its executable
    counterpart ([exec1_step], [step_exec1]).  The generic theorems are
    about the queue: well-formedness, FIFO order among equal due times,
    the monotone clock, exact firing times and the append-only log. *)

From Stdlib Require Import List Arith NArith Lia Bool Permutation Sorted.
From S2P Require Import Prelude.
Import ListNotations.
Local Open Scope kisaan_scope.

(** What a handler returns: the next state, the [(delay, callback)] pairs
    it scheduled in order, and the external effects it performed. *)
Record Reaction (S C E : Type) := mkReaction {
  next_state : S;
  scheduled : list (N * C);
  performed : list E
}.
Arguments mkReaction {S C E} _ _ _.
Arguments next_state {S C E} _.
Arguments scheduled {S C E} _.
Arguments performed {S C E} _.

Class Component := {
  cstate : Type;
  ccallback : Type;
  cevent : Type;
  ceffect : Type;
  on_timer : ccallback -> cstate -> Reaction cstate ccallback ceffect;
  on_event : cevent -> cstate -> Reaction cstate ccallback ceffect;
  event_enabled : cevent -> cstate -> bool
}.

Section Loop.
Context `{Component}.

Record Timer := mkTimer { due : N; seqno : nat; callback : ccallback }.

Record World := mkWorld {
  now : N;
  nextSeq : nat;
  timers : list Timer;
  state : cstate;
  log : list ceffect
}.

(** [setTimeout(cb, d)] at time [t0], for each pair in order. *)
Fixpoint enqueue (t0 : N) (n : nat) (ts : list (N * ccallback)) : list Timer :=
  match ts with
  | [] => []
  | (d, cb) :: ts' => mkTimer (t0 + d)%N n cb :: enqueue t0 (S n) ts'
  end.

(** Commit a handler's reaction at the current time. *)
Definition absorb (w : World) (r : Reaction cstate ccallback ceffect) : World :=
  mkWorld (now w) (nextSeq w + length (scheduled r))
    (timers w ++ enqueue (now w) (nextSeq w) (scheduled r))
    (next_state r) (log w ++ performed r).

(** The timer that fires next: the smallest due time, and among equal
    due times the one scheduled first (queue order). *)
Fixpoint earliest (ts : list Timer) : option Timer :=
  match ts with
  | [] => None
  | t :: ts' =>
      match earliest ts' with
      | Some u => if (due u <? due t)%N then Some u else Some t
      | None => Some t
      end
  end.

Definition remove_timer (t : Timer) (ts : list Timer) : list Timer :=
  filter (fun u => negb (seqno u =? seqno t)) ts.

(** The clock jumps to the timer's due time, the timer leaves the queue,
    and its callback runs. *)
Definition fire_timer (t : Timer) (w : World) : World :=
  absorb (mkWorld (due t) (nextSeq w) (remove_timer t (timers w)) (state w) (log w))
    (on_timer (callback t) (state w)).

Definition dispatch (e : cevent) (w : World) : World := absorb w (on_event e (state w)).

Definition advance (d : N) (w : World) : World :=
  mkWorld (now w + d)%N (nextSeq w) (timers w) (state w) (log w).

Inductive step : World -> World -> Prop :=
| step_fire w t :
    earliest (timers w) = Some t -> step w (fire_timer t w)
| step_event w e :
    event_enabled e (state w) = true -> step w (dispatch e w)
| step_wait w d :
    (forall t, In t (timers w) -> (now w + d <= due t)%N) -> step w (advance d w).

(** ** The executable loop *)

Inductive Input := Fire | Event (e : cevent) | Wait (d : N).

Definition exec1 (i : Input) (w : World) : option World :=
  match i with
  | Fire => match earliest (timers w) with
            | Some t => Some (fire_timer t w)
            | None => None
            end
  | Event e => if event_enabled e (state w) then Some (dispatch e w) else None
  | Wait d => if forallb (fun t => (now w + d <=? due t)%N) (timers w)
              then Some (advance d w) else None
  end.

Fixpoint run (inputs : list Input) (w : World) : option World :=
  match inputs with
  | [] => Some w
  | i :: rest => match exec1 i w with Some w' => run rest w' | None => None end
  end.

(** Fire every pending timer, at most [fuel] of them. *)
Fixpoint drain (fuel : nat) (w : World) : World :=
  match fuel with
  | 0 => w
  | S f => match earliest (timers w) with
           | Some t => drain f (fire_timer t w)
           | None => w
           end
  end.
End Loop.

Arguments Timer : clear implicits.
Arguments World : clear implicits.
Arguments Input : clear implicits.

(** ** Theory of the loop *)

Section Theory.
Context `{Component}.

Lemma earliest_In (ts : list (Timer _)) t : earliest ts = Some t -> In t ts.
Proof.
  revert t. induction ts as [|a ts IH]; simpl; intros t E; [discriminate|].
  destruct (earliest ts) as [u|] eqn:Eu; [destruct (due u <? due a)%N|]; inv E; auto.
Qed.

(** The timer that fires has the smallest due time in the queue. *)
Lemma earliest_min (ts : list (Timer _)) t :
  earliest ts = Some t -> forall u, In u ts -> (due t <= due u)%N.
Proof.
  revert t. induction ts as [|a ts IH]; simpl; intros t E u Hu; [contradiction|].
  destruct (earliest ts) as [v|] eqn:Ev.
  - specialize (IH v eq_refl).
    destruct (N.ltb_spec (due v) (due a)); inv E; destruct Hu as [<-|Hu];
      try lia; specialize (IH u Hu); lia.
  - inv E. destruct Hu as [<-|Hu]; [lia|].
    destruct ts; [contradiction | simpl in Ev; destruct (earliest ts);
      [destruct (due _ <? due _)%N|]; discriminate].
Qed.

(** Among timers with the same due time, the one scheduled first fires
    first: every timer queued before it is due strictly later. *)
Lemma earliest_fifo (ts : list (Timer _)) t :
  earliest ts = Some t ->
  exists pre post, ts = pre ++ t :: post /\ Forall (fun u => (due t < due u)%N) pre.
Proof.
  revert t. induction ts as [|a ts IH]; simpl; intros t E; [discriminate|].
  destruct (earliest ts) as [v|] eqn:Ev.
  - destruct (N.ltb_spec (due v) (due a)) as [Hlt|Hge]; inv E.
    + destruct (IH t eq_refl) as (pre & post & -> & Hpre).
      exists (a :: pre), post. split; [reflexivity | constructor; assumption].
    + exists [], ts. split; [reflexivity | constructor].
  - inv E. exists [], ts. split; [reflexivity | constructor].
Qed.

Lemma earliest_None (ts : list (Timer _)) : earliest ts = None <-> ts = [].
Proof.
  split; [|intros ->; reflexivity].
  destruct ts as [|a ts]; simpl; [reflexivity|].
  destruct (earliest ts); [destruct (due _ <? due _)%N|]; discriminate.
Qed.

Lemma In_enqueue t0 n (ts : list (N * ccallback)) u :
  In u (enqueue t0 n ts) -> (t0 <= due u)%N /\ n <= seqno u < n + length ts.
Proof.
  revert n. induction ts as [|[d cb] ts IH]; simpl; intros n Hu; [contradiction|].
  destruct Hu as [<-|Hu]; simpl; [lia|]. specialize (IH (S n) Hu). lia.
Qed.

Lemma map_seqno_enqueue t0 n (ts : list (N * ccallback)) :
  map seqno (enqueue t0 n ts) = seq n (length ts).
Proof.
  revert n. induction ts as [|[d cb] ts IH]; simpl; intros n; [reflexivity|].
  f_equal. apply IH.
Qed.

(** Well-formed queue: nothing is overdue, sequence numbers are fresh
    and distinct. *)
Definition wf_world (w : World _) : Prop :=
  (forall t, In t (timers w) -> (now w <= due t)%N /\ seqno t < nextSeq w) /\
  NoDup (map seqno (timers w)).

Lemma absorb_wf (w : World _) r : wf_world w -> wf_world (absorb w r).
Proof.
  intros [Hts Hnd]. split; simpl.
  - intros t Ht. apply in_app_or in Ht as [Ht|Ht].
    + specialize (Hts t Ht). lia.
    + apply In_enqueue in Ht. lia.
  - rewrite map_app, map_seqno_enqueue. apply NoDup_app; [exact Hnd | apply seq_NoDup |].
    intros x Hx Hy. apply in_seq in Hy. apply in_map_iff in Hx as (u & <- & Hu).
    specialize (Hts u Hu). lia.
Qed.

Lemma In_remove_timer t u (ts : list (Timer _)) :
  In u (remove_timer t ts) <-> In u ts /\ seqno u <> seqno t.
Proof.
  unfold remove_timer. rewrite filter_In, negb_true_iff, Nat.eqb_neq. reflexivity.
Qed.

Lemma NoDup_map_filter {A B} (f : A -> B) (p : A -> bool) (l : list A) :
  NoDup (map f l) -> NoDup (map f (filter p l)).
Proof.
  induction l as [|a l IH]; simpl; intros Hnd; [constructor|]. inv Hnd.
  destruct (p a); simpl; [constructor|]; auto.
  intros Hin. apply in_map_iff in Hin as (b & Hb & Hbin). apply filter_In in Hbin.
  apply H2. rewrite <- Hb. apply in_map, Hbin.
Qed.

Lemma step_wf (w w' : World _) : step w w' -> wf_world w -> wf_world w'.
Proof.
  intros Hs [Hts Hnd]. inv Hs.
  - apply absorb_wf. split; simpl.
    + intros u Hu. apply In_remove_timer in Hu as [Hu _].
      split; [apply (earliest_min _ _ H0 u Hu) | apply Hts, Hu].
    + apply NoDup_map_filter, Hnd.
  - apply absorb_wf. split; assumption.
  - split; [|exact Hnd]. simpl. intros t Ht. split; [apply H0, Ht | apply Hts, Ht].
Qed.

(** The clock never goes back. *)
Lemma step_now_mono (w w' : World _) : wf_world w -> step w w' -> (now w <= now w')%N.
Proof.
  intros [Hts _] Hs. inv Hs; simpl; [| lia | lia].
  apply Hts, earliest_In, H0.
Qed.

Lemma NoDup_map_inj {A B} (f : A -> B) (l : list A) a b :
  NoDup (map f l) -> In a l -> In b l -> f a = f b -> a = b.
Proof.
  induction l as [|x l IH]; simpl; intros Hnd Ha Hb E; [contradiction|]. inv Hnd.
  destruct Ha as [<-|Ha], Hb as [<-|Hb]; auto;
    exfalso; apply H2; [rewrite E | rewrite <- E]; apply in_map; assumption.
Qed.

(** Nothing cancels a timer: a queued timer stays queued until the step
    that fires it. *)
Lemma step_keeps_timers (w w' : World _) u :
  wf_world w -> step w w' -> In u (timers w) ->
  In u (timers w') \/ (earliest (timers w) = Some u /\ w' = fire_timer u w).
Proof.
  intros [_ Hnd] Hs Hu. inv Hs.
  - destruct (Nat.eq_dec (seqno u) (seqno t)) as [E|E].
    + right. pose proof (NoDup_map_inj _ _ _ _ Hnd Hu (earliest_In _ _ H0) E) as <-. auto.
    + left. simpl. apply in_or_app. left. apply In_remove_timer. auto.
  - left. simpl. apply in_or_app. auto.
  - left. exact Hu.
Qed.

(** The log of external effects only grows. *)
Lemma step_log (w w' : World _) : step w w' -> exists es, log w' = log w ++ es.
Proof. intros Hs. inv Hs; simpl; eauto. exists []. rewrite app_nil_r. reflexivity. Qed.

Lemma exec1_step i (w w' : World _) : exec1 i w = Some w' -> step w w'.
Proof.
  destruct i as [|e|d]; simpl; intros E.
  - destruct (earliest (timers w)) eqn:Et; inv E. constructor. exact Et.
  - destruct (event_enabled e (state w)) eqn:En; inv E. constructor. exact En.
  - destruct (forallb _ _) eqn:Ea; inv E. constructor.
    intros t Ht. rewrite forallb_forall in Ea. apply N.leb_le, Ea, Ht.
Qed.

Lemma step_exec1 (w w' : World _) : step w w' -> exists i, exec1 i w = Some w'.
Proof.
  intros Hs. inv Hs.
  - exists Fire. simpl. rewrite H0. reflexivity.
  - exists (Event e). simpl. rewrite H0. reflexivity.
  - exists (Wait d). simpl.
    replace (forallb _ _) with true; [reflexivity|]. symmetry. apply forallb_forall.
    intros t Ht. apply N.leb_le, H0, Ht.
Qed.

Lemma run_star inputs (w w' : World _) : run inputs w = Some w' -> step^* w w'.
Proof.
  revert w. induction inputs as [|i rest IH]; simpl; intros w E.
  - inv E. apply star_refl.
  - destruct (exec1 i w) as [w1|] eqn:E1; [|discriminate].
    eapply star_step; [apply (exec1_step i _ _ E1) | apply IH, E].
Qed.

Lemma drain_star fuel (w : World _) : step^* w (drain fuel w).
Proof.
  revert w. induction fuel as [|f IH]; simpl; intros w; [apply star_refl|].
  destruct (earliest (timers w)) eqn:Et; [|apply star_refl].
  eapply star_step; [constructor; exact Et | apply IH].
Qed.

(** Well-formedness holds in every reachable world. *)
Lemma star_wf (w w' : World _) : step^* w w' -> wf_world w -> wf_world w'.
Proof. apply star_invariant. intros x y Hs Hx. exact (step_wf x y Hs Hx). Qed.
(** A weight summed over the queue: the fired timer's share leaves with
    it. *)
Lemma sum_remove_timer (f : ccallback -> nat) (t : Timer _) ts :
  NoDup (map seqno ts) -> In t ts ->
  list_sum (map f (map callback ts))
  = f (callback t) + list_sum (map f (map callback (remove_timer t ts))).
Proof.
  induction ts as [|u ts IH]; simpl; intros Hnd Hin; [contradiction|]. inv Hnd.
  unfold remove_timer in *. simpl. destruct Hin as [<-|Hin].
  - rewrite Nat.eqb_refl. simpl.
    rewrite (forallb_filter_id _ ts); [reflexivity|].
    apply forallb_forall. intros v Hv.
    destruct (Nat.eqb_spec (seqno v) (seqno u)) as [E|E]; [|reflexivity].
    exfalso. apply H2. rewrite <- E. apply in_map, Hv.
  - destruct (Nat.eqb_spec (seqno u) (seqno t)) as [E|E].
    + exfalso. apply H2. rewrite E. apply in_map, Hin.
    + simpl. rewrite (IH H3 Hin). lia.
Qed.

(** ** Termination of [drain]

    A measure that every timer firing decreases, on the worlds of an
    invariant that firing keeps, bounds the timers still to fire: [drain]
    with that much fuel empties the queue. *)
Section Termination.
Variable Inv : World _ -> Prop.
Variable measure : World _ -> nat.
Hypothesis Inv_fire :
  forall w t, Inv w -> earliest (timers w) = Some t -> Inv (fire_timer t w).
Hypothesis measure_fire :
  forall w t, Inv w -> earliest (timers w) = Some t -> measure (fire_timer t w) < measure w.

Lemma drain_empties (n : nat) (w : World _) :
  Inv w -> measure w <= n -> timers (drain n w) = [].
Proof.
  revert w. induction n as [|n IH]; intros w Hi Hm; simpl;
    destruct (earliest (timers w)) as [t|] eqn:Et; try (apply earliest_None; exact Et).
  - pose proof (measure_fire w t Hi Et). lia.
  - apply IH; [apply Inv_fire; assumption | pose proof (measure_fire w t Hi Et); lia].
Qed.
End Termination.

(** A pending callback other than the fired one stays pending. *)
Lemma In_callback_remove (t : Timer _) ts c :
  NoDup (map seqno ts) -> In t ts -> In c (map callback ts) -> c <> callback t ->
  In c (map callback (remove_timer t ts)).
Proof.
  intros Hnd Ht Hc Hne. apply in_map_iff in Hc as [u [<- Hu]]. apply in_map.
  apply In_remove_timer. split; [exact Hu|]. intros E.
  apply Hne. rewrite (NoDup_map_inj seqno ts u t Hnd Hu Ht E). reflexivity.
Qed.

(** ** The firing order, against a reference

    The order the runtime promises: timers sorted by due time, and among
    equal due times in the order they were scheduled.  [sort_by_due] is
    that order as a stable insertion sort; [earliest] is what fires
    next. *)

Fixpoint insert_by_due (t : Timer _) (l : list (Timer _)) : list (Timer _) :=
  match l with
  | [] => [t]
  | u :: l' => if (due t <=? due u)%N then t :: l else u :: insert_by_due t l'
  end.

Fixpoint sort_by_due (ts : list (Timer _)) : list (Timer _) :=
  match ts with
  | [] => []
  | t :: ts' => insert_by_due t (sort_by_due ts')
  end.

Lemma insert_by_due_perm t l : Permutation (insert_by_due t l) (t :: l).
Proof.
  induction l as [|u l IH]; simpl; [reflexivity|].
  destruct (due t <=? due u)%N; [reflexivity|].
  rewrite IH. apply perm_swap.
Qed.

Lemma sort_by_due_perm ts : Permutation (sort_by_due ts) ts.
Proof.
  induction ts as [|t ts IH]; simpl; [reflexivity|].
  rewrite insert_by_due_perm, IH. reflexivity.
Qed.

Lemma insert_by_due_sorted t l :
  Sorted (fun a b => (due a <= due b)%N) l -> Sorted (fun a b => (due a <= due b)%N) (insert_by_due t l).
Proof.
  induction 1 as [|u l Hl IH Hhd]; simpl; [repeat constructor|].
  destruct (N.leb_spec (due t) (due u)) as [Hle|Hgt]; [repeat constructor; assumption|].
  constructor; [exact IH|]. destruct l as [|v l]; simpl; [constructor; lia|].
  inv Hhd. destruct (due t <=? due v)%N; constructor; lia.
Qed.

Lemma sort_by_due_sorted ts : Sorted (fun a b => (due a <= due b)%N) (sort_by_due ts).
Proof. induction ts as [|t ts IH]; simpl; [constructor | apply insert_by_due_sorted, IH]. Qed.

(** Stability: the timers due at any given time keep their scheduling
    order. *)
Lemma insert_by_due_stable d t l :
  filter (fun u => (due u =? d)%N) (insert_by_due t l) = filter (fun u => (due u =? d)%N) (t :: l).
Proof.
  induction l as [|u l IH]; simpl; [reflexivity|].
  destruct (N.leb_spec (due t) (due u)) as [Hle|Hgt]; [reflexivity|]. simpl. rewrite IH. simpl.
  destruct (N.eqb_spec (due u) d), (N.eqb_spec (due t) d); subst; try lia; reflexivity.
Qed.

Lemma sort_by_due_stable d ts :
  filter (fun u => (due u =? d)%N) (sort_by_due ts) = filter (fun u => (due u =? d)%N) ts.
Proof.
  induction ts as [|t ts IH]; simpl; [reflexivity|].
  rewrite insert_by_due_stable. simpl. rewrite IH. reflexivity.
Qed.

(** [earliest], the loop's choice of the next timer, is the head of the
    runtime's firing order: the first timer of the queue sorted stably by
    due time. *)
Theorem earliest_is_first_in_order (ts : list (Timer _)) : earliest ts = hd_error (sort_by_due ts).
Proof.
  induction ts as [|t ts IH]; simpl; [reflexivity|]. rewrite IH.
  destruct (sort_by_due ts) as [|u l]; simpl; [reflexivity|].
  destruct (N.ltb_spec (due u) (due t)), (N.leb_spec (due t) (due u)); try lia; reflexivity.
Qed.
End Theory.

#[export] Hint Resolve run_star drain_star star_wf : kisaan.
