(* ===== verification/Screen.v ===== *)
(** * The screen component: state, handlers and callbacks

    This file models the component [FetchingLocationScreen] and its child
    [Preloader] (src/MyApp/screens/FetchingLocationScreen.jsx).

    - [Screen] holds the component's [useState] hooks (lines 118-126) and
      the Preloader's [index] hook (line 23), together with the pieces of
      runtime state the code relies on: whether the component is mounted,
      the running [Animated] timing on [messageAnim], and the number of
      pending [getUserLocation] promises.  [ghost_boundaries] is a ghost
      counter of [createBoundingBox] calls, used only by the proofs.
    - [M] is a small state monad.  It also collects the [setTimeout] and
      [Animated] completions a handler schedules, and the external effects
      it performs ([navigation.replace], [animateToRegion], [Alert.alert],
      [console.error]).  A React setter is a no-op once the component is
      unmounted.  Scheduling and external effects are not guarded that way:
      the code never checks whether it is still mounted.
    - One definition per handler and per callback closure, under its
      source name.  [runCallback] and [handleEvent] dispatch on them.
      [ScreenComponent] is the [Component] instance that the event loop
      runs.

    Animations without a completion callback (springs, the pulse loops,
    the slide and fade styles) change nothing the logic reads, so they are
    not modelled.  The [Animated] timings whose completion runs code are
    modelled as timers of their total duration (delay plus duration). *)

From Stdlib Require Import String List Arith NArith ZArith Lia Bool.
From S2P Require Import Prelude JsNumber AreaCalculator EventLoop.
Import ListNotations.

(** The words of the Preloader (lines 29-38), transliterated: Hindi,
    Telugu, Kannada, Bengali, Gujarati, Punjabi, Tamil, English. *)
Definition words : list string :=
  ["Kisan"; "Raithu"; "Raita"; "Krshok"; "Khedut"; "Kisan"; "Uzhavan"; "Farmer"]%string.

(** The analysis catalogue (lines 164-170). *)
Record AnalysisStep := mkAnalysisStep { title : string; icon : string; color : string }.

Definition analysisSteps : list AnalysisStep := [
  mkAnalysisStep "Analyzing Farm Land" "leaf-outline" "#10B981";
  mkAnalysisStep "Analyzing Soil Conditions" "earth-outline" "#8B4513";
  mkAnalysisStep "Fetching Nearby Mandi Prices" "trending-up-outline" "#F59E0B";
  mkAnalysisStep "Getting Latest Weather Updates" "partly-sunny-outline" "#3B82F6";
  mkAnalysisStep "Finalizing Personalized Insights" "analytics-outline" "#8B5CF6"]%string.

(** Timing constants, in milliseconds (lines 41-44 and 181-191). *)
Definition FADE_IN_DURATION_PRELOADER : N := 300.
Definition ENTRANCE_DELAY_PRELOADER : N := 50.
Definition DELAY_BEFORE_NEXT_WORD_PRELOADER : N := 400.
Definition SLIDE_UP_DURATION_PRELOADER : N := 600.
Definition SLIDE_UP_DELAY_PRELOADER : N := 200.
Definition LOCATION_ANIMATION_DELAY : N := 300.
Definition MAP_ZOOM_DURATION : N := 1800.
Definition DELAY_BEFORE_MESSAGE : N := 400.
Definition MESSAGE_FADE_DURATION : N := 600.
Definition DELAY_BEFORE_ANALYSIS_START : N := 2500.
Definition TIME_PER_ANALYSIS_STEP : N := 1800.
Definition DELAY_AFTER_LAST_STEP : N := 1500.

Section ScreenModel.
Context {F : Type} `{JsNumber F}.

(** A tapped point: [{ latitude, longitude, id }] (lines 321-325). *)
Record MapPoint := mkMapPoint { point_coordinate : Coordinate F; id : nat }.

#[global] Instance MapPoint_HasCoordinate : HasCoordinate MapPoint F := point_coordinate.

(** How [getUserLocation]'s awaits end (lines 223-269). *)
Inductive LocationResult :=
| PermissionDenied                     (** [status !== 'granted'] *)
| PositionFound (coords : Coordinate F) (** [getCurrentPositionAsync] resolved *)
| LocationFailed.                      (** an exception reached [catch] *)

(** The callback closures the code hands to [setTimeout] or to an
    [Animated] [start]. *)
Inductive Callback :=
| PreloaderEntranceDone (index : nat)  (** line 65 *)
| PreloaderAdvance                     (** line 67 *)
| PreloaderSlideUp                     (** line 71 *)
| PreloaderSlideDone                   (** line 77 *)
| AnimateToUser (coords : Coordinate F) (** lines 235, 252, 265 *)
| ShowSelectionMessage                 (** line 282 *)
| MessageFadeDone (serial : nat)       (** line 305 *)
| StartAnalysis                        (** line 373 *)
| AnalysisTick (index : nat)           (** line 391 *)
| NavigateToChoice.                    (** line 409 *)

(** Inputs from outside: the two touch handlers of the render, the end of
    the location promise, and the screen leaving the navigator. *)
Inductive UiEvent :=
| PressStartSelection                  (** [onPress={startPointSelection}], line 553 *)
| MapPress (coordinate : Coordinate F) (** [onPress={handleMapPress}], line 441 *)
| LocationResolved (result : LocationResult)
| Unmount.

Inductive Effect :=
| NavigationReplace (route : string)
| MapAnimateToRegion (coords : Coordinate F) (duration : N)
| PermissionAlert
| ConsoleError.

Record Screen := mkScreen {
  mounted : bool;
  showPreloader : bool;
  preloaderIndex : nat;
  userLocation : option (Coordinate F);
  selectedPoints : list MapPoint;
  boundingBox : option (list (Coordinate F));
  isSelectingPoints : bool;
  isAnalyzing : bool;
  currentAnalysisStep : nat;
  showSelectionMessage : bool;
  farmArea : option F;
  messageFade : option nat;
  animationSerial : nat;
  pendingLocation : nat;
  ghost_boundaries : nat
}.

Definition with_mounted (v : bool) (s : Screen) : Screen :=
  {| mounted := v; showPreloader := showPreloader s; preloaderIndex := preloaderIndex s;
     userLocation := userLocation s; selectedPoints := selectedPoints s; boundingBox := boundingBox s;
     isSelectingPoints := isSelectingPoints s; isAnalyzing := isAnalyzing s; currentAnalysisStep := currentAnalysisStep s;
     showSelectionMessage := showSelectionMessage s; farmArea := farmArea s; messageFade := messageFade s;
     animationSerial := animationSerial s; pendingLocation := pendingLocation s; ghost_boundaries := ghost_boundaries s |}.
Definition with_showPreloader (v : bool) (s : Screen) : Screen :=
  {| mounted := mounted s; showPreloader := v; preloaderIndex := preloaderIndex s;
     userLocation := userLocation s; selectedPoints := selectedPoints s; boundingBox := boundingBox s;
     isSelectingPoints := isSelectingPoints s; isAnalyzing := isAnalyzing s; currentAnalysisStep := currentAnalysisStep s;
     showSelectionMessage := showSelectionMessage s; farmArea := farmArea s; messageFade := messageFade s;
     animationSerial := animationSerial s; pendingLocation := pendingLocation s; ghost_boundaries := ghost_boundaries s |}.
Definition with_preloaderIndex (v : nat) (s : Screen) : Screen :=
  {| mounted := mounted s; showPreloader := showPreloader s; preloaderIndex := v;
     userLocation := userLocation s; selectedPoints := selectedPoints s; boundingBox := boundingBox s;
     isSelectingPoints := isSelectingPoints s; isAnalyzing := isAnalyzing s; currentAnalysisStep := currentAnalysisStep s;
     showSelectionMessage := showSelectionMessage s; farmArea := farmArea s; messageFade := messageFade s;
     animationSerial := animationSerial s; pendingLocation := pendingLocation s; ghost_boundaries := ghost_boundaries s |}.
Definition with_userLocation (v : option (Coordinate F)) (s : Screen) : Screen :=
  {| mounted := mounted s; showPreloader := showPreloader s; preloaderIndex := preloaderIndex s;
     userLocation := v; selectedPoints := selectedPoints s; boundingBox := boundingBox s;
     isSelectingPoints := isSelectingPoints s; isAnalyzing := isAnalyzing s; currentAnalysisStep := currentAnalysisStep s;
     showSelectionMessage := showSelectionMessage s; farmArea := farmArea s; messageFade := messageFade s;
     animationSerial := animationSerial s; pendingLocation := pendingLocation s; ghost_boundaries := ghost_boundaries s |}.
Definition with_selectedPoints (v : list MapPoint) (s : Screen) : Screen :=
  {| mounted := mounted s; showPreloader := showPreloader s; preloaderIndex := preloaderIndex s;
     userLocation := userLocation s; selectedPoints := v; boundingBox := boundingBox s;
     isSelectingPoints := isSelectingPoints s; isAnalyzing := isAnalyzing s; currentAnalysisStep := currentAnalysisStep s;
     showSelectionMessage := showSelectionMessage s; farmArea := farmArea s; messageFade := messageFade s;
     animationSerial := animationSerial s; pendingLocation := pendingLocation s; ghost_boundaries := ghost_boundaries s |}.
Definition with_boundingBox (v : option (list (Coordinate F))) (s : Screen) : Screen :=
  {| mounted := mounted s; showPreloader := showPreloader s; preloaderIndex := preloaderIndex s;
     userLocation := userLocation s; selectedPoints := selectedPoints s; boundingBox := v;
     isSelectingPoints := isSelectingPoints s; isAnalyzing := isAnalyzing s; currentAnalysisStep := currentAnalysisStep s;
     showSelectionMessage := showSelectionMessage s; farmArea := farmArea s; messageFade := messageFade s;
     animationSerial := animationSerial s; pendingLocation := pendingLocation s; ghost_boundaries := ghost_boundaries s |}.
Definition with_isSelectingPoints (v : bool) (s : Screen) : Screen :=
  {| mounted := mounted s; showPreloader := showPreloader s; preloaderIndex := preloaderIndex s;
     userLocation := userLocation s; selectedPoints := selectedPoints s; boundingBox := boundingBox s;
     isSelectingPoints := v; isAnalyzing := isAnalyzing s; currentAnalysisStep := currentAnalysisStep s;
     showSelectionMessage := showSelectionMessage s; farmArea := farmArea s; messageFade := messageFade s;
     animationSerial := animationSerial s; pendingLocation := pendingLocation s; ghost_boundaries := ghost_boundaries s |}.
Definition with_isAnalyzing (v : bool) (s : Screen) : Screen :=
  {| mounted := mounted s; showPreloader := showPreloader s; preloaderIndex := preloaderIndex s;
     userLocation := userLocation s; selectedPoints := selectedPoints s; boundingBox := boundingBox s;
     isSelectingPoints := isSelectingPoints s; isAnalyzing := v; currentAnalysisStep := currentAnalysisStep s;
     showSelectionMessage := showSelectionMessage s; farmArea := farmArea s; messageFade := messageFade s;
     animationSerial := animationSerial s; pendingLocation := pendingLocation s; ghost_boundaries := ghost_boundaries s |}.
Definition with_currentAnalysisStep (v : nat) (s : Screen) : Screen :=
  {| mounted := mounted s; showPreloader := showPreloader s; preloaderIndex := preloaderIndex s;
     userLocation := userLocation s; selectedPoints := selectedPoints s; boundingBox := boundingBox s;
     isSelectingPoints := isSelectingPoints s; isAnalyzing := isAnalyzing s; currentAnalysisStep := v;
     showSelectionMessage := showSelectionMessage s; farmArea := farmArea s; messageFade := messageFade s;
     animationSerial := animationSerial s; pendingLocation := pendingLocation s; ghost_boundaries := ghost_boundaries s |}.
Definition with_showSelectionMessage (v : bool) (s : Screen) : Screen :=
  {| mounted := mounted s; showPreloader := showPreloader s; preloaderIndex := preloaderIndex s;
     userLocation := userLocation s; selectedPoints := selectedPoints s; boundingBox := boundingBox s;
     isSelectingPoints := isSelectingPoints s; isAnalyzing := isAnalyzing s; currentAnalysisStep := currentAnalysisStep s;
     showSelectionMessage := v; farmArea := farmArea s; messageFade := messageFade s;
     animationSerial := animationSerial s; pendingLocation := pendingLocation s; ghost_boundaries := ghost_boundaries s |}.
Definition with_farmArea (v : option F) (s : Screen) : Screen :=
  {| mounted := mounted s; showPreloader := showPreloader s; preloaderIndex := preloaderIndex s;
     userLocation := userLocation s; selectedPoints := selectedPoints s; boundingBox := boundingBox s;
     isSelectingPoints := isSelectingPoints s; isAnalyzing := isAnalyzing s; currentAnalysisStep := currentAnalysisStep s;
     showSelectionMessage := showSelectionMessage s; farmArea := v; messageFade := messageFade s;
     animationSerial := animationSerial s; pendingLocation := pendingLocation s; ghost_boundaries := ghost_boundaries s |}.
Definition with_messageFade (v : option nat) (s : Screen) : Screen :=
  {| mounted := mounted s; showPreloader := showPreloader s; preloaderIndex := preloaderIndex s;
     userLocation := userLocation s; selectedPoints := selectedPoints s; boundingBox := boundingBox s;
     isSelectingPoints := isSelectingPoints s; isAnalyzing := isAnalyzing s; currentAnalysisStep := currentAnalysisStep s;
     showSelectionMessage := showSelectionMessage s; farmArea := farmArea s; messageFade := v;
     animationSerial := animationSerial s; pendingLocation := pendingLocation s; ghost_boundaries := ghost_boundaries s |}.
Definition with_animationSerial (v : nat) (s : Screen) : Screen :=
  {| mounted := mounted s; showPreloader := showPreloader s; preloaderIndex := preloaderIndex s;
     userLocation := userLocation s; selectedPoints := selectedPoints s; boundingBox := boundingBox s;
     isSelectingPoints := isSelectingPoints s; isAnalyzing := isAnalyzing s; currentAnalysisStep := currentAnalysisStep s;
     showSelectionMessage := showSelectionMessage s; farmArea := farmArea s; messageFade := messageFade s;
     animationSerial := v; pendingLocation := pendingLocation s; ghost_boundaries := ghost_boundaries s |}.
Definition with_pendingLocation (v : nat) (s : Screen) : Screen :=
  {| mounted := mounted s; showPreloader := showPreloader s; preloaderIndex := preloaderIndex s;
     userLocation := userLocation s; selectedPoints := selectedPoints s; boundingBox := boundingBox s;
     isSelectingPoints := isSelectingPoints s; isAnalyzing := isAnalyzing s; currentAnalysisStep := currentAnalysisStep s;
     showSelectionMessage := showSelectionMessage s; farmArea := farmArea s; messageFade := messageFade s;
     animationSerial := animationSerial s; pendingLocation := v; ghost_boundaries := ghost_boundaries s |}.
Definition with_ghost_boundaries (v : nat) (s : Screen) : Screen :=
  {| mounted := mounted s; showPreloader := showPreloader s; preloaderIndex := preloaderIndex s;
     userLocation := userLocation s; selectedPoints := selectedPoints s; boundingBox := boundingBox s;
     isSelectingPoints := isSelectingPoints s; isAnalyzing := isAnalyzing s; currentAnalysisStep := currentAnalysisStep s;
     showSelectionMessage := showSelectionMessage s; farmArea := farmArea s; messageFade := messageFade s;
     animationSerial := animationSerial s; pendingLocation := pendingLocation s; ghost_boundaries := v |}.

(** ** The handler monad *)

Record Outcome (A : Type) := mkOutcome {
  value : A; after : Screen; timeouts : list (N * Callback); effects : list Effect
}.
Arguments mkOutcome {A} _ _ _ _.
Arguments value {A} _.
Arguments after {A} _.
Arguments timeouts {A} _.
Arguments effects {A} _.

Definition M (A : Type) : Type := Screen -> Outcome A.

Definition ret {A} (a : A) : M A := fun s => mkOutcome a s [] [].

Definition bind {A B} (m : M A) (k : A -> M B) : M B := fun s =>
  let o1 := m s in
  let o2 := k (value o1) (after o1) in
  mkOutcome (value o2) (after o2) (timeouts o1 ++ timeouts o2) (effects o1 ++ effects o2).

Definition get : M Screen := fun s => mkOutcome s s [] [].

(** A write to runtime state (refs, promises, animations). *)
Definition modify (f : Screen -> Screen) : M unit := fun s => mkOutcome tt (f s) [] [].

(** A React [setX]: dropped once the component is unmounted. *)
Definition setState (f : Screen -> Screen) : M unit :=
  fun s => mkOutcome tt (if mounted s then f s else s) [] [].

Definition setTimeout (cb : Callback) (delay : N) : M unit :=
  fun s => mkOutcome tt s [(delay, cb)] [].

Definition perform (e : Effect) : M unit := fun s => mkOutcome tt s [] [e].
End ScreenModel.

Arguments M F A : clear implicits.
Arguments mkOutcome {F A} _ _ _ _.
Arguments value {F A} _.
Arguments after {F A} _.
Arguments timeouts {F A} _.
Arguments effects {F A} _.

Declare Scope screen_scope.
Delimit Scope screen_scope with screen.
Notation "x <- m ;; k" := (bind m (fun x => k))
  (at level 61, m at next level, right associativity) : screen_scope.
Notation "m ;; k" := (bind m (fun _ => k)) (at level 61, right associativity) : screen_scope.

Section Handlers.
Context {F : Type} `{JsNumber F}.
Local Open Scope screen_scope.

(** The state setters of [useState] (lines 23 and 118-126).  The
    Preloader's [setIndex] belongs to the child component, which is
    mounted only while [showPreloader] holds. *)
Definition setShowPreloader (v : bool) : M F unit := setState (with_showPreloader v).
Definition setIndex (v : nat) : M F unit :=
  fun s => mkOutcome tt (if mounted s && showPreloader s then with_preloaderIndex v s else s) [] [].
Definition setUserLocation (v : Coordinate F) : M F unit := setState (with_userLocation (Some v)).
Definition setSelectedPoints (v : list MapPoint) : M F unit := setState (with_selectedPoints v).
Definition setBoundingBox (v : option (list (Coordinate F))) : M F unit := setState (with_boundingBox v).
Definition setIsSelectingPoints (v : bool) : M F unit := setState (with_isSelectingPoints v).
Definition setIsAnalyzing (v : bool) : M F unit := setState (with_isAnalyzing v).
Definition setCurrentAnalysisStep (v : nat) : M F unit := setState (with_currentAnalysisStep v).
Definition setShowSelectionMessage (v : bool) : M F unit := setState (with_showSelectionMessage v).
Definition setFarmArea (v : option F) : M F unit := setState (with_farmArea v).

Fixpoint forEach {A : Type} (f : A -> M F unit) (l : list A) : M F unit :=
  match l with
  | [] => ret tt
  | x :: xs => f x ;; forEach f xs
  end.

(** *** The Preloader (lines 46-84) *)

(** The effect body run on mount and on every change of [index]: the
    entrance animation (delay 50, duration 300) and its completion. *)
Definition preloaderEffect (index : nat) : M F unit :=
  setTimeout (PreloaderEntranceDone index) (ENTRANCE_DELAY_PRELOADER + FADE_IN_DURATION_PRELOADER)%N.

Definition onPreloaderEntranceDone (index : nat) : M F unit :=
  if index <? length words - 1
  then setTimeout PreloaderAdvance DELAY_BEFORE_NEXT_WORD_PRELOADER
  else setTimeout PreloaderSlideUp DELAY_BEFORE_NEXT_WORD_PRELOADER.

(** [setIndex(prevIndex => prevIndex + 1)], then the effect re-runs for
    the new index. *)
Definition onPreloaderAdvance : M F unit :=
  s <- get ;;
  if mounted s && showPreloader s
  then setIndex (S (preloaderIndex s)) ;; preloaderEffect (S (preloaderIndex s))
  else ret tt.

Definition onPreloaderSlideUp : M F unit :=
  setTimeout PreloaderSlideDone (SLIDE_UP_DELAY_PRELOADER + SLIDE_UP_DURATION_PRELOADER)%N.

(** *** Location (lines 193-291) *)

(** Calling the async [getUserLocation]: a promise is now pending. *)
Definition getUserLocation : M F unit :=
  modify (fun s => with_pendingLocation (S (pendingLocation s)) s).

Definition handlePreloaderComplete : M F unit := setShowPreloader false ;; getUserLocation.

(** The fallback [{ latitude: 19.0760, longitude: 72.8777 }]. *)
Definition fallbackLocation : Coordinate F := mkCoordinate (js_lit 190760%Z 4) (js_lit 728777%Z 4).

(** The continuation of [getUserLocation] after its last [await]. *)
Definition locationResolved (r : LocationResult) : M F unit :=
  modify (fun s => with_pendingLocation (pred (pendingLocation s)) s) ;;
  match r with
  | PermissionDenied =>
      perform PermissionAlert ;; setUserLocation fallbackLocation ;;
      setTimeout (AnimateToUser fallbackLocation) LOCATION_ANIMATION_DELAY
  | PositionFound c =>
      setUserLocation c ;; setTimeout (AnimateToUser c) LOCATION_ANIMATION_DELAY
  | LocationFailed =>
      perform ConsoleError ;; setUserLocation fallbackLocation ;;
      setTimeout (AnimateToUser fallbackLocation) LOCATION_ANIMATION_DELAY
  end.

(** [mapRef.current] is set while the [MapView] is rendered: the
    component is mounted and the Preloader is gone. *)
Definition animateToUserLocation (c : Coordinate F) : M F unit :=
  s <- get ;;
  (if mounted s && negb (showPreloader s)
   then perform (MapAnimateToRegion c MAP_ZOOM_DURATION) else ret tt) ;;
  setTimeout ShowSelectionMessage (MAP_ZOOM_DURATION + DELAY_BEFORE_MESSAGE)%N.

(** *** [messageAnim] *)

(** The completion callback of the fade in [startPointSelection]
    (lines 305-314); the spring it starts is visual only. *)
Definition messageFadeCallback : M F unit := setShowSelectionMessage false.

(** Starting an animation on [messageAnim] stops the running one, and a
    stopped timing calls its completion callback at once
    ([{finished: false}], which the callback ignores). *)
Definition stopMessageAnimation : M F unit :=
  s <- get ;;
  match messageFade s with
  | Some _ => modify (with_messageFade None) ;; messageFadeCallback
  | None => ret tt
  end.

(** The timer callback at line 282: show the prompt, spring it in. *)
Definition onShowSelectionMessage : M F unit :=
  setShowSelectionMessage true ;; stopMessageAnimation.

(** [Animated.timing(messageAnim, {duration: 600}).start(callback)]. *)
Definition startMessageFade : M F unit :=
  stopMessageAnimation ;;
  s <- get ;;
  modify (fun s' => with_messageFade (Some (animationSerial s))
                      (with_animationSerial (S (animationSerial s)) s')) ;;
  setTimeout (MessageFadeDone (animationSerial s)) MESSAGE_FADE_DURATION.

(** The fade ran to its end, unless it was stopped and its callback has
    already run. *)
Definition onMessageFadeDone (serial : nat) : M F unit :=
  s <- get ;;
  match messageFade s with
  | Some g => if g =? serial then modify (with_messageFade None) ;; messageFadeCallback
              else ret tt
  | None => ret tt
  end.

(** *** Selection and analysis (lines 294-415) *)

Definition startPointSelection : M F unit :=
  setIsSelectingPoints true ;;
  setSelectedPoints [] ;;
  setBoundingBox None ;;
  setFarmArea None ;;
  startMessageFade.

(** [analysisSteps.forEach((step, index) => setTimeout(..., (index + 1) * 1800))] *)
Definition startAnalysis : M F unit :=
  setIsAnalyzing true ;;
  setCurrentAnalysisStep 0 ;;
  forEach (fun index => setTimeout (AnalysisTick index) (N.of_nat (index + 1) * TIME_PER_ANALYSIS_STEP)%N)
    (seq 0 (List.length analysisSteps)).

(** The boundary polygon is [points[0..3]] in tap order.  The ghost
    counter records the call. *)
Definition createBoundingBox (points : list MapPoint) : M F unit :=
  setBoundingBox (Some (map point_coordinate (firstn 4 points))) ;;
  setIsSelectingPoints false ;;
  setFarmArea (Some (calculateAreaInAcres points)) ;;
  modify (fun s => with_ghost_boundaries (S (ghost_boundaries s)) s) ;;
  setTimeout StartAnalysis DELAY_BEFORE_ANALYSIS_START.

Definition handleMapPress (c : Coordinate F) : M F unit :=
  s <- get ;;
  if negb (isSelectingPoints s) || (4 <=? List.length (selectedPoints s)) then ret tt
  else
    let newPoint := mkMapPoint c (List.length (selectedPoints s) + 1) in
    let updatedPoints := selectedPoints s ++ [newPoint] in
    setSelectedPoints updatedPoints ;;
    if List.length updatedPoints =? 4 then createBoundingBox updatedPoints else ret tt.

(** The step timer of [index] (lines 391-413). *)
Definition onAnalysisTick (index : nat) : M F unit :=
  setCurrentAnalysisStep index ;;
  if index =? List.length analysisSteps - 1
  then setTimeout NavigateToChoice DELAY_AFTER_LAST_STEP
  else ret tt.

Definition onNavigateToChoice : M F unit := perform (NavigationReplace "ChoiceScreen").

(** *** Dispatch *)

Definition runCallback (cb : Callback) : M F unit :=
  match cb with
  | PreloaderEntranceDone index => onPreloaderEntranceDone index
  | PreloaderAdvance => onPreloaderAdvance
  | PreloaderSlideUp => onPreloaderSlideUp
  | PreloaderSlideDone => handlePreloaderComplete
  | AnimateToUser c => animateToUserLocation c
  | ShowSelectionMessage => onShowSelectionMessage
  | MessageFadeDone serial => onMessageFadeDone serial
  | StartAnalysis => startAnalysis
  | AnalysisTick index => onAnalysisTick index
  | NavigateToChoice => onNavigateToChoice
  end.

Definition handleEvent (e : UiEvent) : M F unit :=
  match e with
  | PressStartSelection => startPointSelection
  | MapPress c => handleMapPress c
  | LocationResolved r => locationResolved r
  | Unmount => modify (with_mounted false)
  end.

(** The conditional parts of the render.  The Preloader is shown while
    [showPreloader] holds (lines 421-423), and the [MapView] with its
    [onPress] once it is gone (lines 425-441). *)
Definition mapRendered (s : @Screen F) : bool := negb (showPreloader s).

(** The selection prompt with the "Start Selection" button (lines
    519-560). *)
Definition startButtonRendered (s : @Screen F) : bool := showSelectionMessage s.

(** The analysis overlay (lines 629-636): absolute, full-screen, zIndex
    2000 (lines 956-963), so it takes every touch meant for the map. *)
Definition analysisOverlayRendered (s : @Screen F) : bool := isAnalyzing s.

(** What the render lets the user do, and when the location promise can
    settle. *)
Definition eventEnabled (e : @UiEvent F) (s : @Screen F) : bool :=
  match e with
  | PressStartSelection => mounted s && mapRendered s && startButtonRendered s
  | MapPress _ => mounted s && mapRendered s && negb (analysisOverlayRendered s)
  | LocationResolved _ => 0 <? pendingLocation s
  | Unmount => mounted s
  end.

Definition react (m : M F unit) (s : @Screen F) : Reaction (@Screen F) (@Callback F) (@Effect F) :=
  let o := m s in mkReaction (after o) (timeouts o) (effects o).

#[global] Instance ScreenComponent : Component := {|
  cstate := @Screen F; ccallback := @Callback F; cevent := @UiEvent F; ceffect := @Effect F;
  on_timer cb := react (runCallback cb);
  on_event e := react (handleEvent e);
  event_enabled := eventEnabled
|}.

(** The first render: all hooks at their initial values (lines 23 and
    118-126), and the Preloader's effect for index 0. *)
Definition initialScreen : @Screen F := {|
  mounted := true; showPreloader := true; preloaderIndex := 0; userLocation := None;
  selectedPoints := []; boundingBox := None; isSelectingPoints := false;
  isAnalyzing := false; currentAnalysisStep := 0; showSelectionMessage := false;
  farmArea := None; messageFade := None; animationSerial := 0; pendingLocation := 0;
  ghost_boundaries := 0 |}.

Definition mountScreen : World ScreenComponent :=
  absorb (mkWorld 0 0 [] initialScreen []) (react (preloaderEffect 0) initialScreen).
End Handlers.
