(* ===== verification/Pulse.v ===== *)
(** * The pulse animations of the tapped points

    FetchingLocationScreen.jsx keeps one [Animated.Value] per tapped point
    in [pointPulseAnims], a [useRef([])] array that lives as long as the
    component (line 137).  The effect at lines 139-160 runs after every
    change of [selectedPoints]: for each index it creates a value and
    starts an endless [Animated.loop] on it, unless the slot already holds
    one.  The array is never cleared, so values survive a restarted
    selection.

    The model keeps the array as JavaScript holds it, a list of slots
    ([None] a hole), writes into it with JavaScript's array assignment
    ([js_array_set]: replace in range, extend past the end), and records
    the values whose loop was started.  Each [Animated.Value] is named by
    a serial number.

    Theorem: over any history of selections, the loops started are
    exactly one per slot, and the slots are the indices up to the largest
    selection seen: the guard [!pointPulseAnims[index]] keeps a value from
    being looped twice, and every point the map renders (line 455) has
    its value from the first effect after it appears. *)

From Stdlib Require Import List Arith Lia.
From S2P Require Import Prelude JsNumber Screen.
Import ListNotations.

Section Pulse.
Context {F : Type} `{JsNumber F}.

(** [pointPulseAnims] and the loops started on its values. *)
Record PulseRef := mkPulseRef {
  anims : list (option nat);
  loops : list nat;
  nextValue : nat
}.

(** [useRef([])]. *)
Definition initialPulseRef : PulseRef := mkPulseRef [] [] 0.

(** [a[i] = v] on a JavaScript array: past the end, the array grows and
    the slots between are holes. *)
Definition js_array_set {A : Type} (l : list (option A)) (i : nat) (v : A) : list (option A) :=
  if i <? length l then firstn i l ++ Some v :: skipn (S i) l
  else l ++ repeat None (i - length l) ++ [Some v].

(** The body of the [forEach] (lines 141-158). *)
Definition pulseStep (r : PulseRef) (index : nat) : PulseRef :=
  match nth_error (anims r) index with
  | Some (Some _) => r
  | _ =>
      let v := nextValue r in
      mkPulseRef (js_array_set (anims r) index v) (loops r ++ [v]) (S v)
  end.

(** The effect of lines 139-160, for the current [selectedPoints]. *)
Definition pulseEffect (points : list (@MapPoint F)) (r : PulseRef) : PulseRef :=
  fold_left pulseStep (seq 0 (length points)) r.

(** The effect run once per selection the screen rendered, in order. *)
Definition pulseHistory (history : list (list (@MapPoint F))) : PulseRef :=
  fold_left (fun r points => pulseEffect points r) history initialPulseRef.

(** The array holds values [0..n-1], one per slot, each looped once. *)
Definition pulse_inv (n : nat) (r : PulseRef) : Prop :=
  anims r = map Some (seq 0 n) /\ loops r = seq 0 n /\ nextValue r = n.

Lemma js_array_set_end {A : Type} (l : list (option A)) i (v : A) :
  i = length l -> js_array_set l i v = l ++ [Some v].
Proof. intros ->. unfold js_array_set. rewrite Nat.ltb_irrefl, Nat.sub_diag. reflexivity. Qed.

Lemma nth_error_seq_Some n i : i < n -> nth_error (map Some (seq 0 n)) i = Some (Some i).
Proof. intros Hi. rewrite nth_error_map, nth_error_seq, (proj2 (Nat.ltb_lt i n) Hi). reflexivity. Qed.

Lemma pulseStep_inv n r i : pulse_inv n r -> i <= n -> pulse_inv (Nat.max n (S i)) (pulseStep r i).
Proof.
  intros (Ha & Hl & Hn) Hi. unfold pulseStep. rewrite Ha.
  destruct (Nat.eq_dec i n) as [->|Hne].
  - assert (Hlen : length (map Some (seq 0 n)) = n) by (rewrite length_map, length_seq; reflexivity).
    rewrite (proj2 (nth_error_None _ _)) by lia.
    rewrite Nat.max_r by lia. unfold pulse_inv. cbn [anims loops nextValue].
    rewrite js_array_set_end by (symmetry; exact Hlen).
    rewrite Hl, Hn, seq_S, map_app. repeat split; reflexivity.
  - rewrite nth_error_seq_Some by lia. rewrite Nat.max_l by lia. split; auto.
Qed.

Lemma pulseEffect_seq_inv n r k :
  pulse_inv n r -> pulse_inv (Nat.max n k) (fold_left pulseStep (seq 0 k) r).
Proof.
  intros Hr. induction k as [|k IH]; [rewrite Nat.max_0_r; exact Hr|].
  rewrite seq_S, fold_left_app. simpl.
  replace (Nat.max n (S k)) with (Nat.max (Nat.max n k) (S k)) by lia.
  apply pulseStep_inv; [exact IH | lia].
Qed.

Lemma pulseEffect_inv n r points :
  pulse_inv n r -> pulse_inv (Nat.max n (length points)) (pulseEffect points r).
Proof. apply pulseEffect_seq_inv. Qed.

(** After any history of selections, the array holds one value per index
    up to the largest selection seen. *)
Lemma pulseHistory_inv (history : list (list (@MapPoint F))) :
  pulse_inv (list_max (map (@length _) history)) (pulseHistory history).
Proof.
  unfold pulseHistory.
  assert (Hgen : forall n r, pulse_inv n r ->
            pulse_inv (Nat.max n (list_max (map (@length _) history)))
              (fold_left (fun r points => pulseEffect points r) history r)).
  { induction history as [|pts hist IH]; intros n r Hr; simpl; [rewrite Nat.max_0_r; exact Hr|].
    replace (Nat.max n (Nat.max (length pts) (list_max (map (@length _) hist))))
      with (Nat.max (Nat.max n (length pts)) (list_max (map (@length _) hist))) by lia.
    apply IH, pulseEffect_inv, Hr. }
  exact (Hgen 0 initialPulseRef ltac:(repeat split)).
Qed.

(** C22: over any history of selections, [pointPulseAnims] holds the
    values [0 .. m-1] with no hole, where [m] is the largest number of
    points ever selected, and exactly one [Animated.loop] was started per
    value, each once.  In particular every point of the current selection
    has its pulse value, and restarting the selection starts no new loop
    until it grows past [m]. *)
Theorem pulse_loops_once (history : list (list (@MapPoint F))) :
  let m := list_max (map (@length _) history) in
  anims (pulseHistory history) = map Some (seq 0 m) /\ loops (pulseHistory history) = seq 0 m.
Proof. cbv zeta. destruct (pulseHistory_inv history) as (Ha & Hl & _). auto. Qed.

End Pulse.
