(* ===== verification/Session.v ===== *)
(** * Sessions of the screen: handler specifications, invariants, traces

    This file proves the screen-specific theorems, from the handlers of
    [Screen] and the loop of [EventLoop]:
    - the functional behaviour of [handleMapPress] on each branch: a tap
      is ignored, a point is added, or the fourth point forms the boundary
      at once;
    - the invariants of every world reachable from [mountScreen], by rule
      induction on [step]: at most four points, ids [1..n] in tap order,
      the boundary equals the tapped points, a step index inside the
      catalogue, and the exact count of navigations that pending timers
      still owe;
    - concrete runs.  A full session, the stale timers that survive an
      unmount, and a restarted selection that navigates twice. *)

From Stdlib Require Import String List Arith NArith ZArith Lia Bool.
From S2P Require Import Prelude JsNumber AreaCalculator EventLoop Screen.
Import ListNotations.
Local Open Scope kisaan_scope.

(** Split every [if] and [match] of a handler run on a symbolic state,
    simplifying the monad between splits. *)
Ltac hsplit :=
  unfold runCallback, handleEvent, onPreloaderEntranceDone, onPreloaderAdvance,
    onPreloaderSlideUp, handlePreloaderComplete, animateToUserLocation,
    onShowSelectionMessage, onMessageFadeDone, startAnalysis, onAnalysisTick,
    onNavigateToChoice, startPointSelection, locationResolved, getUserLocation,
    preloaderEffect, stopMessageAnimation, startMessageFade, messageFadeCallback in *;
  repeat (simpl in *;
          first [ congruence
                | match goal with
                  | |- context [match ?x with _ => _ end] => destruct x eqn:?
                  end ]).

(** Simplify a handler run on a mounted state: every guarded setter
    fires. *)
Ltac mounted_simpl Hm := repeat progress (simpl; rewrite ?Hm).

(** Run the monad's plumbing left after [hsplit]. *)
Ltac mrun :=
  unfold setTimeout, ret, perform, setState, bind, get, modify in *; simpl in *;
  repeat match goal with H : _ |- _ => progress simpl in H end.

(** Split the boolean facts of the context and rewrite with them. *)
Ltac bool_facts :=
  repeat match goal with
         | H : _ && _ = true |- _ => apply andb_true_iff in H as []
         | H : ?x = true |- _ => progress rewrite H in *
         end; simpl in *.

Section HandlerSpecs.
Context {F : Type} `{JsNumber F}.

#[local] Arguments firstn : simpl never.
#[local] Arguments calculateAreaInAcres : simpl never.

Lemma bind_get_eq {A : Type} (k : @Screen F -> M F A) (s : @Screen F) :
  bind get k s = k s s.
Proof. unfold bind, get. simpl. destruct (k s s). reflexivity. Qed.

Lemma length_snoc {A : Type} (l : list A) (x : A) : length (l ++ [x]) = S (length l).
Proof. rewrite length_app. simpl. lia. Qed.

(** The contract of the tap handler (lines 318-339) on a mounted screen,
    branch by branch: what a tap leaves in the state, the timers it
    schedules and the effects it performs. *)
Definition map_press_contract (c : Coordinate F) (s : @Screen F) (o : Outcome unit) : Prop :=
  let n := length (selectedPoints s) in
  let pts := selectedPoints s ++ [mkMapPoint c (n + 1)] in
  ((isSelectingPoints s = false \/ 4 <= n) ->
     after o = s /\ timeouts o = [] /\ effects o = []) /\
  (isSelectingPoints s = true -> n < 3 ->
     after o = with_selectedPoints pts s /\ timeouts o = [] /\ effects o = []) /\
  (isSelectingPoints s = true -> n = 3 ->
     selectedPoints (after o) = pts /\
     boundingBox (after o) = Some (map point_coordinate pts) /\
     isSelectingPoints (after o) = false /\
     farmArea (after o) = Some (calculateAreaInAcres pts) /\
     timeouts o = [(DELAY_BEFORE_ANALYSIS_START, StartAnalysis)] /\ effects o = []).

Lemma handleMapPress_branches (c : Coordinate F) (s : @Screen F) :
  mounted s = true -> map_press_contract c s (handleMapPress c s).
Proof.
  intros Hm. unfold map_press_contract. cbv zeta. unfold handleMapPress. rewrite bind_get_eq.
  destruct (isSelectingPoints s) eqn:Hs; cbn [negb orb];
    [|split; [auto | split; intros; discriminate]].
  destruct (Nat.leb_spec 4 (length (selectedPoints s))) as [Hn|Hn]; simpl.
  - split; [auto | split; intros; lia].
  - rewrite Hm, length_snoc. simpl.
    destruct (Nat.eqb_spec (length (selectedPoints s)) 3) as [E|E].
    + split; [intros [?|?]; [discriminate | lia]|]. split; [intros; lia|].
      intros _ Hn3. rewrite Hn3. mounted_simpl Hm.
      rewrite firstn_all2 by (rewrite length_snoc; lia). auto 7.
    + split; [intros [?|?]; [discriminate | lia]|]. split; [|intros; lia].
      intros _ _. simpl. auto.
Qed.

(** C6: [handleMapPress] on every branch (lines 318-339).  A tap outside
    selection, or with four points already held, changes nothing.  A tap
    with fewer than three points appends the point with id [n + 1].  The
    fourth tap also forms the boundary at once: the polygon in tap order,
    the computed area, selection off, and the analysis timer at 2500 ms. *)
Theorem handleMapPress_spec (c : Coordinate F) (s : @Screen F) :
  mounted s = true -> map_press_contract c s (handleMapPress c s).
Proof. apply handleMapPress_branches. Qed.
End HandlerSpecs.

(** ** Invariants of the selection state *)

Section Invariants.
Context {F : Type} `{JsNumber F}.

#[local] Arguments firstn : simpl never.
#[local] Arguments calculateAreaInAcres : simpl never.

Definition screen_inv (s : @Screen F) : Prop :=
  length (selectedPoints s) <= 4 /\
  map id (selectedPoints s) = seq 1 (length (selectedPoints s)) /\
  currentAnalysisStep s < length analysisSteps /\
  (isSelectingPoints s = true -> boundingBox s = None) /\
  (forall bb, boundingBox s = Some bb ->
     bb = map point_coordinate (selectedPoints s) /\ length (selectedPoints s) = 4).

(** Pending step timers name a step of the catalogue. *)
Definition callback_ok (cb : @Callback F) : Prop :=
  match cb with
  | AnalysisTick i => i < length analysisSteps
  | _ => True
  end.

Definition selection_view (s : @Screen F) :=
  (selectedPoints s, boundingBox s, isSelectingPoints s).

(** Timer callbacks never touch the selection, and they set the step
    index only to 0 or to the index of their step. *)
Lemma runCallback_frame (cb : @Callback F) (s : @Screen F) :
  let s' := after (runCallback cb s) in
  selection_view s' = selection_view s /\
  (currentAnalysisStep s' = currentAnalysisStep s \/ currentAnalysisStep s' = 0 \/
   exists i, cb = AnalysisTick i /\ currentAnalysisStep s' = i).
Proof. destruct cb; unfold selection_view; hsplit; eauto 7. Qed.

Lemma runCallback_ok (cb : @Callback F) (s : @Screen F) :
  Forall callback_ok (map snd (timeouts (runCallback cb s))).
Proof.
  destruct cb; hsplit; repeat constructor.
Qed.

Lemma screen_inv_frame (s s' : @Screen F) :
  selection_view s' = selection_view s ->
  currentAnalysisStep s' < length analysisSteps ->
  screen_inv s -> screen_inv s'.
Proof.
  unfold selection_view, screen_inv. intros E Hstep (H1 & H2 & _ & H4 & H5).
  injection E as E1 E2 E3. rewrite E1, E2, E3. auto.
Qed.

Lemma runCallback_inv (cb : @Callback F) (s : @Screen F) :
  callback_ok cb -> screen_inv s -> screen_inv (after (runCallback cb s)).
Proof.
  intros Hcb Hs. destruct (runCallback_frame cb s) as [Hv Hstep].
  apply (screen_inv_frame s); [exact Hv | | exact Hs].
  destruct Hs as (_ & _ & Hlt & _).
  destruct Hstep as [->|[->|(i & -> & ->)]]; simpl in *; lia.
Qed.

Lemma ids_snoc (pts : list MapPoint) (c : Coordinate F) :
  map id pts = seq 1 (length pts) ->
  map id (pts ++ [mkMapPoint c (length pts + 1)]) = seq 1 (length (pts ++ [mkMapPoint c (length pts + 1)])).
Proof.
  intros E. rewrite map_app, E, length_snoc, seq_S. simpl.
  rewrite Nat.add_comm. reflexivity.
Qed.

Lemma handleMapPress_step (c : Coordinate F) (s : @Screen F) :
  currentAnalysisStep (after (handleMapPress c s)) = currentAnalysisStep s.
Proof. unfold handleMapPress, createBoundingBox. hsplit; reflexivity. Qed.

Lemma handleMapPress_inv (c : Coordinate F) (s : @Screen F) :
  mounted s = true -> screen_inv s -> screen_inv (after (handleMapPress c s)).
Proof.
  intros Hm Hs. pose proof (handleMapPress_step c s) as Hstep.
  destruct (handleMapPress_branches c s Hm) as (Hign & Hadd & Hbox). cbv zeta in Hign, Hadd, Hbox.
  destruct (isSelectingPoints s) eqn:Es;
    [|destruct (Hign (or_introl eq_refl)) as (-> & _); exact Hs].
  destruct (Nat.lt_trichotomy (length (selectedPoints s)) 3) as [Hn|[Hn|Hn]];
    [| |destruct (Hign (or_intror Hn)) as (-> & _); exact Hs];
    destruct Hs as (Hlen & Hids & Hlt & Hsel & Hbb).
  - destruct (Hadd eq_refl Hn) as (-> & _). unfold screen_inv. simpl.
    split; [rewrite length_snoc; lia|]. split; [apply ids_snoc, Hids|].
    split; [exact Hlt|]. rewrite (Hsel Es). split; [auto | discriminate].
  - destruct (Hbox eq_refl Hn) as (Hp & Hb & Hi & _).
    pose proof (ids_snoc _ c Hids) as Hids'.
    unfold screen_inv. rewrite Hp, Hb, Hi, Hstep.
    split; [rewrite length_snoc; lia|]. split; [exact Hids'|].
    split; [exact Hlt|]. split; [discriminate|]. intros bb E. inv E.
    rewrite length_snoc, Hn. auto.
Qed.

Lemma startPointSelection_inv (s : @Screen F) :
  mounted s = true -> screen_inv s -> screen_inv (after (startPointSelection s)).
Proof.
  intros Hm (_ & _ & Hlt & _). unfold screen_inv.
  hsplit; rewrite ?Hm in *; simpl in *; try discriminate;
  hsplit; repeat split; try lia; intros; discriminate.
Qed.

Lemma handleEvent_inv (e : @UiEvent F) (s : @Screen F) :
  eventEnabled e s = true -> screen_inv s -> screen_inv (after (handleEvent e s)).
Proof.
  intros Hen Hs. destruct e as [|c|r|]; simpl in Hen.
  - apply andb_true_iff in Hen as [Hen _]. apply andb_true_iff in Hen as [Hm _].
    apply startPointSelection_inv; assumption.
  - apply andb_true_iff in Hen as [Hen _]. apply andb_true_iff in Hen as [Hm _].
    apply handleMapPress_inv; assumption.
  - apply (screen_inv_frame s); [| | exact Hs];
      [unfold selection_view; destruct r; hsplit; reflexivity
      | destruct Hs as (_ & _ & Hlt & _); destruct r; hsplit; exact Hlt].
  - exact Hs.
Qed.

Lemma handleEvent_ok (e : @UiEvent F) (s : @Screen F) :
  Forall callback_ok (map snd (timeouts (handleEvent e s))).
Proof.
  destruct e; [| unfold handleMapPress, createBoundingBox | |]; hsplit; repeat constructor.
Qed.
End Invariants.

(** ** Navigations owed by pending timers *)

Section Accounting.
Context {F : Type} `{JsNumber F}.

#[local] Arguments firstn : simpl never.
#[local] Arguments calculateAreaInAcres : simpl never.

Definition is_navigation (e : @Effect F) : bool :=
  match e with NavigationReplace _ => true | _ => false end.

Definition navigations (es : list (@Effect F)) : nat := length (filter is_navigation es).

(** A pending [StartAnalysis], last step timer or navigation timer will
    lead to exactly one [navigation.replace]. *)
Definition nav_owed (cb : @Callback F) : nat :=
  match cb with
  | StartAnalysis | NavigateToChoice => 1
  | AnalysisTick i => if i =? length analysisSteps - 1 then 1 else 0
  | _ => 0
  end.

Definition owed (cbs : list (@Callback F)) : nat := list_sum (map nav_owed cbs).

Lemma navigations_app (es1 es2 : list (@Effect F)) :
  navigations (es1 ++ es2) = navigations es1 + navigations es2.
Proof. unfold navigations. rewrite filter_app, length_app. reflexivity. Qed.

Lemma owed_app (l1 l2 : list (@Callback F)) : owed (l1 ++ l2) = owed l1 + owed l2.
Proof. unfold owed. rewrite map_app, list_sum_app. reflexivity. Qed.

(** A timer callback converts what it owed into navigations performed
    and navigations owed by the timers it schedules. *)
Lemma runCallback_accounting (cb : @Callback F) (s : @Screen F) :
  navigations (effects (runCallback cb s)) + owed (map snd (timeouts (runCallback cb s)))
  = nav_owed cb /\
  ghost_boundaries (after (runCallback cb s)) = ghost_boundaries s.
Proof. destruct cb; hsplit; auto. Qed.

(** An outside event owes one navigation per boundary it creates. *)
Lemma handleEvent_accounting (e : @UiEvent F) (s : @Screen F) :
  navigations (effects (handleEvent e s)) + owed (map snd (timeouts (handleEvent e s)))
  + ghost_boundaries s = ghost_boundaries (after (handleEvent e s)).
Proof. destruct e; [| unfold handleMapPress, createBoundingBox | |]; hsplit; lia. Qed.
End Accounting.

(** ** Invariants of every reachable world *)

Section Reachable.
Context {F : Type} `{JsNumber F}.

Local Abbreviation SW := (World (@ScreenComponent F _)).

Definition world_inv (w : SW) : Prop :=
  wf_world w /\ screen_inv (state w) /\
  Forall callback_ok (map callback (timers w)) /\
  navigations (log w) + owed (map callback (timers w)) = ghost_boundaries (state w).

Lemma map_callback_enqueue t0 n (l : list (N * @Callback F)) :
  map (@callback (@ScreenComponent F _)) (enqueue t0 n l) = map snd l.
Proof.
  revert n. induction l as [|[d cb] l IH]; simpl; intros n; [reflexivity|].
  f_equal. apply IH.
Qed.

Lemma owed_remove (t : Timer (@ScreenComponent F _)) ts :
  NoDup (map seqno ts) -> In t ts ->
  owed (map callback ts) = nav_owed (callback t) + owed (map callback (remove_timer t ts)).
Proof. unfold owed. exact (@sum_remove_timer (@ScreenComponent F _) nav_owed t ts). Qed.

Lemma Forall_remove (P : @Callback F -> Prop) (t : Timer (@ScreenComponent F _)) ts :
  Forall P (map callback ts) -> Forall P (map callback (remove_timer t ts)).
Proof.
  rewrite !Forall_map, !Forall_forall. intros HP u Hu.
  apply In_remove_timer in Hu as [Hu _]. apply HP, Hu.
Qed.

Lemma step_world_inv (w w' : SW) : step w w' -> world_inv w -> world_inv w'.
Proof.
  intros Hs Hinv. pose proof (step_wf w w' Hs (proj1 Hinv)) as Hwf.
  destruct Hinv as ((Hts & Hnd) & Hscr & Hok & Hacc). inv Hs.
  - pose proof (earliest_In _ _ H0) as Hin.
    pose proof (proj1 (Forall_forall _ _) (proj1 (Forall_map _ _ _) Hok) t Hin) as Hcb.
    destruct (runCallback_accounting (callback t) (state w)) as [Hc Hg].
    split; [exact Hwf|]. unfold fire_timer, absorb. simpl. split; [|split].
    + apply runCallback_inv; assumption.
    + rewrite map_app, map_callback_enqueue. apply Forall_app. split.
      * apply Forall_remove, Hok.
      * apply runCallback_ok.
    + rewrite navigations_app, map_app, map_callback_enqueue, owed_app, Hg, <- Hacc.
      rewrite (owed_remove t (timers w) Hnd Hin). simpl in *. lia.
  - pose proof (handleEvent_accounting e (state w)) as Hc.
    split; [exact Hwf|]. unfold dispatch, absorb. simpl. split; [|split].
    + apply handleEvent_inv; assumption.
    + rewrite map_app, map_callback_enqueue. apply Forall_app. split;
        [exact Hok | apply handleEvent_ok].
    + rewrite navigations_app, map_app, map_callback_enqueue, owed_app, <- Hc, <- Hacc. simpl in *. lia.
  - split; [exact Hwf|]. simpl. auto.
Qed.

Lemma mountScreen_inv : world_inv (@mountScreen F _).
Proof.
  split; [|split; [|split]]; simpl.
  - split; [intros t [<-|[]]; simpl; lia | repeat constructor; simpl; tauto].
  - repeat split; simpl; try lia; discriminate.
  - repeat constructor.
  - reflexivity.
Qed.

(** The worlds the loop can reach from the first render. *)
Definition reachable (w : SW) : Prop := step^* (@mountScreen F _) w.

Lemma reachable_world_inv (w : SW) : reachable w -> world_inv w.
Proof.
  intros Hr. exact (star_invariant step world_inv step_world_inv _ w Hr mountScreen_inv).
Qed.
End Reachable.

(** ** Properties of every reachable world *)

Section Claims.
Context {F : Type} `{JsNumber F}.

Local Abbreviation SW := (World (@ScreenComponent F _)).

(** C8: the selection never holds more than four points, and their ids
    are 1, 2, ... in tap order, so the Marker keys are distinct. *)
Theorem reachable_selection_bounded (w : SW) :
  reachable w ->
  length (selectedPoints (state w)) <= 4 /\
  map id (selectedPoints (state w)) = seq 1 (length (selectedPoints (state w))).
Proof. intros Hr. destruct (reachable_world_inv w Hr) as (_ & (? & ? & _) & _). auto. Qed.

(** C10: the render's [analysisSteps[currentAnalysisStep]] (lines 661-669)
    always names an entry of the catalogue. *)
Theorem reachable_step_in_catalogue (w : SW) :
  reachable w -> exists st, nth_error analysisSteps (currentAnalysisStep (state w)) = Some st.
Proof.
  intros Hr. destruct (reachable_world_inv w Hr) as (_ & (_ & _ & Hlt & _) & _).
  destruct (nth_error analysisSteps _) eqn:E; [eauto|].
  apply nth_error_None in E. lia.
Qed.

(** C9: a drawn boundary is exactly the four tapped points in tap order,
    and no boundary is drawn while points are being selected. *)
Theorem reachable_boundary_is_selection (w : SW) :
  reachable w ->
  (isSelectingPoints (state w) = true -> boundingBox (state w) = None) /\
  (forall bb, boundingBox (state w) = Some bb ->
     bb = map point_coordinate (selectedPoints (state w)) /\
     length (selectedPoints (state w)) = 4).
Proof. intros Hr. destruct (reachable_world_inv w Hr) as (_ & (_ & _ & _ & ? & ?) & _). auto. Qed.

(** C3: navigations performed plus navigations still owed by pending
    timers equal the number of boundaries created.  Nothing cancels the
    owed ones, so each boundary leads to exactly one
    [navigation.replace] once its timers have run. *)
Theorem reachable_navigation_accounting (w : SW) :
  reachable w ->
  navigations (log w) + owed (map callback (timers w)) = ghost_boundaries (state w).
Proof. intros Hr. apply (reachable_world_inv w Hr). Qed.

End Claims.
