(* ===== verification/Selection.v ===== *)
(** * A sequence of taps against a closed-form selection

    [handleMapPress] (FetchingLocationScreen.jsx, lines 318-339) builds
    the boundary one tap at a time.  This file folds the handler over a
    list of taps made after "Start Selection" ([press_all]) and proves it
    equal to a closed form, [selection_ref]: the first four taps, numbered
    1 to 4 in tap order; the boundary in tap order and the computed area
    once there are four; selection still on while there are fewer.
    Timer callbacks leave the points, the boundary and the selection flag
    alone ([Session.runCallback_frame]), which is why a fold of the tap
    handler alone describes them. *)

From Stdlib Require Import String List Arith NArith ZArith Lia Bool.
From S2P Require Import Prelude JsNumber AreaCalculator EventLoop Screen Session.
Import ListNotations.
Local Open Scope kisaan_scope.

Section Selection.
Context {F : Type} `{JsNumber F}.

#[local] Arguments firstn : simpl never.
#[local] Arguments calculateAreaInAcres : simpl never.

(** The points of taps [cs], with ids from [n] on. *)
Fixpoint number_from (n : nat) (cs : list (Coordinate F)) : list MapPoint :=
  match cs with
  | [] => []
  | c :: cs' => mkMapPoint c n :: number_from (S n) cs'
  end.

(** Taps delivered one after the other. *)
Fixpoint press_all (cs : list (Coordinate F)) (s : @Screen F) : @Screen F :=
  match cs with
  | [] => s
  | c :: cs' => press_all cs' (after (handleMapPress c s))
  end.

Definition selection_result (s : @Screen F) :=
  (selectedPoints s, boundingBox s, isSelectingPoints s, farmArea s).

(** What a selection of the taps [pts] (at most four) shows. *)
Definition selection_ref (pts : list (Coordinate F)) :=
  let full := length pts =? 4 in
  (number_from 1 pts, (if full then Some pts else None), negb full,
   (if full then Some (calculateAreaInAcres (number_from 1 pts)) else None)).

Lemma number_from_length n cs : length (number_from n cs) = length cs.
Proof. revert n. induction cs; simpl; auto. Qed.

Lemma number_from_snoc n cs c :
  number_from n (cs ++ [c]) = number_from n cs ++ [mkMapPoint c (n + length cs)].
Proof.
  revert n. induction cs as [|c' cs IH]; intros n; simpl; [rewrite Nat.add_0_r; reflexivity|].
  rewrite IH, Nat.add_succ_r. reflexivity.
Qed.

Lemma number_from_coordinates n cs : map point_coordinate (number_from n cs) = cs.
Proof. revert n. induction cs as [|c cs IH]; intros n; simpl; [reflexivity | rewrite IH; reflexivity]. Qed.

Lemma firstn_firstn_app {A : Type} n (l m : list A) : firstn n (firstn n l ++ m) = firstn n (l ++ m).
Proof.
  revert l. induction n as [|n IH]; intros l; [reflexivity|].
  destruct l as [|x l]; [reflexivity|]. cbn [app]. rewrite !firstn_cons. cbn [app]. rewrite firstn_cons, IH. reflexivity.
Qed.

Lemma handleMapPress_mounted (c : Coordinate F) (s : @Screen F) :
  mounted (after (handleMapPress c s)) = mounted s.
Proof. unfold handleMapPress, createBoundingBox. hsplit; reflexivity. Qed.

Lemma startPointSelection_result (s : @Screen F) :
  mounted s = true ->
  mounted (after (startPointSelection s)) = true /\
  selection_result (after (startPointSelection s)) = selection_ref [].
Proof. intros Hm. unfold selection_result. hsplit; mrun; rewrite ?Hm in *; simpl in *; auto. Qed.

(** One tap moves the selection from [pts] to the first four of
    [pts ++ [c]]. *)
Lemma handleMapPress_ref (c : Coordinate F) (s : @Screen F) pts :
  length pts <= 4 -> mounted s = true -> selection_result s = selection_ref pts ->
  selection_result (after (handleMapPress c s)) = selection_ref (firstn 4 (pts ++ [c])).
Proof.
  intros Hlen Hm E. unfold selection_result, selection_ref in E.
  injection E as Ep Eb Es Ef.
  destruct (handleMapPress_branches c s Hm) as (Hign & Hadd & Hbox). cbv zeta in Hign, Hadd, Hbox.
  rewrite Ep, number_from_length in Hign, Hadd, Hbox.
  destruct (Nat.lt_trichotomy (length pts) 3) as [Hn|[Hn|Hn]].
  - rewrite firstn_all2 by (rewrite length_app; simpl; lia).
    assert (Hs : isSelectingPoints s = true)
      by (rewrite Es; destruct (Nat.eqb_spec (length pts) 4); [lia | reflexivity]).
    destruct (Hadd Hs Hn) as (-> & _). unfold selection_result, selection_ref. simpl.
    rewrite ?Ep, ?Eb, ?Es, ?Ef, number_from_snoc, ?number_from_length, length_app. simpl.
    destruct (Nat.eqb_spec (length pts) 4), (Nat.eqb_spec (length pts + 1) 4); try lia. rewrite Nat.add_1_r. reflexivity.
  - rewrite firstn_all2 by (rewrite length_app; simpl; lia).
    assert (Hs : isSelectingPoints s = true) by (rewrite Es, Hn; reflexivity).
    destruct (Hbox Hs Hn) as (Hp & Hb & Hi & Hf & _). unfold selection_result, selection_ref.
    rewrite Hp, Hb, Hi, Hf, map_app, number_from_coordinates, number_from_snoc, length_app, Hn.
    reflexivity.
  - assert (Hn4 : length pts = 4) by lia.
    rewrite firstn_app, firstn_all2, Hn4, Nat.sub_diag, firstn_O, app_nil_r by lia.
    assert (Hs : isSelectingPoints s = false) by (rewrite Es, Hn4; reflexivity).
    destruct (Hign (or_introl Hs)) as (-> & _). unfold selection_result, selection_ref.
    rewrite Ep, Eb, Es, Ef. reflexivity.
Qed.

Lemma press_all_ref cs (s : @Screen F) pts :
  length pts <= 4 -> mounted s = true -> selection_result s = selection_ref pts ->
  selection_result (press_all cs s) = selection_ref (firstn 4 (pts ++ cs)).
Proof.
  revert s pts. induction cs as [|c cs IH]; intros s pts Hlen Hm E; cbn [press_all].
  - rewrite app_nil_r, firstn_all2 by lia. exact E.
  - rewrite IH with (pts := firstn 4 (pts ++ [c])).
    + rewrite firstn_firstn_app, <- app_assoc. reflexivity.
    + rewrite length_firstn. lia.
    + rewrite handleMapPress_mounted. exact Hm.
    + apply handleMapPress_ref; assumption.
Qed.

(** C19: equivalence of the incremental handler with the closed form.
    After "Start Selection" on a mounted screen, any sequence of taps
    leaves exactly [selection_ref] of its first four taps: the points
    numbered 1 to 4 in tap order, and once there are four, the boundary
    in tap order, selection off and the computed area; later taps are
    ignored. *)
Theorem taps_after_start_match_reference (s : @Screen F) cs :
  mounted s = true ->
  selection_result (press_all cs (after (startPointSelection s))) = selection_ref (firstn 4 cs).
Proof.
  intros Hm. destruct (startPointSelection_result s Hm) as [Hm' E].
  exact (press_all_ref cs _ [] ltac:(simpl; lia) Hm' E).
Qed.

End Selection.
