(* ===== verification/Render.v ===== *)
(** * What the screen renders

    The JSX of [FetchingLocationScreen] (lines 417-700) decides, from the
    state, which parts of the screen exist and what data they show.
    [render] translates those decisions: the Preloader or the map; the
    map's initial region; one marker per selected point (key [point.id],
    title ["Point " + id]); the boundary polygon; the area overlay; the
    selection prompt; the tap instructions ([4 - n] more, [n/4]); the
    boundary message; and the analysis overlay with the current step and
    the progress dots.  Styles, gradients, icons and animated values are
    not part of the model.

    JavaScript's [&&] returns its first falsy operand, and React renders
    what it returns: nothing for [null], [undefined] and [false], but a
    number or a string as text.  React Native accepts raw text only inside
    [<Text>]; elsewhere rendering throws.  The area overlay is
    [{boundingBox && farmArea && (...)}] (line 477), a direct child of the
    screen's view: an area that rounds to [0] is rendered as a raw [0]
    ([RawNumber]), and the screen throws.

    Theorem: in every reachable world the instructions ask for between 1
    and 4 more points (an invariant proved by rule induction: while
    selecting, fewer than four points are held).  [Traces] runs a plot
    whose area rounds to [0] and whose render throws. *)

From Stdlib Require Import String List Arith ZArith Lia Bool.
From S2P Require Import Prelude AppConfig JsNumber AreaCalculator EventLoop Screen Session Selection.
Import ListNotations.
Local Open Scope kisaan_scope.

Section Render.
Context {F : Type} `{JsNumber F}.

Local Abbreviation SW := (World (@ScreenComponent F _)).

(** [INDIA_CENTER] (lines 173-178); the deltas only set the zoom. *)
Definition INDIA_CENTER : Coordinate F := mkCoordinate (js_lit 205937 4) (js_lit 789629 4).

(** A [<Marker>] of [selectedPoints.map] (lines 443-463). *)
Record Marker := mkMarker {
  marker_key : nat;
  marker_coordinate : Coordinate F;
  marker_title : string;
  marker_label : nat
}.

Definition marker_of (p : @MapPoint F) : Marker :=
  mkMarker (id p) (point_coordinate p) ("Point " ++ index_key (id p))%string (id p).

(** What [{boundingBox && farmArea && (<overlay/>)}] renders. *)
Inductive AreaChild :=
| NoArea                (** [null]: nothing *)
| RawNumber (x : F)     (** a falsy number, rendered as raw text *)
| AreaOverlay (x : F).  (** the overlay showing [{farmArea}] acres *)

Definition area_child (bb : option (list (Coordinate F))) (fa : option F) : AreaChild :=
  match bb with
  | None => NoArea
  | Some _ => match fa with
              | None => NoArea
              | Some x => if js_truthy x then AreaOverlay x else RawNumber x
              end
  end.

(** The analysis overlay (lines 629-700): the current step, read as
    [analysisSteps[currentAnalysisStep]] ([None] when out of range,
    where reading [.color] throws), and for each step whether its dot is
    completed ([index <= currentAnalysisStep]) and checked
    ([index < currentAnalysisStep]). *)
Definition analysis_view (current : nat) : option AnalysisStep * list (bool * bool) :=
  (nth_error analysisSteps current,
   map (fun index => (index <=? current, index <? current)) (seq 0 (length analysisSteps))).

(** The tap instructions (lines 563-595): [Tap {4 - n} more point(s)]
    and the counter [{n}/4], while [isSelectingPoints]. *)
Definition instructions_view (s : @Screen F) : option (Z * nat) :=
  if isSelectingPoints s
  then Some ((4 - Z.of_nat (length (selectedPoints s)))%Z, length (selectedPoints s))
  else None.

(** [{boundingBox && !isAnalyzing && (...)}] (lines 598-626), showing
    [Area: {farmArea} acres] inside [<Text>]. *)
Definition boundary_message_view (s : @Screen F) : option (option F) :=
  match boundingBox s with
  | Some _ => if isAnalyzing s then None else Some (farmArea s)
  | None => None
  end.

(** [{isAnalyzing && (...)}] (lines 629-700). *)
Definition analysis_overlay (s : @Screen F) : option (option AnalysisStep * list (bool * bool)) :=
  if isAnalyzing s then Some (analysis_view (currentAnalysisStep s)) else None.

Record MainView := mkMainView {
  initial_region : Coordinate F;
  markers : list Marker;
  polygon : option (list (Coordinate F));
  area : AreaChild;
  selection_prompt : bool;
  instructions : option (Z * nat);
  boundary_message : option (option F);
  analysis : option (option AnalysisStep * list (bool * bool))
}.

(** [{showPreloader && <Preloader/>}] and [{!showPreloader && (<>...</>)}]. *)
Definition render (s : @Screen F) : bool * option MainView :=
  (showPreloader s,
   if showPreloader s then None
   else Some {|
     initial_region := match userLocation s with Some c => c | None => INDIA_CENTER end;
     markers := map marker_of (selectedPoints s);
     polygon := boundingBox s;
     area := area_child (boundingBox s) (farmArea s);
     selection_prompt := showSelectionMessage s;
     instructions := instructions_view s;
     boundary_message := boundary_message_view s;
     analysis := analysis_overlay s
   |}).

(** The render throws: a raw number outside [<Text>], or a step read out
    of range. *)
Definition render_throws (s : @Screen F) : bool :=
  match snd (render s) with
  | None => false
  | Some mv =>
      match area mv with RawNumber _ => true | _ => false end ||
      match analysis mv with Some (None, _) => true | _ => false end
  end.

(** While selecting, fewer than four points are held. *)
Definition selecting_inv (s : @Screen F) : Prop :=
  isSelectingPoints s = true -> length (selectedPoints s) < 4.

Lemma selecting_inv_view (s s' : @Screen F) :
  selection_view s' = selection_view s -> selecting_inv s -> selecting_inv s'.
Proof.
  unfold selection_view, selecting_inv. intros E. injection E as E1 _ E3. rewrite E1, E3. auto.
Qed.

Lemma handleEvent_selecting (e : @UiEvent F) (s : @Screen F) :
  eventEnabled e s = true -> selecting_inv s -> selecting_inv (after (handleEvent e s)).
Proof.
  intros Hen Hs. destruct e as [|c|r|]; simpl in Hen.
  - change (handleEvent PressStartSelection s) with (startPointSelection s). apply andb_true_iff in Hen as [Hen _]. apply andb_true_iff in Hen as [Hm _].
    destruct (startPointSelection_result s Hm) as [_ E].
    assert (Ep : selectedPoints (after (startPointSelection s)) = [])
      by exact (f_equal (fun r => fst (fst (fst r))) E).
    unfold selecting_inv. rewrite Ep. simpl. lia.
  - change (handleEvent (MapPress c) s) with (handleMapPress c s).
    apply andb_true_iff in Hen as [Hen _]. apply andb_true_iff in Hen as [Hm _].
    destruct (handleMapPress_branches c s Hm) as (Hign & Hadd & Hbox). cbv zeta in Hign, Hadd, Hbox.
    destruct (isSelectingPoints s) eqn:Es; [|destruct (Hign (or_introl eq_refl)) as (-> & _); exact Hs].
    destruct (Nat.lt_trichotomy (length (selectedPoints s)) 3) as [Hn|[Hn|Hn]].
    + destruct (Hadd eq_refl Hn) as (-> & _). unfold selecting_inv. simpl. rewrite length_snoc. lia.
    + destruct (Hbox eq_refl Hn) as (_ & _ & Hi & _). unfold selecting_inv. rewrite Hi. discriminate.
    + specialize (Hs Es). lia.
  - apply (selecting_inv_view s); [|exact Hs]. unfold selection_view. destruct r; hsplit; reflexivity.
  - exact Hs.
Qed.

Lemma step_selecting (w w' : SW) : step w w' -> selecting_inv (state w) -> selecting_inv (state w').
Proof.
  intros Hs Hi. inv Hs.
  - apply (selecting_inv_view (state w)); [apply runCallback_frame | exact Hi].
  - apply handleEvent_selecting; assumption.
  - exact Hi.
Qed.

(** C23: the tap instructions count down correctly.  In every reachable
    world where they are shown ([isSelectingPoints], line 563), the
    counter [n/4] has [n <= 3] and the text asks for [4 - n] more points,
    between 1 and 4: never "0 more" or a negative count. *)
Theorem reachable_instructions_in_range (w : SW) :
  reachable w ->
  match snd (render (state w)) with
  | Some mv => match instructions mv with
               | Some (more, n) => n <= 3 /\ (1 <= more <= 4)%Z /\ more = (4 - Z.of_nat n)%Z
               | None => True
               end
  | None => True
  end.
Proof.
  intros Hr. assert (Hsel : selecting_inv (state w)).
  { apply (star_invariant step (fun w0 : SW => selecting_inv (state w0)) step_selecting _ w Hr).
    unfold selecting_inv. simpl. lia. }
  unfold render. destruct (showPreloader (state w)); [exact I|]. cbn [snd instructions].
  unfold instructions_view. destruct (isSelectingPoints (state w)) eqn:E; [|exact I]. specialize (Hsel E). lia.
Qed.

End Render.
