(* ===== verification/Theme.v ===== *)
(** * The theme the screen reads

    The colours come from a React context: [const { theme, isDark } =
    useTheme();] (line 127).  The context provider is not part of the
    repository, so the context value is an input of the model, a
    JSON-like [Value] of [AppConfig].  The file translates how the code
    reads it:
    - the destructuring of line 127, which throws on [null] or
      [undefined];
    - the root of the screen (lines 418-419), which reads
      [theme.colors.background] and [theme.colors.statusBarStyle] without
      [?.], and throws when [theme] or [theme.colors] is [null] or
      [undefined];
    - the Preloader (lines 92, 96, 107), which reads
      [theme?.colors?.background || '#000'] and the like, never throws,
      and falls back to its defaults.
    A thrown [TypeError] is [None], in the option monad.

    Theorem: in every state of the screen, the Preloader phase included,
    rendering throws exactly when the context, [theme] or [theme.colors]
    is [null] or [undefined].  The root reads [theme.colors] before the
    Preloader is rendered, so the Preloader's guards against a missing
    theme never take effect; only its fallbacks for missing colour
    fields do. *)

From Stdlib Require Import String List Bool.
From S2P Require Import Prelude AppConfig JsNumber Screen.
Import ListNotations.
Local Open Scope string_scope.

(** ** Reads that may throw *)

Definition nullish (v : Value) : bool :=
  match v with VUndefined | VNull => true | _ => false end.

(** [v.k]: a [TypeError] on [null] and [undefined]. *)
Definition read (v : Value) (k : string) : option Value :=
  if nullish v then None else Some (AppConfig.get v k).

Definition obind {A B : Type} (m : option A) (f : A -> option B) : option B :=
  match m with Some a => f a | None => None end.


(** [const { theme, isDark } = useTheme();] *)
Definition use_theme (context : Value) : option (Value * Value) :=
  if nullish context then None else Some (AppConfig.get context "theme", AppConfig.get context "isDark").

(** The Preloader's colours (lines 92, 96 and 107). *)
Definition preloader_theme (theme : Value) : Value * Value * Value :=
  let colors := opt_get theme "colors" in
  (js_or (opt_get colors "background") (VStr "#000"),
   js_or (opt_get colors "statusBarStyle") (VStr "light-content"),
   js_or (opt_get colors "primary") (VStr "#10B981")).

(** [<SafeAreaView style={... theme.colors.background}>] and
    [<StatusBar barStyle={theme.colors.statusBarStyle}
    backgroundColor={theme.colors.background} />] (lines 418-419). *)
Definition root_theme (theme : Value) : option (Value * Value) :=
  obind (read theme "colors") (fun colors =>
  obind (read colors "background") (fun background =>
  obind (read colors "statusBarStyle") (fun barStyle =>
  obind (read colors "background") (fun _ =>
  Some (background, barStyle))))).

(** The theme reads of one render of the screen: the hook, the root,
    then the Preloader's colours while it is shown. *)
Definition screen_theme {F : Type} `{JsNumber F} (context : Value) (s : @Screen F)
  : option (Value * Value * option (Value * Value * Value)) :=
  obind (use_theme context) (fun hook =>
  obind (root_theme (fst hook)) (fun root =>
  Some (root, if showPreloader s then Some (preloader_theme (fst hook)) else None))).

Lemma read_None v k : read v k = None <-> nullish v = true.
Proof. unfold read. destruct (nullish v); split; congruence. Qed.

Lemma obind_None {A B : Type} (m : option A) (f : A -> option B) :
  obind m f = None <-> m = None \/ exists a, m = Some a /\ f a = None.
Proof. destruct m as [a|]; simpl; split; eauto; intros [?|(b & E & ?)]; [discriminate | inv E; auto]. Qed.

Lemma root_theme_None theme :
  root_theme theme = None <-> nullish theme = true \/ nullish (AppConfig.get theme "colors") = true.
Proof.
  unfold root_theme, read. destruct (nullish theme); simpl; [tauto|].
  destruct (nullish (AppConfig.get theme "colors")); simpl; split; auto; try discriminate.
  intros [H|H]; discriminate.
Qed.

(** The Preloader's reads never throw, and on a theme without colours
    give its defaults. *)
Lemma preloader_theme_defaults theme :
  nullish (AppConfig.get theme "colors") = true ->
  preloader_theme theme = (VStr "#000", VStr "light-content", VStr "#10B981").
Proof.
  unfold preloader_theme. cbv zeta. rewrite !opt_get_get.
  destruct (AppConfig.get theme "colors"); try discriminate; reflexivity.
Qed.

(** C24: rendering the screen throws exactly when the theme context,
    [theme] or [theme.colors] is [null] or [undefined], in every state,
    the Preloader phase included: the root reads [theme.colors] without
    [?.] before the Preloader, whose guards are then never reached. *)
Theorem screen_theme_throws {F : Type} `{JsNumber F} (context : Value) (s : @Screen F) :
  screen_theme context s = None <->
  nullish context = true \/ nullish (AppConfig.get context "theme") = true \/
  nullish (AppConfig.get (AppConfig.get context "theme") "colors") = true.
Proof.
  unfold screen_theme, use_theme. destruct (nullish context) eqn:Ec; simpl; [tauto|].
  rewrite obind_None, root_theme_None. cbn [fst].
  split; [intros [Hn|(r & E & Hn)]; [auto | discriminate] |].
  intros [Hn|Hn]; [discriminate|]. left. exact Hn.
Qed.
