(* ===== verification/Binary64.v ===== *)
(** * The calculator in binary64 arithmetic

    JavaScript numbers are IEEE 754 binary64 values.  [B64] is the
    [JsNumber] instance over Rocq's primitive floats, so that
    [calculateAreaInAcres] (written once, in [AreaCalculator]) runs here
    with the arithmetic of the device:
    - [+ - * /] and [Math.abs] are the primitive, correctly rounded
      operations;
    - a literal [m * 10^-k] is the double nearest to it, the quotient of
      two exactly representable integers (as the JavaScript parser
      reads [4046.86]);
    - [Math.round] is exact: the nearest integer, ties toward +infinity,
      computed from the float's mantissa and exponent ([floor_Z]), not as
      [floor(x + 0.5)], which rounds [0.49999999999999994] up;
    - [Math.PI] is the literal [3.141592653589793];
    - [Math.cos] is implementation-approximated in ECMAScript; [cos_f] is
      one implementation (a Taylor polynomial, accurate on the latitudes
      of India);
    - a number is truthy unless it is [0], [-0] or [NaN].

    Theorems: the spec's square gives the double nearest to 2.889, as in
    the exact model; and the 1.1 m square gives exactly [0], so the area
    overlay renders a raw [0] with the device's arithmetic too. *)

From Stdlib Require Import Floats ZArith List.
From S2P Require Import Prelude JsNumber AreaCalculator Render.
Import ListNotations.
Local Open Scope float_scope.
#[local] Set Warnings "-inexact-float".

(** An integer as a double (exact below [2^53]). *)
Definition float_of_Z (z : Z) : float :=
  if (z <? 0)%Z then PrimFloat.opp (PrimFloat.of_uint63 (Uint63.of_Z (- z)))
  else PrimFloat.of_uint63 (Uint63.of_Z z).

(** The floor of a finite double, from its mantissa and exponent. *)
Definition floor_Z (x : float) : Z :=
  match Prim2SF x with
  | S754_finite s m e =>
      if (0 <=? e)%Z then (if s then - (Z.pos m * 2 ^ e) else Z.pos m * 2 ^ e)%Z
      else let q := Z.shiftr (Z.pos m) (- e) in
           if s then (if (Z.shiftl q (- e) =? Z.pos m)%Z then - q else - q - 1)%Z else q
  | _ => 0%Z
  end.

(** [Math.round]: integral doubles are returned as they are; otherwise
    the floor [r], plus one when [x - r] (exact) is at least one half. *)
Definition round_js (x : float) : float :=
  match Prim2SF x with
  | S754_finite _ _ e =>
      if (0 <=? e)%Z then x
      else let r := float_of_Z (floor_Z x) in
           if 0.5 <=? (x - r) then r + 1 else r
  | _ => x
  end.

(** One implementation of [Math.cos]. *)
Definition cos_f (x : float) : float :=
  let x2 := x * x in
  1 - x2 / 2 * (1 - x2 / 12 * (1 - x2 / 30 * (1 - x2 / 56 * (1 - x2 / 90 *
    (1 - x2 / 132 * (1 - x2 / 182 * (1 - x2 / 240))))))).

#[local] Instance B64 : JsNumber float := {|
  js_add := PrimFloat.add; js_sub := PrimFloat.sub; js_mul := PrimFloat.mul;
  js_div := PrimFloat.div; js_abs := PrimFloat.abs; js_cos := cos_f; js_round := round_js;
  js_pi := 3.141592653589793;
  js_lit := fun m k => PrimFloat.div (float_of_Z m) (float_of_Z (10 ^ Z.of_nat k));
  js_truthy := fun x => andb (negb (PrimFloat.eqb x 0)) (PrimFloat.eqb x x)
|}.

(** A tap at the decimal coordinates [la * 10^-ka], [lo * 10^-ko]. *)
Definition tap_at (la : Z) (ka : nat) (lo : Z) (ko : nat) : Coordinate float :=
  mkCoordinate (js_lit la ka) (js_lit lo ko).

(** The spec's square of 0.001 degree at (19 N, 73 E), and the square of
    0.00001 degree (about 1.1 m a side) at the same place. *)
Definition spec_square_f : list (Coordinate float) :=
  [tap_at 19 0 73 0; tap_at 19 0 73001 3; tap_at 19001 3 73001 3; tap_at 19001 3 73 0].

Definition tiny_square_f : list (Coordinate float) :=
  [tap_at 19 0 73 0; tap_at 19 0 7300001 5; tap_at 1900001 5 7300001 5; tap_at 1900001 5 73 0].

(** With binary64 arithmetic the spec's square (section 8) gives
    2.889 acres, the double nearest to 2.889, as the exact model does
    ([calculateAreaInAcres_spec_case]); [Math.round] absorbs the rounding
    errors of the loop. *)
Example binary64_spec_case : calculateAreaInAcres spec_square_f = 2.889.
Proof. vm_compute. reflexivity. Qed.

(** With binary64 arithmetic a 1.1 m square (about 1.2 square
    metres, 0.00029 acre) gives exactly [0]: [0] is falsy, and the area
    overlay [boundingBox && farmArea && (...)] renders a raw [0] outside
    [<Text>].  The crash of [Traces.tiny_plot_render_throws] is not an
    artefact of exact arithmetic. *)
Example binary64_tiny_plot_raw_zero :
  PrimFloat.ltb 0 (areaInAcres tiny_square_f) = true /\
  calculateAreaInAcres tiny_square_f = 0 /\
  area_child (Some tiny_square_f) (Some (calculateAreaInAcres tiny_square_f)) = RawNumber 0.
Proof. vm_compute. split; [reflexivity|]. split; reflexivity. Qed.
