(* ===== verification/Liveness.v ===== *)
(** * Liveness: the screen's timers run out

    Every callback the screen schedules schedules finitely many more: the
    Preloader's chain stops at the last word, the analysis schedules five
    step timers and one navigation, and the other callbacks schedule at
    most one timer that schedules nothing.  [potential s cb] bounds the
    firings a pending [cb] still causes in state [s], itself included,
    and [timer_load w] sums it over the queue.  Firing a timer lowers the
    load ([fire_lowers_load]), so [drain (timer_load w) w] empties the
    queue ([drain_empties] of [EventLoop]).  With the accounting of
    [Session], every boundary the user formed has then been followed by
    exactly one [navigation.replace]. *)

From Stdlib Require Import String List Arith NArith ZArith Lia Bool.
From S2P Require Import Prelude JsNumber AreaCalculator EventLoop Screen Session.
Import ListNotations.
Local Open Scope kisaan_scope.

Section Potential.
Context {F : Type} `{JsNumber F}.

Local Abbreviation SW := (World (@ScreenComponent F _)).

(** The Preloader's child is mounted and its [setIndex] takes effect. *)
Definition preloader_active (s : @Screen F) : bool := mounted s && showPreloader s.

(** Firings left after a [PreloaderAdvance] at index [k]: itself, an
    entrance and an advance per word still to come, then the last
    entrance, the slide-up and the slide-done timers. *)
Definition advance_chain (k : nat) : nat := 4 + 2 * (length words - 1 - S k).

Lemma advance_chain_ge (k : nat) : 4 <= advance_chain k.
Proof. unfold advance_chain. lia. Qed.

Lemma advance_chain_next (k : nat) :
  S k < length words - 1 -> 1 + advance_chain (S k) < advance_chain k.
Proof. unfold advance_chain. lia. Qed.

Lemma advance_chain_anti (k k' : nat) : k <= k' -> advance_chain k' <= advance_chain k.
Proof. unfold advance_chain. lia. Qed.

#[local] Opaque advance_chain.

Definition advance_potential (s : @Screen F) : nat :=
  if preloader_active s then advance_chain (preloaderIndex s) else 1.

Definition potential (s : @Screen F) (cb : @Callback F) : nat :=
  match cb with
  | PreloaderEntranceDone j => 1 + (if j <? length words - 1 then advance_potential s else 2)
  | PreloaderAdvance => advance_potential s
  | PreloaderSlideUp => 2
  | PreloaderSlideDone => 1
  | AnimateToUser _ => 2
  | ShowSelectionMessage => 1
  | MessageFadeDone _ => 1
  | StartAnalysis => 2 + length analysisSteps
  | AnalysisTick i => if i =? length analysisSteps - 1 then 2 else 1
  | NavigateToChoice => 1
  end.

Definition timer_load (w : SW) : nat :=
  list_sum (map (potential (state w)) (map callback (timers w))).

Lemma list_sum_map_le {A : Type} (f g : A -> nat) (l : list A) :
  (forall x, f x <= g x) -> list_sum (map f l) <= list_sum (map g l).
Proof. intros Hfg. induction l as [|x l IH]; simpl; [lia | specialize (Hfg x); lia]. Qed.

(** A timer callback keeps [mounted], only ever hides the Preloader, and
    only ever moves its index forward. *)
Lemma runCallback_preloader (cb : @Callback F) (s : @Screen F) :
  let s' := after (runCallback cb s) in
  (preloader_active s' = true -> preloader_active s = true) /\
  preloaderIndex s <= preloaderIndex s'.
Proof.
  unfold preloader_active.
  destruct cb; hsplit; mrun; split; try lia; intros Ha; bool_facts; congruence.
Qed.

Lemma advance_potential_mono (cb : @Callback F) (s : @Screen F) :
  advance_potential (after (runCallback cb s)) <= advance_potential s.
Proof.
  destruct (runCallback_preloader cb s) as [Ha Hi]. unfold advance_potential.
  pose proof (advance_chain_ge (preloaderIndex s)).
  destruct (preloader_active (after (runCallback cb s))) eqn:E;
    [rewrite (Ha eq_refl); apply advance_chain_anti, Hi | destruct (preloader_active s); lia].
Qed.

(** Running one callback never raises the potential of another. *)
Lemma potential_mono (cb cb' : @Callback F) (s : @Screen F) :
  potential (after (runCallback cb s)) cb' <= potential s cb'.
Proof.
  pose proof (advance_potential_mono cb s).
  destruct cb'; simpl; try lia. destruct (_ <? _); lia.
Qed.

(** What a callback schedules carries less potential than it had. *)
Lemma runCallback_potential (cb : @Callback F) (s : @Screen F) :
  list_sum (map (potential (after (runCallback cb s))) (map snd (timeouts (runCallback cb s))))
  < potential s cb.
Proof.
  pose proof (advance_chain_ge (preloaderIndex s)).
  pose proof (advance_chain_next (preloaderIndex s)).
  destruct cb; hsplit; mrun; unfold advance_potential, preloader_active in *;
    simpl in *; try lia; bool_facts;
    repeat match goal with |- context [if ?c then _ else _] => destruct c eqn:? end;
    simpl in *; try congruence;
    repeat match goal with H : (_ <? _) = _ |- _ =>
             first [apply Nat.ltb_lt in H | apply Nat.ltb_ge in H] end; lia.
Qed.

(** Firing the next timer lowers the load. *)
Lemma fire_lowers_load (w : SW) t :
  wf_world w -> earliest (timers w) = Some t -> timer_load (fire_timer t w) < timer_load w.
Proof.
  intros [_ Hnd] Et. unfold timer_load, fire_timer, absorb. cbn [state timers].
  rewrite map_app, map_callback_enqueue, map_app, list_sum_app.
  pose proof (@sum_remove_timer (@ScreenComponent F _) (potential (state w)) t (timers w)
                Hnd (earliest_In _ _ Et)).
  pose proof (runCallback_potential (callback t) (state w)).
  pose proof (list_sum_map_le _ _ (map callback (remove_timer t (timers w)))
                (fun cb => potential_mono (callback t) cb (state w))).
  simpl in *. lia.
Qed.

(** Timer callbacks create no boundaries. *)
Lemma drain_ghost (n : nat) (w : SW) :
  ghost_boundaries (state (drain n w)) = ghost_boundaries (state w).
Proof.
  revert w. induction n as [|n IH]; intros w; simpl; [reflexivity|].
  destruct (earliest (timers w)); [|reflexivity].
  rewrite IH. apply (runCallback_accounting _ (state w)).
Qed.

Lemma drain_load_empties (w : SW) : wf_world w -> timers (drain (timer_load w) w) = [].
Proof.
  intros Hwf. apply (drain_empties wf_world timer_load); [| | exact Hwf | lia].
  - intros w' t Hw' Et. exact (step_wf _ _ (step_fire w' t Et) Hw').
  - intros w' t Hw' Et. exact (fire_lowers_load w' t Hw' Et).
Qed.

(** C4: liveness of the analysis.  From every reachable world, letting
    the pending timers run (at most [timer_load w] of them, with no
    further input) empties the queue, and the screen has then called
    [navigation.replace] exactly once for each boundary formed so far. *)
Theorem reachable_timers_drain (w : SW) :
  reachable w ->
  let w' := drain (timer_load w) w in
  timers w' = [] /\ step^* w w' /\ navigations (log w') = ghost_boundaries (state w).
Proof.
  intros Hr. cbv zeta.
  pose proof (reachable_world_inv w Hr) as [Hwf _].
  pose proof (drain_load_empties w Hwf) as Hempty.
  split; [exact Hempty|]. split; [apply drain_star|].
  destruct (reachable_world_inv _ (star_trans _ _ _ _ Hr (drain_star (timer_load w) w)))
    as (_ & _ & _ & Hacc).
  rewrite Hempty, drain_ghost in Hacc. rewrite <- Hacc. unfold owed. simpl. lia.
Qed.

End Potential.
