(* ===== verification/Prompt.v ===== *)
(** * The selection prompt goes away

    "Start Selection" starts [Animated.timing(messageAnim, {duration:
    600}).start(callback)] (lines 301-315), whose callback hides the
    prompt ([setShowSelectionMessage(false)]).  The model keeps the
    running fade in [messageFade] (the serial of its timing) and its
    completion as the timer [MessageFadeDone].  A new animation on
    [messageAnim] stops the running one, whose callback then runs at once
    ([stopMessageAnimation]); a completion whose serial is no longer
    running does nothing.

    The prompt is shown by the timer of line 281, the last link of a
    chain that runs once per visit: the Preloader completes, the location
    is asked for, it resolves, the map animates and the timer fires.
    [sources] counts the links still to come.

    Invariant, by rule induction over [step]: at most one link is
    pending, and none once the prompt has been shown; a running fade has
    its completion pending; and a mounted screen with no fade running,
    after "Start Selection", has hidden the prompt.  Theorem, with the
    termination of the loop ([Liveness]): once the user has pressed
    "Start Selection", letting the timers run hides the prompt. *)

From Stdlib Require Import String List Arith NArith ZArith Lia Bool.
From S2P Require Import Prelude JsNumber AreaCalculator EventLoop Screen Session Liveness.
Import ListNotations.
Local Open Scope kisaan_scope.

Section Fade.
Context {F : Type} `{JsNumber F}.

Local Abbreviation SW := (World (@ScreenComponent F _)).

#[local] Arguments firstn : simpl never.
#[local] Arguments calculateAreaInAcres : simpl never.

(** The running fade's completion is pending. *)
Definition fade_ok (s : @Screen F) (cbs : list (@Callback F)) : Prop :=
  forall g, messageFade s = Some g -> In (MessageFadeDone g) cbs.

(** A timer callback stops the fade, or leaves it running and is not its
    completion. *)
Lemma runCallback_fade (cb : @Callback F) (s : @Screen F) :
  messageFade (after (runCallback cb s)) = None \/
  (messageFade (after (runCallback cb s)) = messageFade s /\
   forall g, messageFade s = Some g -> cb <> MessageFadeDone g).
Proof.
  destruct cb; hsplit; mrun; auto; right; split; auto; intros g E Hc; try discriminate.
  injection Hc as ->. apply Nat.eqb_neq in Heqb. congruence.
Qed.

(** An event leaves the fade alone, stops it, or starts one whose
    completion it schedules. *)
Lemma handleEvent_fade (e : @UiEvent F) (s : @Screen F) :
  messageFade (after (handleEvent e s)) = messageFade s \/
  messageFade (after (handleEvent e s)) = None \/
  exists g, messageFade (after (handleEvent e s)) = Some g /\
            In (MessageFadeDone g) (map snd (timeouts (handleEvent e s))).
Proof.
  destruct e; [| unfold handleMapPress, createBoundingBox | |]; hsplit; mrun; auto;
    right; right; eexists; split; try reflexivity; rewrite ?map_app; simpl; auto 8 with datatypes.
Qed.

Lemma step_fade (w w' : SW) :
  step w w' -> wf_world w -> fade_ok (state w) (map callback (timers w)) ->
  fade_ok (state w') (map callback (timers w')).
Proof.
  intros Hs [_ Hnd] Hok. inv Hs.
  - unfold fire_timer, absorb. simpl. rewrite map_app, (@map_callback_enqueue F _).
    intros g Eg. apply in_or_app. left.
    destruct (runCallback_fade (callback t) (state w)) as [E|[E Hne]]; [simpl in Eg; congruence|].
    simpl in Eg. rewrite E in Eg.
    exact (@In_callback_remove (@ScreenComponent F _) t (timers w) (MessageFadeDone g) Hnd
             (earliest_In _ _ H0) (Hok g Eg) (fun Hc => Hne g Eg (eq_sym Hc))).
  - unfold dispatch, absorb. simpl. rewrite map_app, (@map_callback_enqueue F _).
    intros g Eg. simpl in Eg. destruct (handleEvent_fade e (state w)) as [E|[E|(g' & E & Hin)]].
    + apply in_or_app. left. apply Hok. congruence.
    + congruence.
    + apply in_or_app. right. rewrite E in Eg. inv Eg. exact Hin.
  - exact Hok.
Qed.

(** ** What can still show the prompt

    The prompt is shown by the timer of line 281, which
    [animateToUserLocation] schedules once the location has resolved,
    which happens after the Preloader completes.  [sources] counts the
    links of that chain still to come: a Preloader timer, a pending
    location promise, an [AnimateToUser] or a [ShowSelectionMessage]
    timer. *)
Definition show_source (cb : @Callback F) : nat :=
  match cb with
  | PreloaderEntranceDone _ | PreloaderAdvance | PreloaderSlideUp | PreloaderSlideDone
  | AnimateToUser _ | ShowSelectionMessage => 1
  | _ => 0
  end.

Definition sources (s : @Screen F) (cbs : list (@Callback F)) : nat :=
  pendingLocation s + list_sum (map show_source cbs).

Definition is_show (cb : @Callback F) : nat :=
  match cb with ShowSelectionMessage => 1 | _ => 0 end.

(** A mounted screen with no fade running, after "Start Selection" was
    pressed, has hidden the prompt. *)
Definition hidden_ok (s : @Screen F) : Prop :=
  mounted s = true -> messageFade s = None -> 0 < animationSerial s -> showSelectionMessage s = false.

(** A selection or a boundary exists only after "Start Selection". *)
Definition started_ok (s : @Screen F) : Prop :=
  isSelectingPoints s = true \/ boundingBox s <> None -> 0 < animationSerial s.

Definition prompt_inv (w : SW) : Prop :=
  wf_world w /\
  sources (state w) (map callback (timers w)) <= 1 /\
  (showSelectionMessage (state w) = true \/ 0 < animationSerial (state w) ->
   sources (state w) (map callback (timers w)) = 0) /\
  fade_ok (state w) (map callback (timers w)) /\
  hidden_ok (state w) /\ started_ok (state w).

Lemma list_sum_show_app (l1 l2 : list (@Callback F)) :
  list_sum (map show_source (l1 ++ l2)) = list_sum (map show_source l1) + list_sum (map show_source l2).
Proof. rewrite map_app, list_sum_app. reflexivity. Qed.

(** Each link hands on to at most one successor, and the timer of line
    281 to none. *)
Lemma runCallback_sources (cb : @Callback F) (s : @Screen F) :
  pendingLocation (after (runCallback cb s)) + list_sum (map show_source (map snd (timeouts (runCallback cb s))))
  + is_show cb <= pendingLocation s + show_source cb.
Proof. destruct cb; hsplit; mrun; lia. Qed.

(** Timers never unmount the screen, start a fade, or touch the
    selection; only the timer of line 281 shows the prompt. *)
Lemma runCallback_view (cb : @Callback F) (s : @Screen F) :
  let s' := after (runCallback cb s) in
  mounted s' = mounted s /\ animationSerial s' = animationSerial s /\
  isSelectingPoints s' = isSelectingPoints s /\ boundingBox s' = boundingBox s /\
  (showSelectionMessage s' = true -> showSelectionMessage s = true \/ is_show cb = 1).
Proof. cbv zeta. destruct cb; hsplit; mrun; intuition congruence. Qed.

Lemma runCallback_hidden (cb : @Callback F) (s : @Screen F) :
  (is_show cb = 1 -> animationSerial s = 0) -> hidden_ok s -> hidden_ok (after (runCallback cb s)).
Proof.
  unfold hidden_ok. intros Hshow Hh. destruct cb; hsplit; mrun; intros; try congruence; auto.
  all: specialize (Hshow eq_refl); lia.
Qed.

(** Events add no link: a resolved location turns its promise into the
    [AnimateToUser] timer. *)
Lemma handleEvent_sources (e : @UiEvent F) (s : @Screen F) :
  eventEnabled e s = true ->
  pendingLocation (after (handleEvent e s)) + list_sum (map show_source (map snd (timeouts (handleEvent e s))))
  <= pendingLocation s.
Proof.
  intros Hen. destruct e; [| unfold handleMapPress, createBoundingBox | |]; hsplit; mrun; try lia.
  all: simpl in Hen; apply Nat.ltb_lt in Hen; lia.
Qed.

(** Only "Start Selection", which needs the prompt on screen, starts a
    fade. *)
Lemma handleEvent_shown (e : @UiEvent F) (s : @Screen F) :
  eventEnabled e s = true ->
  showSelectionMessage (after (handleEvent e s)) = true \/ 0 < animationSerial (after (handleEvent e s)) ->
  showSelectionMessage s = true \/ 0 < animationSerial s.
Proof.
  intros Hen. destruct e; [| unfold handleMapPress, createBoundingBox | |]; hsplit; mrun; auto.
  all: bool_facts; auto.
Qed.

Lemma handleEvent_started (e : @UiEvent F) (s : @Screen F) :
  started_ok s -> started_ok (after (handleEvent e s)).
Proof.
  unfold started_ok. intros Hs. destruct e; [| unfold handleMapPress, createBoundingBox | |]; hsplit; mrun;
    intros Hsel; try lia; auto.
  all: apply Hs; left; destruct (isSelectingPoints s); [reflexivity | discriminate].
Qed.

Lemma handleEvent_hidden (e : @UiEvent F) (s : @Screen F) :
  hidden_ok s -> hidden_ok (after (handleEvent e s)).
Proof.
  unfold hidden_ok. intros Hh. destruct e; [| unfold handleMapPress, createBoundingBox | |]; hsplit; mrun;
    intros; try congruence; auto.
Qed.

Lemma fire_sources (w : SW) (t : Timer (@ScreenComponent F _)) :
  wf_world w -> earliest (timers w) = Some t ->
  sources (state (fire_timer t w)) (map callback (timers (fire_timer t w))) + is_show (callback t)
  <= sources (state w) (map callback (timers w)).
Proof.
  intros [_ Hnd] Et.
  assert (E : list_sum (map show_source (map callback (timers w))) =
              show_source (callback t) + list_sum (map show_source (map callback (remove_timer t (timers w)))))
    by exact (@sum_remove_timer (@ScreenComponent F _) show_source t (timers w) Hnd (earliest_In _ _ Et)).
  unfold sources, fire_timer, absorb. simpl.
  rewrite map_app, (@map_callback_enqueue F _), list_sum_show_app.
  pose proof (runCallback_sources (callback t) (state w)). simpl in *. lia.
Qed.

Lemma dispatch_sources (w : SW) (e : @UiEvent F) :
  eventEnabled e (state w) = true ->
  sources (state (dispatch e w)) (map callback (timers (dispatch e w)))
  <= sources (state w) (map callback (timers w)).
Proof.
  intros Hen. unfold sources, dispatch, absorb. simpl.
  rewrite map_app, (@map_callback_enqueue F _), list_sum_show_app.
  pose proof (handleEvent_sources e (state w) Hen). simpl in *. lia.
Qed.

Lemma step_prompt (w w' : SW) : step w w' -> prompt_inv w -> prompt_inv w'.
Proof.
  intros Hs (Hwf & Hle & Hzero & Hfade & Hhid & Hst).
  pose proof (step_wf _ _ Hs Hwf) as Hwf'. pose proof (step_fade _ _ Hs Hwf Hfade) as Hfade'.
  inv Hs.
  - pose proof (fire_sources w t Hwf H0) as Hsrc.
    pose proof (runCallback_view (callback t) (state w)) as (Hm & Hser & Hsel & Hbb & Hshow).
    assert (Hz : is_show (callback t) = 1 -> animationSerial (state w) = 0).
    { intros E. destruct (Nat.eq_dec (animationSerial (state w)) 0) as [|Hn]; [assumption|].
      rewrite Hzero in Hsrc by (right; lia). lia. }
    split; [exact Hwf'|]. split; [lia|]. split; [|split; [exact Hfade'|split]].
    + simpl in *. rewrite Hser. intros [Hs'|Hs'].
      * destruct (Hshow Hs') as [E|E]; [rewrite Hzero in Hsrc by auto|]; lia.
      * rewrite Hzero in Hsrc by auto. lia.
    + exact (runCallback_hidden _ _ Hz Hhid).
    + unfold started_ok in *. simpl. rewrite Hsel, Hbb, Hser. exact Hst.
  - pose proof (dispatch_sources w e H0) as Hsrc.
    split; [exact Hwf'|]. split; [lia|]. split; [|split; [exact Hfade'|split]].
    + intros Hp. apply (handleEvent_shown e (state w) H0), Hzero in Hp. lia.
    + exact (handleEvent_hidden e _ Hhid).
    + exact (handleEvent_started e _ Hst).
  - split; [exact Hwf'|]. exact (conj Hle (conj Hzero (conj Hfade (conj Hhid Hst)))).
Qed.

Lemma mountScreen_prompt : prompt_inv (@mountScreen F _).
Proof.
  split; [exact (proj1 (mountScreen_inv (F := F)))|].
  unfold sources, fade_ok, hidden_ok, started_ok. simpl.
  repeat split; try lia; intros; repeat match goal with H : _ \/ _ |- _ => destruct H end;
    try discriminate; try lia; try contradiction.
Qed.

Lemma reachable_prompt_inv (w : SW) : reachable w -> prompt_inv w.
Proof. intros Hr. exact (star_invariant step prompt_inv step_prompt _ w Hr mountScreen_prompt). Qed.

(** Letting the timers run keeps the screen mounted, starts no fade and
    leaves the selection alone. *)
Lemma drain_view (n : nat) (w : SW) :
  mounted (state (drain n w)) = mounted (state w) /\
  animationSerial (state (drain n w)) = animationSerial (state w).
Proof.
  revert w. induction n as [|n IH]; intros w; simpl; [auto|].
  destruct (earliest (timers w)); [|auto].
  destruct (IH (fire_timer t w)) as [-> ->].
  destruct (runCallback_view (callback t) (state w)) as (Hm & Hs & _). auto.
Qed.

(** C5: the selection prompt goes away.  In every reachable world where
    the user has pressed "Start Selection" (the selection is open, or a
    boundary is drawn) and the screen is still mounted, letting the
    pending timers run hides the prompt ([showSelectionMessage] false):
    the fade's completion callback of lines 305-306 runs, or ran
    already, and nothing can show the prompt again, since the location
    is asked for only once per visit. *)
Theorem reachable_prompt_hidden (w : SW) :
  reachable w -> mounted (state w) = true ->
  isSelectingPoints (state w) = true \/ boundingBox (state w) <> None ->
  showSelectionMessage (state (drain (timer_load w) w)) = false.
Proof.
  intros Hr Hm Hsel.
  pose proof (reachable_prompt_inv w Hr) as (Hwf & _ & _ & _ & _ & Hst).
  pose proof (drain_load_empties w Hwf) as Hempty.
  pose proof (reachable_prompt_inv _ (star_trans _ _ _ _ Hr (drain_star (timer_load w) w)))
    as (_ & _ & _ & Hfade & Hhid & _).
  destruct (drain_view (timer_load w) w) as [Hm' Hser].
  apply Hhid; [congruence| |rewrite Hser; exact (Hst Hsel)].
  destruct (messageFade _) as [g|] eqn:E; [|reflexivity].
  specialize (Hfade g E). rewrite Hempty in Hfade. contradiction.
Qed.

End Fade.
