(* ===== verification/Preloader.v ===== *)
(** * The Preloader's word cycle stays inside [words]

    The Preloader renders [words[index]] (FetchingLocationScreen.jsx,
    line 108).  Its index only moves in [onPreloaderAdvance]
    ([setIndex(prevIndex => prevIndex + 1)], line 67), and the advance
    timer is scheduled only by an entrance whose index is below
    [words.length - 1] (line 65).  This file proves, by rule induction on
    the loop's [step] from [mountScreen], that the read at line 108 is
    always defined:

    - at most one timer of the Preloader's chain (entrance done, advance,
      slide up, slide done) is pending, and exactly one while the
      Preloader is mounted, so the chain never stalls and never forks;
    - a pending entrance carries the current index, and a pending advance
      is pending only below the last word;
    - hence [index < words.length] in every reachable world. *)

From Stdlib Require Import String List Arith NArith ZArith Lia Bool.
From S2P Require Import Prelude JsNumber AreaCalculator EventLoop Screen Session Liveness.
Import ListNotations.
Local Open Scope kisaan_scope.

Section Chain.
Context {F : Type} `{JsNumber F}.

Local Abbreviation SW := (World (@ScreenComponent F _)).

#[local] Arguments firstn : simpl never.
#[local] Arguments calculateAreaInAcres : simpl never.

(** The callbacks of the Preloader's animation chain (lines 64-82). *)
Definition is_chain (cb : @Callback F) : bool :=
  match cb with
  | PreloaderEntranceDone _ | PreloaderAdvance | PreloaderSlideUp | PreloaderSlideDone => true
  | _ => false
  end.

Definition chain_count (cbs : list (@Callback F)) : nat :=
  list_sum (map (fun cb => if is_chain cb then 1 else 0) cbs).

(** What a pending chain timer requires of the index it will read. *)
Definition chain_ok (s : @Screen F) (cb : @Callback F) : Prop :=
  match cb with
  | PreloaderEntranceDone j => j = preloaderIndex s
  | PreloaderAdvance => S (preloaderIndex s) < length words
  | _ => True
  end.

Definition preloader_inv (s : @Screen F) (cbs : list (@Callback F)) : Prop :=
  preloaderIndex s < length words /\
  chain_count cbs <= 1 /\
  (preloader_active s = true -> chain_count cbs = 1) /\
  Forall (chain_ok s) cbs.

Lemma chain_count_app l1 l2 : chain_count (l1 ++ l2) = chain_count l1 + chain_count l2.
Proof. unfold chain_count. rewrite map_app, list_sum_app. reflexivity. Qed.

Lemma chain_count_cons cb l :
  chain_count (cb :: l) = (if is_chain cb then 1 else 0) + chain_count l.
Proof. reflexivity. Qed.

(** Callbacks outside the chain require nothing. *)
Lemma chain_ok_none s l : chain_count l = 0 -> Forall (chain_ok s) l.
Proof.
  induction l as [|cb l IH]; intros Hc; [constructor|]. rewrite chain_count_cons in Hc.
  constructor; [|apply IH; lia]. destruct cb; simpl in *; try lia; exact I.
Qed.

(** [chain_ok] reads only the index. *)
Lemma chain_ok_frame s s' l :
  preloaderIndex s' = preloaderIndex s -> Forall (chain_ok s) l -> Forall (chain_ok s') l.
Proof.
  intros E. apply Forall_impl. intros [] Hcb; simpl in *; rewrite ?E; exact Hcb.
Qed.

(** A callback outside the chain leaves the index alone and schedules no
    chain timer. *)
Lemma runCallback_outside (cb : @Callback F) (s : @Screen F) :
  is_chain cb = false ->
  preloaderIndex (after (runCallback cb s)) = preloaderIndex s /\
  chain_count (map snd (timeouts (runCallback cb s))) = 0.
Proof. destruct cb; intros Hc; try discriminate; hsplit; mrun; auto. Qed.

Lemma handleEvent_outside (e : @UiEvent F) (s : @Screen F) :
  preloaderIndex (after (handleEvent e s)) = preloaderIndex s /\
  (preloader_active (after (handleEvent e s)) = true -> preloader_active s = true) /\
  chain_count (map snd (timeouts (handleEvent e s))) = 0.
Proof.
  unfold preloader_active.
  destruct e; [| unfold handleMapPress, createBoundingBox | |]; hsplit; mrun; auto;
    intuition (bool_facts; congruence).
Qed.

Lemma words_nonempty : 0 < length words.
Proof. simpl. lia. Qed.

#[local] Opaque words.

(** A chain callback fires while no other chain timer is pending: it
    hands the chain on to at most one successor. *)
Lemma runCallback_chain_inv (cb : @Callback F) (s : @Screen F) :
  is_chain cb = true -> chain_ok s cb -> preloaderIndex s < length words ->
  preloader_inv (after (runCallback cb s)) (map snd (timeouts (runCallback cb s))).
Proof.
  intros Ec Hcb Hlt. unfold preloader_inv, preloader_active. pose proof words_nonempty.
  destruct cb; try discriminate; simpl in Hcb; hsplit; mrun;
    unfold chain_count; repeat split; bool_facts;
    repeat first [apply Forall_nil | apply Forall_cons]; simpl; try lia; try congruence;
    repeat match goal with H : (_ <? _) = true |- _ => apply Nat.ltb_lt in H end;
    [lia | intros Hx; apply andb_true_iff in Hx as [Hx _]; congruence].
Qed.

(** A step that leaves the index alone, never revives the Preloader and
    schedules no chain timer keeps the invariant. *)
Lemma preloader_inv_frame (s s' : @Screen F) cbs new :
  preloaderIndex s' = preloaderIndex s ->
  (preloader_active s' = true -> preloader_active s = true) ->
  chain_count new = 0 -> preloader_inv s cbs -> preloader_inv s' (cbs ++ new).
Proof.
  intros Hi Hact Hn (Hlt & Hc & Ha & Hok). unfold preloader_inv.
  rewrite chain_count_app, Hn, Hi. split; [exact Hlt|]. split; [lia|].
  split; [intros A; specialize (Ha (Hact A)); lia|].
  apply Forall_app. split; [exact (chain_ok_frame s s' cbs Hi Hok) | apply chain_ok_none, Hn].
Qed.

Lemma runCallback_preloader_inv (cb : @Callback F) (s : @Screen F) rest :
  preloader_inv s (cb :: rest) ->
  preloader_inv (after (runCallback cb s)) (rest ++ map snd (timeouts (runCallback cb s))).
Proof.
  intros (Hlt & Hc & Ha & Hok). apply Forall_cons_iff in Hok as [Hcb Hrest].
  rewrite chain_count_cons in Hc, Ha. destruct (is_chain cb) eqn:Ec.
  - destruct (runCallback_chain_inv cb s Ec Hcb Hlt) as (Hlt' & Hc' & Ha' & Hok').
    assert (Hr0 : chain_count rest = 0) by lia.
    unfold preloader_inv. rewrite chain_count_app, Hr0.
    split; [exact Hlt'|]. split; [exact Hc'|]. split; [exact Ha'|].
    apply Forall_app. split; [apply chain_ok_none, Hr0 | exact Hok'].
  - destruct (runCallback_outside cb s Ec) as [Hi Hn].
    apply (preloader_inv_frame s); [exact Hi | apply runCallback_preloader | exact Hn |].
    split; [exact Hlt|]. split; [lia|]. split; [intros A; specialize (Ha A); lia | exact Hrest].
Qed.

Lemma handleEvent_preloader_inv (e : @UiEvent F) (s : @Screen F) cbs :
  preloader_inv s cbs ->
  preloader_inv (after (handleEvent e s)) (cbs ++ map snd (timeouts (handleEvent e s))).
Proof.
  destruct (handleEvent_outside e s) as (Hi & Hact & Hn). apply preloader_inv_frame; assumption.
Qed.

(** The fired timer is taken out of the queue. *)
Lemma preloader_inv_remove (s : @Screen F) (t : Timer (@ScreenComponent F _)) ts :
  NoDup (map seqno ts) -> In t ts -> preloader_inv s (map callback ts) ->
  preloader_inv s (callback t :: map callback (remove_timer t ts)).
Proof.
  intros Hnd Hin (Hlt & Hc & Ha & Hok).
  assert (E : chain_count (map callback ts) =
              (if is_chain (callback t) then 1 else 0) + chain_count (map callback (remove_timer t ts)))
    by exact (@sum_remove_timer (@ScreenComponent F _) (fun cb => if is_chain cb then 1 else 0) t ts Hnd Hin).
  rewrite E in Hc, Ha. rewrite Forall_map, Forall_forall in Hok.
  unfold preloader_inv. rewrite chain_count_cons. repeat split; try assumption.
  constructor; [apply Hok, Hin|]. apply Forall_map, Forall_forall.
  intros u Hu. apply In_remove_timer in Hu as [Hu _]. apply Hok, Hu.
Qed.

Definition preloader_world_inv (w : SW) : Prop :=
  wf_world w /\ preloader_inv (state w) (map callback (timers w)).

Lemma step_preloader_inv (w w' : SW) : step w w' -> preloader_world_inv w -> preloader_world_inv w'.
Proof.
  intros Hs [Hwf Hp]. split; [exact (step_wf w w' Hs Hwf)|]. destruct Hwf as [_ Hnd]. inv Hs.
  - unfold fire_timer, absorb. simpl. rewrite map_app, (@map_callback_enqueue F _).
    apply runCallback_preloader_inv, preloader_inv_remove; [exact Hnd | apply earliest_In; assumption | exact Hp].
  - unfold dispatch, absorb. simpl. rewrite map_app, (@map_callback_enqueue F _).
    apply handleEvent_preloader_inv, Hp.
  - exact Hp.
Qed.

Lemma mountScreen_preloader_inv : preloader_world_inv (@mountScreen F _).
Proof.
  split; [exact (proj1 (mountScreen_inv (F := F)))|].
  pose proof words_nonempty. unfold preloader_inv, chain_count. simpl.
  repeat split; try lia. repeat constructor.
Qed.

(** C18: the Preloader never reads past its words.  In every world
    reachable from the first render, [words[index]] (line 108) is a word
    of the list; at most one timer of the Preloader's chain is pending,
    and exactly one while the Preloader is mounted, so the chain neither
    stalls nor forks. *)
Theorem reachable_preloader_word (w : SW) :
  reachable w ->
  nth_error words (preloaderIndex (state w)) <> None /\
  chain_count (map callback (timers w)) <= 1 /\
  (preloader_active (state w) = true -> chain_count (map callback (timers w)) = 1).
Proof.
  intros Hr.
  destruct (star_invariant step preloader_world_inv step_preloader_inv _ w Hr mountScreen_preloader_inv)
    as (_ & Hlt & Hc & Ha & _).
  split; [apply nth_error_Some, Hlt | auto].
Qed.

End Chain.
