(* ===== verification/SessionMachine.v ===== *)
(** * The spec's session machine, and its refinement by the screen

    The spec (section 4.2) describes the selection and analysis workflow
    as a machine over [SessionState]: a status in [Idle], [AwaitingStart],
    [Selecting], [BoundaryReady], [Analyzing], [Complete], the selection,
    the area and the current step index.  [sstep] is that machine.

    [abstract] reads a [SessionState] off a world of the screen: the
    status from its hooks and its navigation log, the selection from
    [selectedPoints], the area from [farmArea], and the step index from
    [currentAnalysisStep] while [isAnalyzing].  The refinement theorem
    states that every step of the screen is a step of the machine or
    leaves the abstract state unchanged (a stuttering simulation), for the
    sessions the spec describes: the screen stays mounted and "Start
    Selection" is pressed only while the prompt is up and no session has
    begun ([dstep]).  Outside that discipline the code leaves the machine
    (the traces of [Traces] show it).

    The simulation needs an invariant of the timer queue per status
    ([phase_inv]): how many [StartAnalysis], step and navigation timers
    are pending, and that step timers are due at one start time plus
    [(i + 1) * 1800] ms, so that they fire in index order. *)

From Stdlib Require Import String List Arith NArith ZArith Lia Bool.
From S2P Require Import Prelude JsNumber AreaCalculator EventLoop Screen Session.
Import ListNotations.
Local Open Scope kisaan_scope.

Inductive Status := Idle | AwaitingStart | Selecting | BoundaryReady | Analyzing | Complete.

Section Machine.
Context {F : Type} `{JsNumber F}.

(** The spec's [SessionState] (section 3). *)
Record SessionState := mkSession {
  status : Status;
  selection : list (Coordinate F);
  areaAcres : option F;
  currentStepIndex : option nat
}.

Definition initial_session : SessionState := mkSession Idle [] None None.

(** The transitions of section 4.2.  An ignored [addPoint] is no step. *)
Inductive sstep : SessionState -> SessionState -> Prop :=
| s_ready sel a :
    sstep (mkSession Idle sel a None) (mkSession AwaitingStart sel a None)
| s_begin sel a :
    sstep (mkSession AwaitingStart sel a None) (mkSession Selecting [] None None)
| s_add sel a p :
    length sel < 3 ->
    sstep (mkSession Selecting sel a None) (mkSession Selecting (sel ++ [p]) a None)
| s_boundary sel a p :
    length sel = 3 ->
    sstep (mkSession Selecting sel a None)
          (mkSession BoundaryReady (sel ++ [p]) (Some (calculateAreaInAcres (sel ++ [p]))) None)
| s_analyze sel a :
    sstep (mkSession BoundaryReady sel a None) (mkSession Analyzing sel a (Some 0))
| s_tick sel a i :
    S i < length analysisSteps ->
    sstep (mkSession Analyzing sel a (Some i)) (mkSession Analyzing sel a (Some (S i)))
| s_complete sel a :
    sstep (mkSession Analyzing sel a (Some (length analysisSteps - 1)))
          (mkSession Complete sel a (Some (length analysisSteps - 1))).

Local Abbreviation SW := (World (@ScreenComponent F _)).

(** ** Reading the session off the screen *)

(** The status, from the navigations performed so far and the hooks. *)
Definition status_at (n : nat) (s : @Screen F) : Status :=
  if 1 <=? n then Complete
  else if isAnalyzing s then Analyzing
  else match boundingBox s with
       | Some _ => BoundaryReady
       | None => if isSelectingPoints s then Selecting
                 else if showSelectionMessage s then AwaitingStart else Idle
       end.

Definition session_at (n : nat) (s : @Screen F) : SessionState :=
  mkSession (status_at n s) (map point_coordinate (selectedPoints s)) (farmArea s)
    (if isAnalyzing s then Some (currentAnalysisStep s) else None).

Definition status_of (w : SW) : Status := status_at (navigations (log w)) (state w).

Definition abstract (w : SW) : SessionState := session_at (navigations (log w)) (state w).

(** ** The sessions of the spec

    The screen stays mounted, and "Start Selection" is pressed only while
    the prompt is up and no session has begun. *)
Inductive dstep : SW -> SW -> Prop :=
| d_fire w t : earliest (timers w) = Some t -> dstep w (fire_timer t w)
| d_map w c :
    eventEnabled (MapPress c) (state w) = true -> dstep w (dispatch (MapPress c) w)
| d_location w r :
    eventEnabled (LocationResolved r) (state w) = true ->
    dstep w (dispatch (LocationResolved r) w)
| d_begin w :
    status_of w = AwaitingStart -> eventEnabled PressStartSelection (state w) = true ->
    dstep w (dispatch PressStartSelection w)
| d_wait w d :
    (forall t, In t (timers w) -> (now w + d <= due t)%N) -> dstep w (advance d w).

(** ** Pending timers by kind *)

Definition count (p : @Callback F -> bool) (cbs : list (@Callback F)) : nat :=
  list_sum (map (fun cb => if p cb then 1 else 0) cbs).

Definition pending (w : SW) (p : @Callback F -> bool) : nat := count p (map callback (timers w)).

Definition is_start (cb : @Callback F) : bool :=
  match cb with StartAnalysis => true | _ => false end.
Definition is_tick (i : nat) (cb : @Callback F) : bool :=
  match cb with AnalysisTick j => j =? i | _ => false end.
Definition is_any_tick (cb : @Callback F) : bool :=
  match cb with AnalysisTick _ => true | _ => false end.
Definition is_nav (cb : @Callback F) : bool :=
  match cb with NavigateToChoice => true | _ => false end.

(** The callbacks outside the analysis: Preloader, location, prompt. *)
Definition front (cb : @Callback F) : bool :=
  match cb with StartAnalysis | AnalysisTick _ | NavigateToChoice => false | _ => true end.

(** Step timers [m .. N-1] are pending, once each. *)
Definition ticks_from (m : nat) (w : SW) : Prop :=
  forall i, pending w (is_tick i) = if (m <=? i) && (i <? length analysisSteps) then 1 else 0.

(** Step timer [i] is due at a common start plus [(i + 1) * 1800] ms. *)
Definition ticks_timed (w : SW) : Prop :=
  exists base, forall t i, In t (timers w) -> callback t = AnalysisTick i ->
    due t = (base + N.of_nat (S i) * TIME_PER_ANALYSIS_STEP)%N.

Definition phase_at (st : Status) (w : SW) : Prop :=
  let s := state w in
  match st with
  | Idle | AwaitingStart =>
      messageFade s = None /\
      pending w is_start = 0 /\ pending w is_any_tick = 0 /\ pending w is_nav = 0
  | Selecting =>
      pending w is_start = 0 /\ pending w is_any_tick = 0 /\ pending w is_nav = 0
  | BoundaryReady =>
      pending w is_start = 1 /\ pending w is_any_tick = 0 /\ pending w is_nav = 0
  | Analyzing =>
      pending w is_start = 0 /\ isSelectingPoints s = false /\ ticks_timed w /\
      exists m, m <= length analysisSteps /\ ticks_from m w /\
        currentAnalysisStep s = pred m /\
        pending w is_nav = (if m =? length analysisSteps then 1 else 0)
  | Complete =>
      pending w is_start = 0 /\ pending w is_any_tick = 0 /\ pending w is_nav = 0 /\
      navigations (log w) = 1 /\ isSelectingPoints s = false
  end.

Definition phase_inv (w : SW) : Prop := phase_at (status_of w) w.

(** The hooks the session is read from, and [mounted]. *)
Definition core_view (s : @Screen F) :=
  (selectedPoints s, boundingBox s, isSelectingPoints s, isAnalyzing s,
   currentAnalysisStep s, farmArea s, mounted s).

Definition session_inv (w : SW) : Prop :=
  reachable w /\ mounted (state w) = true /\ phase_inv w.
End Machine.

Arguments SessionState F : clear implicits.

(** ** Counting pending timers *)

Section Counting.
Context {F : Type} `{JsNumber F}.

Local Abbreviation SW := (World (@ScreenComponent F _)).
Local Abbreviation CB := (@Callback F).

Lemma count_app (p : CB -> bool) l1 l2 : count p (l1 ++ l2) = count p l1 + count p l2.
Proof. unfold count. rewrite map_app, list_sum_app. reflexivity. Qed.

Lemma count_In (p : CB -> bool) l cb : In cb l -> p cb = true -> 1 <= count p l.
Proof.
  unfold count. induction l as [|x l IH]; simpl; intros Hin Hp; [contradiction|].
  destruct Hin as [->|Hin]; [rewrite Hp; lia | specialize (IH Hin Hp); lia].
Qed.

Lemma count_zero (p : CB -> bool) l cb : count p l = 0 -> In cb l -> p cb = false.
Proof.
  intros H0 Hin. destruct (p cb) eqn:E; [|reflexivity].
  pose proof (count_In p l cb Hin E). lia.
Qed.

Lemma count_le (p q : CB -> bool) l :
  (forall cb, p cb = true -> q cb = true) -> count p l <= count q l.
Proof.
  intros Hpq. unfold count. induction l as [|x l IH]; simpl; [lia|].
  destruct (p x) eqn:E; [rewrite (Hpq x E)|destruct (q x)]; lia.
Qed.

Lemma count_nil (p : CB -> bool) : count p [] = 0.
Proof. reflexivity. Qed.

(** Front callbacks schedule only front callbacks. *)
Lemma count_front (p : CB -> bool) l :
  (forall cb, front cb = true -> p cb = false) -> forallb front l = true -> count p l = 0.
Proof.
  intros Hp. unfold count. induction l as [|x l IH]; simpl; [reflexivity|].
  intros Hf. apply andb_true_iff in Hf as [Hx Hl]. rewrite (Hp x Hx). simpl. auto.
Qed.

Lemma count_ticks (l : list CB) :
  (forall i, count (is_tick i) l = 0) -> count is_any_tick l = 0.
Proof.
  unfold count. induction l as [|x l IH]; simpl; intros Hi; [reflexivity|].
  destruct x as [?| | | |?| |?| |k|]; simpl; try (apply IH; intros i; specialize (Hi i); lia).
  specialize (Hi k). simpl in Hi. rewrite Nat.eqb_refl in Hi. lia.
Qed.

Lemma count_tick_any (i : nat) (l : list CB) : count (is_tick i) l <= count is_any_tick l.
Proof. apply count_le. intros [] E; try discriminate. reflexivity. Qed.

(** Firing a timer removes its callback and adds what it schedules. *)
Lemma pending_fire (p : CB -> bool) (w : SW) t :
  wf_world w -> earliest (timers w) = Some t ->
  pending (fire_timer t w) p + (if p (callback t) then 1 else 0)
  = pending w p + count p (map snd (timeouts (runCallback (callback t) (state w)))).
Proof.
  intros [_ Hnd] Et. unfold pending, fire_timer, absorb. cbn [timers].
  rewrite map_app, map_callback_enqueue, count_app.
  pose proof (@sum_remove_timer (@ScreenComponent F _) (fun cb => if p cb then 1 else 0)
                t (timers w) Hnd (earliest_In _ _ Et)) as E.
  unfold count. simpl in *. lia.
Qed.

Lemma pending_dispatch (p : CB -> bool) (w : SW) e :
  pending (dispatch e w) p = pending w p + count p (map snd (timeouts (handleEvent e (state w)))).
Proof.
  unfold pending, dispatch, absorb. cbn [timers].
  rewrite map_app, map_callback_enqueue, count_app. reflexivity.
Qed.

Lemma In_enqueue_pair t0 n (l : list (N * CB)) u :
  In u (@enqueue (@ScreenComponent F _) t0 n l) ->
  exists d, In (d, callback u) l /\ due u = (t0 + d)%N.
Proof.
  revert n. induction l as [|[d cb] l IH]; simpl; intros n Hu; [contradiction|].
  destruct Hu as [<-|Hu]; [exists d; auto|].
  destruct (IH (S n) Hu) as (d' & Hin & Hd). eauto.
Qed.
End Counting.

(** ** What each handler does to the session *)

Section Outcomes.
Context {F : Type} `{JsNumber F}.

Local Abbreviation CB := (@Callback F).

#[local] Arguments firstn : simpl never.
#[local] Arguments calculateAreaInAcres : simpl never.

(** Preloader, location and prompt callbacks leave the session's hooks
    alone, never navigate, and schedule only their own kind. *)
Lemma front_frame (cb : CB) (s : @Screen F) :
  front cb = true ->
  core_view (after (runCallback cb s)) = core_view s /\
  navigations (effects (runCallback cb s)) = 0 /\
  forallb front (map snd (timeouts (runCallback cb s))) = true.
Proof. destruct cb; intros Hf; try discriminate; hsplit; mrun; auto. Qed.

(** With no fade running, they never hide the prompt again. *)
Lemma front_prompt (cb : CB) (s : @Screen F) :
  front cb = true -> messageFade s = None ->
  messageFade (after (runCallback cb s)) = None /\
  (showSelectionMessage s = true -> showSelectionMessage (after (runCallback cb s)) = true).
Proof.
  destruct cb; intros Hf Hm; try discriminate; hsplit; mrun; rewrite ?Hm in *;
    try congruence; auto; destruct (mounted s); mrun; rewrite ?Hm in *; try congruence; auto.
Qed.
Lemma startAnalysis_run (s : @Screen F) :
  mounted s = true ->
  after (runCallback StartAnalysis s) = with_currentAnalysisStep 0 (with_isAnalyzing true s) /\
  timeouts (runCallback StartAnalysis s)
  = map (fun i => (N.of_nat (S i) * TIME_PER_ANALYSIS_STEP, AnalysisTick i))%N
        (seq 0 (length analysisSteps)) /\
  effects (runCallback StartAnalysis s) = [].
Proof. intros Hm. hsplit; mrun; auto. Qed.

Lemma onAnalysisTick_run (j : nat) (s : @Screen F) :
  mounted s = true ->
  after (runCallback (AnalysisTick j) s) = with_currentAnalysisStep j s /\
  timeouts (runCallback (AnalysisTick j) s)
  = (if j =? length analysisSteps - 1 then [(DELAY_AFTER_LAST_STEP, NavigateToChoice)] else []) /\
  effects (runCallback (AnalysisTick j) s) = [].
Proof. intros Hm. hsplit; mrun; auto. Qed.

Lemma onNavigateToChoice_run (s : @Screen F) :
  after (runCallback NavigateToChoice s) = s /\ timeouts (runCallback NavigateToChoice s) = [] /\
  navigations (effects (runCallback NavigateToChoice s)) = 1.
Proof. hsplit; mrun; auto. Qed.

(** The location answer touches only the location and the promise. *)
Lemma location_frame (r : @LocationResult F) (s : @Screen F) :
  let o := handleEvent (LocationResolved r) s in
  core_view (after o) = core_view s /\ messageFade (after o) = messageFade s /\
  showSelectionMessage (after o) = showSelectionMessage s /\
  navigations (effects o) = 0 /\ forallb front (map snd (timeouts o)) = true.
Proof. destruct r; hsplit; mrun; auto. Qed.

(** "Start Selection": a fresh, empty selection and the prompt's fade. *)
Lemma begin_run (s : @Screen F) :
  mounted s = true -> messageFade s = None ->
  let o := handleEvent PressStartSelection s in
  selectedPoints (after o) = [] /\ boundingBox (after o) = None /\
  isSelectingPoints (after o) = true /\ farmArea (after o) = None /\
  isAnalyzing (after o) = isAnalyzing s /\ mounted (after o) = true /\
  effects o = [] /\ forallb front (map snd (timeouts o)) = true.
Proof. intros Hm Hf. hsplit; mrun; rewrite ?Hm, ?Hf in *; mrun; repeat split; auto. Qed.

(** A tap leaves everything but the selection, the boundary and the
    area alone. *)
Lemma handleMapPress_frame (c : Coordinate F) (s : @Screen F) :
  let o := handleMapPress c s in
  isAnalyzing (after o) = isAnalyzing s /\ mounted (after o) = mounted s /\
  currentAnalysisStep (after o) = currentAnalysisStep s /\
  showSelectionMessage (after o) = showSelectionMessage s /\
  messageFade (after o) = messageFade s /\ effects o = [].
Proof.
  unfold handleMapPress, createBoundingBox. hsplit; mrun;
    repeat match goal with |- context [if ?c then _ else _] => destruct c eqn:? end;
    repeat split; auto.
Qed.
End Outcomes.

(** ** The simulation *)

(** The field equations of equal [core_view]s, used left to right. *)
Ltac core_eqs E :=
  unfold core_view in E;
  let H1 := fresh in let H2 := fresh in let H3 := fresh in let H4 := fresh in
  let H5 := fresh in let H6 := fresh in let H7 := fresh in
  injection E as H1 H2 H3 H4 H5 H6 H7; rewrite ?H1, ?H2, ?H3, ?H4, ?H5, ?H6, ?H7.

(** Split a status computed by [status_at] into the hooks it read. *)
Ltac status_cases H :=
  unfold status_at in H;
  repeat match type of H with
         | context [if ?c then _ else _] => destruct c eqn:?
         | context [match ?x with Some _ => _ | None => _ end] => destruct x eqn:?
         end; try discriminate H.

Section Simulation.
Context {F : Type} `{JsNumber F}.

Local Abbreviation SW := (World (@ScreenComponent F _)).
Local Abbreviation CB := (@Callback F).

#[local] Arguments firstn : simpl never.
#[local] Arguments calculateAreaInAcres : simpl never.

Lemma navigations_fire (w : SW) t :
  navigations (log (fire_timer t w))
  = navigations (log w) + navigations (effects (runCallback (callback t) (state w))).
Proof. apply navigations_app. Qed.

Lemma navigations_dispatch (w : SW) e :
  navigations (log (dispatch e w)) = navigations (log w) + navigations (effects (handleEvent e (state w))).
Proof. apply navigations_app. Qed.

(** The phase invariant carries over when nothing it reads changes. *)
Lemma phase_at_transfer (st : Status) (w w' : SW) :
  pending w' is_start = pending w is_start ->
  pending w' is_any_tick = pending w is_any_tick ->
  pending w' is_nav = pending w is_nav ->
  (forall i, pending w' (is_tick i) = pending w (is_tick i)) ->
  (ticks_timed w -> ticks_timed w') ->
  navigations (log w') = navigations (log w) ->
  core_view (state w') = core_view (state w) ->
  (messageFade (state w) = None -> messageFade (state w') = None) ->
  phase_at st w -> phase_at st w'.
Proof.
  intros Hs Ha Hn Hi Ht Hl Hv Hf. unfold phase_at, core_view in *. injection Hv.
  intros _ _ Hstep _ Hsel _ _. rewrite Hs, Ha, Hn, Hl, Hsel, Hstep.
  destruct st; try tauto.
  intros (H0 & H1 & H2 & m & Hm & Htk & H3 & H4). unfold ticks_from in *.
  split; [exact H0|]. split; [exact H1|]. split; [auto|].
  exists m. split; [exact Hm|]. split; [intros i; rewrite Hi; apply Htk|]. auto.
Qed.

(** Timers that are not step timers keep the step timers' schedule. *)
Lemma ticks_timed_absorb (w w' : SW) ts (l : list (N * CB)) (t0 : N) (n : nat) :
  timers w' = ts ++ @enqueue (@ScreenComponent F _) t0 n l ->
  (forall u, In u ts -> In u (timers w)) ->
  count is_any_tick (map snd l) = 0 ->
  ticks_timed w -> ticks_timed w'.
Proof.
  intros Ew' Hsub Hl [base Hb]. exists base. intros u i Hu Hcb. rewrite Ew' in Hu.
  apply in_app_or in Hu as [Hu|Hu]; [apply Hb; auto|].
  destruct (In_enqueue_pair _ _ _ _ Hu) as (d & Hin & _).
  pose proof (count_zero _ _ _ Hl (in_map snd _ _ Hin)) as E. simpl in E.
  rewrite Hcb in E. discriminate.
Qed.
Lemma status_at_core (n : nat) (s s' : @Screen F) :
  core_view s' = core_view s ->
  status_at n s <> Idle -> status_at n s <> AwaitingStart -> status_at n s' = status_at n s.
Proof.
  unfold status_at. intros E. core_eqs E.
  destruct (1 <=? n), (isAnalyzing s), (boundingBox s), (isSelectingPoints s); auto.
  destruct (showSelectionMessage s); congruence.
Qed.

Lemma status_at_low (n : nat) (s s' : @Screen F) :
  core_view s' = core_view s ->
  status_at n s = Idle \/ status_at n s = AwaitingStart ->
  (showSelectionMessage s = true -> showSelectionMessage s' = true) ->
  status_at n s' = status_at n s \/ (status_at n s = Idle /\ status_at n s' = AwaitingStart).
Proof.
  unfold status_at. intros E. core_eqs E.
  destruct (1 <=? n), (isAnalyzing s), (boundingBox s), (isSelectingPoints s);
    intros [E|E]; try discriminate;
    destruct (showSelectionMessage s), (showSelectionMessage s'); intuition congruence.
Qed.

(** Same hooks and same status: the same abstract session. *)
Lemma session_at_frame (n : nat) (s s' : @Screen F) :
  core_view s' = core_view s -> status_at n s' = status_at n s -> session_at n s' = session_at n s.
Proof.
  unfold session_at. intros E Hst. rewrite Hst. core_eqs E. reflexivity.
Qed.

Lemma session_at_ready (n : nat) (s s' : @Screen F) :
  core_view s' = core_view s -> status_at n s = Idle -> status_at n s' = AwaitingStart ->
  sstep (session_at n s) (session_at n s').
Proof.
  intros E Hi Ha. pose proof Hi as Hi'. status_cases Hi'.
  unfold session_at. rewrite Hi, Ha. core_eqs E. rewrite Heqb0. apply s_ready.
Qed.

Lemma front_not (p : CB -> bool) :
  p = is_start \/ p = is_any_tick \/ p = is_nav \/ (exists i, p = is_tick i) ->
  forall cb, front cb = true -> p cb = false.
Proof. intros [->|[->|[->|[i ->]]]] [] Hf; try discriminate; reflexivity. Qed.
(** A step that changes none of the session's hooks, never navigates,
    keeps the prompt shown, schedules no analysis timer and removes at
    most timers outside the analysis is a stutter, or [Idle] to
    [AwaitingStart]. *)
Lemma sim_frame (w w' : SW) :
  phase_inv w ->
  core_view (state w') = core_view (state w) ->
  navigations (log w') = navigations (log w) ->
  (messageFade (state w) = None ->
   messageFade (state w') = None /\
   (showSelectionMessage (state w) = true -> showSelectionMessage (state w') = true)) ->
  (forall p, p = is_start \/ p = is_any_tick \/ p = is_nav \/ (exists i, p = is_tick i) ->
     pending w' p = pending w p) ->
  (ticks_timed w -> ticks_timed w') ->
  phase_inv w' /\ (abstract w' = abstract w \/ sstep (abstract w) (abstract w')).
Proof.
  intros Hph Hv Hl Hf Hp Ht. unfold phase_inv, abstract, status_of in *. rewrite Hl.
  assert (Htr : forall st, phase_at st w -> phase_at st w').
  { intros st. apply phase_at_transfer; auto 6.
    - intros i. apply Hp. eauto 6.
    - intros E. apply (Hf E). }
  destruct (status_at (navigations (log w)) (state w)) eqn:Est;
    try (assert (Es : status_at (navigations (log w)) (state w') = status_at (navigations (log w)) (state w))
           by (apply status_at_core; [exact Hv | rewrite Est; discriminate | rewrite Est; discriminate]);
         rewrite Es, Est; split; [apply Htr, Hph | left; apply session_at_frame; congruence]).
  all: destruct (Hf (proj1 Hph)) as [Hf' Hsh];
    assert (Hlow : status_at (navigations (log w)) (state w) = Idle \/
                   status_at (navigations (log w)) (state w) = AwaitingStart) by (rewrite Est; auto);
    destruct (status_at_low _ _ _ Hv Hlow Hsh) as [Es|[_ Es]]; rewrite Es; rewrite ?Est;
    (split; [apply Htr, Hph | ]);
    first [left; apply session_at_frame; congruence | right; apply session_at_ready; congruence].
Qed.
Lemma sim_fire_front (w : SW) t :
  wf_world w -> phase_inv w -> earliest (timers w) = Some t -> front (callback t) = true ->
  phase_inv (fire_timer t w) /\
  (abstract (fire_timer t w) = abstract w \/ sstep (abstract w) (abstract (fire_timer t w))).
Proof.
  intros Hwf Hph Et Hf. destruct (front_frame (callback t) (state w) Hf) as (Hv & Hnav & Hfr).
  apply sim_frame; [exact Hph | exact Hv | rewrite navigations_fire, Hnav; lia | | |].
  - intros E. apply front_prompt; assumption.
  - intros p Hp. pose proof (pending_fire p w t Hwf Et) as E.
    rewrite (front_not p Hp _ Hf), (count_front p _ (front_not p Hp) Hfr) in E. lia.
  - apply (ticks_timed_absorb w _ (remove_timer t (timers w))
             (timeouts (runCallback (callback t) (state w))) (due t) (nextSeq w));
      [reflexivity | intros u Hu; apply In_remove_timer in Hu; apply Hu |].
    apply count_front; [apply front_not; auto | exact Hfr].
Qed.

Lemma sim_location (w : SW) r :
  phase_inv w ->
  phase_inv (dispatch (LocationResolved r) w) /\
  (abstract (dispatch (LocationResolved r) w) = abstract w \/
   sstep (abstract w) (abstract (dispatch (LocationResolved r) w))).
Proof.
  intros Hph. destruct (location_frame r (state w)) as (Hv & Hmf & Hsh & Hnav & Hfr).
  apply sim_frame; [exact Hph | exact Hv | rewrite navigations_dispatch, Hnav; lia | | |].
  - intros E. simpl in *. rewrite Hmf, Hsh. auto.
  - intros p Hp. rewrite pending_dispatch, (count_front p _ (front_not p Hp) Hfr). lia.
  - apply (ticks_timed_absorb w _ (timers w)
             (timeouts (handleEvent (LocationResolved r) (state w))) (now w) (nextSeq w));
      [reflexivity | auto |].
    apply count_front; [apply front_not; auto | exact Hfr].
Qed.

Lemma sim_wait (w : SW) d :
  phase_inv w -> phase_inv (advance d w) /\ abstract (advance d w) = abstract w.
Proof. intros Hph. split; [exact Hph | reflexivity]. Qed.
Lemma abstract_eq (w : SW) :
  abstract w = mkSession (status_of w) (map point_coordinate (selectedPoints (state w)))
                 (farmArea (state w))
                 (if isAnalyzing (state w) then Some (currentAnalysisStep (state w)) else None).
Proof. reflexivity. Qed.

(** Which status a pending analysis timer implies. *)
Lemma phase_start (w : SW) :
  phase_inv w -> 1 <= pending w is_start ->
  status_of w = BoundaryReady /\ pending w is_start = 1 /\
  pending w is_any_tick = 0 /\ pending w is_nav = 0.
Proof. unfold phase_inv. destruct (status_of w); simpl; intuition lia. Qed.

Lemma phase_analyzing (w : SW) :
  phase_inv w -> 1 <= pending w is_any_tick + pending w is_nav ->
  status_of w = Analyzing /\ phase_at Analyzing w.
Proof. unfold phase_inv. destruct (status_of w); simpl; intuition lia. Qed.

(** The step timers [StartAnalysis] schedules, counted by index. *)
Lemma count_tick_seq (i a n : nat) :
  count (is_tick i) (map (@AnalysisTick F) (seq a n))
  = if (a <=? i) && (i <? a + n) then 1 else 0.
Proof.
  revert a. induction n as [|n IH]; intros a; simpl.
  - destruct (a <=? i) eqn:E1, (i <? a + 0) eqn:E2; auto.
    apply Nat.leb_le in E1. apply Nat.ltb_lt in E2. lia.
  - unfold count in *. simpl. rewrite IH.
    destruct (Nat.eqb_spec a i), (Nat.leb_spec a i), (Nat.ltb_spec i (a + S n)),
      (Nat.leb_spec (S a) i), (Nat.ltb_spec i (S a + n)); simpl; lia.
Qed.

Lemma pending_In (w : SW) t (p : CB -> bool) :
  earliest (timers w) = Some t -> p (callback t) = true -> 1 <= pending w p.
Proof. intros Et Hp. apply (count_In _ _ (callback t)); [apply in_map, earliest_In, Et | exact Hp]. Qed.
(** [StartAnalysis] fires in [BoundaryReady]: the analysis starts. *)
Lemma sim_fire_start (w : SW) t :
  session_inv w -> earliest (timers w) = Some t -> callback t = StartAnalysis ->
  phase_inv (fire_timer t w) /\ sstep (abstract w) (abstract (fire_timer t w)).
Proof.
  intros (Hr & Hm & Hph) Et Hcb.
  destruct (reachable_world_inv w Hr) as (Hwf & (_ & _ & _ & Hsel & _) & _).
  destruct (phase_start w Hph (pending_In w t is_start Et ltac:(rewrite Hcb; reflexivity)))
    as (Hst & H1 & H2 & H3).
  destruct (startAnalysis_run (state w) Hm) as (Hs' & Hto & Hef).
  assert (Es : state (fire_timer t w) = with_currentAnalysisStep 0 (with_isAnalyzing true (state w)))
    by (change (state (fire_timer t w)) with (after (runCallback (callback t) (state w)));
        rewrite Hcb; exact Hs').
  assert (El : navigations (log (fire_timer t w)) = navigations (log w))
    by (rewrite navigations_fire, Hcb, Hef; apply Nat.add_0_r).
  assert (Ec : forall p, pending (fire_timer t w) p + (if p StartAnalysis then 1 else 0)
                 = pending w p + count p (map (@AnalysisTick F) (seq 0 (length analysisSteps))))
    by (intros p; rewrite <- Hcb, (pending_fire p w t Hwf Et), Hcb, Hto, map_map; reflexivity).
  pose proof Hst as Hst'. unfold status_of in Hst'. status_cases Hst'.
  assert (Hns : isSelectingPoints (state w) = false)
    by (destruct (isSelectingPoints (state w)); [specialize (Hsel eq_refl); congruence | reflexivity]).
  assert (Hst2 : status_of (fire_timer t w) = Analyzing)
    by (unfold status_of; rewrite El, Es; unfold status_at; rewrite Heqb; reflexivity).
  unfold phase_inv. rewrite Hst2. split.
  - unfold phase_at. rewrite Es. simpl.
    pose proof (Ec is_start) as Cs. pose proof (Ec is_nav) as Cn.
    unfold count in Cs, Cn. simpl in Cs, Cn.
    split; [lia|]. split; [exact Hns|]. split.
    + exists (due t). intros u i Hu Hu'. simpl in Hu.
      apply in_app_or in Hu as [Hu|Hu].
      * apply In_remove_timer in Hu as [Hu _].
        pose proof (count_zero _ _ _ H2 (in_map callback _ _ Hu)) as E. rewrite Hu' in E. discriminate.
      * destruct (In_enqueue_pair _ _ _ _ Hu) as (d & Hin & ->).
        change (scheduled (@on_timer (@ScreenComponent F _) (callback t) (state w))) with
          (timeouts (runCallback (callback t) (state w))) in Hin.
        rewrite Hcb, Hto, Hu' in Hin. apply in_map_iff in Hin as (k & Ek & _).
        injection Ek as Ed Ek. subst. reflexivity.
    + exists 0. split; [simpl; lia|]. split; [|split; [reflexivity | simpl; lia]].
      intros i. pose proof (Ec (is_tick i)) as Ci. rewrite count_tick_seq in Ci.
      pose proof (count_tick_any i (map callback (timers w))) as Hle. unfold pending in *.
      simpl in *. lia.
  - rewrite !abstract_eq, Hst, Hst2, Es. simpl. rewrite Heqb0. apply s_analyze.
Qed.
Lemma count_pos_In (p : CB -> bool) l : 1 <= count p l -> exists x, In x l /\ p x = true.
Proof.
  unfold count. induction l as [|x l IH]; simpl; [lia|]. intros Hc.
  destruct (p x) eqn:E; [eauto|]. destruct (IH ltac:(lia)) as (y & Hy & Py). eauto.
Qed.

(** The step timer that fires is the pending one of least index: step
    timers are due in index order. *)
Lemma earliest_tick (w : SW) t j m base :
  earliest (timers w) = Some t -> callback t = AnalysisTick j -> ticks_from m w ->
  (forall u i, In u (timers w) -> callback u = AnalysisTick i ->
     due u = (base + N.of_nat (S i) * TIME_PER_ANALYSIS_STEP)%N) ->
  j = m /\ m < length analysisSteps.
Proof.
  intros Et Hcb Hfrom Hb.
  pose proof (pending_In w t (is_tick j) Et ltac:(rewrite Hcb; apply Nat.eqb_refl)) as Hj.
  rewrite Hfrom in Hj.
  destruct (Nat.leb_spec m j), (Nat.ltb_spec j (length analysisSteps)); simpl in Hj; try lia.
  split; [|lia]. destruct (Nat.eq_dec j m) as [|Hne]; [assumption|exfalso].
  assert (Hmp : 1 <= pending w (is_tick m))
    by (rewrite Hfrom, Nat.leb_refl; destruct (Nat.ltb_spec m (length analysisSteps)); simpl; lia).
  destruct (count_pos_In _ _ Hmp) as (cb & Hin & Hcbm).
  apply in_map_iff in Hin as (u & Hu & Huin).
  destruct cb as [?| | | |?| |?| |k|]; try discriminate. apply Nat.eqb_eq in Hcbm. subst k.
  pose proof (earliest_min _ _ Et u Huin) as Hle.
  rewrite (Hb t j (earliest_In _ _ Et) Hcb), (Hb u m Huin Hu) in Hle.
  unfold TIME_PER_ANALYSIS_STEP in Hle. lia.
Qed.

(** A step timer fires in [Analyzing]: the next step, or step 0 again. *)
Lemma sim_fire_tick (w : SW) t j :
  session_inv w -> earliest (timers w) = Some t -> callback t = AnalysisTick j ->
  phase_inv (fire_timer t w) /\
  (abstract (fire_timer t w) = abstract w \/ sstep (abstract w) (abstract (fire_timer t w))).
Proof.
  intros (Hr & Hm & Hph) Et Hcb.
  destruct (reachable_world_inv w Hr) as (Hwf & _).
  destruct (phase_analyzing w Hph) as (Hst & H0 & Hns & Ht & m & Hm5 & Hfrom & Hstep & Hnav).
  { pose proof (pending_In w t is_any_tick Et ltac:(rewrite Hcb; reflexivity)). lia. }
  pose proof Ht as [base Hb].
  destruct (earliest_tick w t j m base Et Hcb Hfrom Hb) as [-> Hj5].
  destruct (onAnalysisTick_run m (state w) Hm) as (Hs' & Hto & Hef).
  assert (Es : state (fire_timer t w) = with_currentAnalysisStep m (state w))
    by (change (state (fire_timer t w)) with (after (runCallback (callback t) (state w)));
        rewrite Hcb; exact Hs').
  assert (El : navigations (log (fire_timer t w)) = navigations (log w))
    by (rewrite navigations_fire, Hcb, Hef; apply Nat.add_0_r).
  assert (Ec : forall p, pending (fire_timer t w) p + (if p (AnalysisTick m) then 1 else 0)
                 = pending w p + count p (map snd (if m =? length analysisSteps - 1
                                                  then [(DELAY_AFTER_LAST_STEP, NavigateToChoice)]
                                                  else [])))
    by (intros p; rewrite <- Hcb, (pending_fire p w t Hwf Et), Hcb, Hto; reflexivity).
  pose proof Hst as Hst'. unfold status_of in Hst'. status_cases Hst'.
  assert (Hst2 : status_of (fire_timer t w) = Analyzing)
    by (unfold status_of; rewrite El, Es; unfold status_at; rewrite Heqb; simpl; rewrite Heqb0; reflexivity).
  change (length analysisSteps - 1) with 4 in *. change (length analysisSteps) with 5 in *.
  assert (Cs : pending (fire_timer t w) is_start = 0).
  { pose proof (Ec is_start) as C. rewrite H0 in C.
    destruct (m =? 4); unfold count in C; simpl in C; lia. }
  assert (Cn : pending (fire_timer t w) is_nav = if S m =? 5 then 1 else 0).
  { pose proof (Ec is_nav) as C. rewrite Hnav in C.
    destruct (Nat.eqb_spec m 4), (Nat.eqb_spec m 5), (Nat.eqb_spec (S m) 5);
      unfold count in C; simpl in *; lia. }
  assert (Ct : ticks_from (S m) (fire_timer t w)).
  { intros i. pose proof (Ec (is_tick i)) as C. rewrite Hfrom in C.
    change (length analysisSteps) with 5 in *.
    destruct (m =? 4); unfold count in C; simpl in C;
    destruct (Nat.eqb_spec m i), (Nat.leb_spec m i), (Nat.leb_spec (S m) i),
      (Nat.ltb_spec i 5); simpl in *; lia. }
  assert (Htt : ticks_timed (fire_timer t w)).
  { apply (ticks_timed_absorb w _ (remove_timer t (timers w))
             (timeouts (runCallback (callback t) (state w))) (due t) (nextSeq w));
      [reflexivity | intros u Hu; apply In_remove_timer in Hu; apply Hu | | exact Ht].
    rewrite Hcb, Hto. destruct (m =? 4); reflexivity. }
  unfold phase_inv. rewrite Hst2. split.
  - cbv beta iota zeta delta [phase_at]. rewrite Es.
    split; [exact Cs|]. split; [exact Hns|]. split; [exact Htt|].
    exists (S m). split; [simpl; lia|]. split; [exact Ct|]. split; [reflexivity | exact Cn].
  - rewrite !abstract_eq, Hst, Hst2, Es. simpl. rewrite Heqb0, Hstep.
    destruct m as [|k]; [left; reflexivity | right; apply s_tick; exact Hj5].
Qed.
(** The navigation timer fires after the last step: [Complete]. *)
Lemma sim_fire_nav (w : SW) t :
  session_inv w -> earliest (timers w) = Some t -> callback t = NavigateToChoice ->
  phase_inv (fire_timer t w) /\ sstep (abstract w) (abstract (fire_timer t w)).
Proof.
  intros (Hr & Hm & Hph) Et Hcb.
  destruct (reachable_world_inv w Hr) as (Hwf & _).
  pose proof (pending_In w t is_nav Et ltac:(rewrite Hcb; reflexivity)) as Hn1.
  destruct (phase_analyzing w Hph) as (Hst & H0 & Hns & Ht & m & Hm5 & Hfrom & Hstep & Hnav);
    [lia|].
  assert (Hm5' : m = length analysisSteps)
    by (destruct (Nat.eqb_spec m (length analysisSteps)); [assumption | lia]).
  rewrite Hm5' in Hnav, Hfrom, Hstep. rewrite Nat.eqb_refl in Hnav.
  destruct (onNavigateToChoice_run (state w)) as (Hs' & Hto & Hnv).
  assert (Es : state (fire_timer t w) = state w)
    by (change (state (fire_timer t w)) with (after (runCallback (callback t) (state w)));
        rewrite Hcb; exact Hs').
  assert (El : navigations (log (fire_timer t w)) = navigations (log w) + 1)
    by (rewrite navigations_fire, Hcb, Hnv; reflexivity).
  assert (Ec : forall p, pending (fire_timer t w) p + (if p NavigateToChoice then 1 else 0) = pending w p)
    by (intros p; rewrite <- Hcb, (pending_fire p w t Hwf Et), Hcb, Hto; apply Nat.add_0_r).
  pose proof Hst as Hst'. unfold status_of in Hst'. status_cases Hst'.
  apply Nat.leb_gt in Heqb.
  assert (Hst2 : status_of (fire_timer t w) = Complete)
    by (unfold status_of; rewrite El; unfold status_at; replace (1 <=? _) with true;
        [reflexivity | symmetry; apply Nat.leb_le; lia]).
  assert (Hti : forall i, pending (fire_timer t w) (is_tick i) = 0).
  { intros i. pose proof (Ec (is_tick i)) as C. rewrite Hfrom in C.
    change (length analysisSteps) with 5 in C.
    destruct (Nat.leb_spec 5 i), (Nat.ltb_spec i 5); simpl in C; lia. }
  unfold phase_inv. rewrite Hst2. split.
  - cbv beta iota zeta delta [phase_at]. rewrite Es.
    pose proof (Ec is_start) as Cs. pose proof (Ec is_nav) as Cn. simpl in Cs, Cn.
    split; [lia|]. split; [apply count_ticks, Hti|]. split; [lia|]. split; [lia | exact Hns].
  - rewrite !abstract_eq, Hst, Hst2, Es. rewrite Heqb0, Hstep. apply s_complete.
Qed.
(** While points are being selected the status is [Selecting]. *)
Lemma selecting_status (w : SW) :
  reachable w -> phase_inv w -> isSelectingPoints (state w) = true -> status_of w = Selecting.
Proof.
  intros Hr Hph Hs. destruct (reachable_world_inv w Hr) as (_ & (_ & _ & _ & Hsel & _) & _).
  specialize (Hsel Hs). unfold phase_inv in Hph. unfold status_of in *.
  destruct (status_at _ _) eqn:E; try reflexivity; status_cases E; try congruence;
    simpl in Hph; intuition congruence.
Qed.

(** A tap: ignored, a point added, or the boundary formed. *)
Lemma sim_map (w : SW) c :
  session_inv w -> eventEnabled (MapPress c) (state w) = true ->
  phase_inv (dispatch (MapPress c) w) /\
  (abstract (dispatch (MapPress c) w) = abstract w \/
   sstep (abstract w) (abstract (dispatch (MapPress c) w))).
Proof.
  intros (Hr & Hm & Hph) Hen.
  destruct (handleMapPress_branches c (state w) Hm) as (Hign & Hadd & Hbox).
  destruct (handleMapPress_frame c (state w)) as (Ha & Hmo & Hst & Hsh & Hmf & Hef).
  cbv zeta in Hign, Hadd, Hbox, Ha, Hmo, Hst, Hsh, Hmf, Hef.
  change (handleEvent (MapPress c) (state w)) with (handleMapPress c (state w)) in *.
  assert (El : navigations (log (dispatch (MapPress c) w)) = navigations (log w))
    by (rewrite navigations_dispatch; change (handleEvent (MapPress c) (state w)) with (handleMapPress c (state w)); rewrite Hef; apply Nat.add_0_r).
  assert (Es : state (dispatch (MapPress c) w) = after (handleMapPress c (state w))) by reflexivity.
  destruct (isSelectingPoints (state w)) eqn:Esel;
    [destruct (Nat.lt_trichotomy (length (selectedPoints (state w))) 3) as [Hn|[Hn|Hn]]|].
  - (* a point is added *)
    destruct (Hadd eq_refl Hn) as (Hs' & Hto & _).
    pose proof (selecting_status w Hr Hph Esel) as Hsw.
    assert (Hc : forall p, pending (dispatch (MapPress c) w) p = pending w p)
      by (intros p; rewrite pending_dispatch; change (handleEvent (MapPress c) (state w)) with (handleMapPress c (state w)); rewrite Hto; apply Nat.add_0_r).
    assert (Hsw' : status_of (dispatch (MapPress c) w) = Selecting).
    { unfold status_of in *. rewrite El, Es, Hs'. exact Hsw. }
    unfold phase_inv. rewrite Hsw'. split.
    + unfold phase_inv in Hph. rewrite Hsw in Hph. cbv beta iota zeta delta [phase_at] in *.
      rewrite !Hc. exact Hph.
    + right. rewrite !abstract_eq, Hsw, Hsw', Es, Hs'. simpl.
      pose proof Hsw as Hsw2. unfold status_of in Hsw2. status_cases Hsw2.
      rewrite map_app. apply s_add. rewrite length_map. exact Hn.
  - (* the fourth point forms the boundary *)
    destruct (Hbox eq_refl Hn) as (Hp & Hb & Hi & Hf & Hto & _).
    pose proof (selecting_status w Hr Hph Esel) as Hsw.
    pose proof Hsw as Hsw2. unfold status_of in Hsw2. status_cases Hsw2.
    assert (Hc : forall p, pending (dispatch (MapPress c) w) p
                           = pending w p + (if p StartAnalysis then 1 else 0))
      by (intros p; rewrite pending_dispatch; change (handleEvent (MapPress c) (state w)) with (handleMapPress c (state w)); rewrite Hto; unfold count; simpl; rewrite Nat.add_0_r; reflexivity).
    assert (Hsw' : status_of (dispatch (MapPress c) w) = BoundaryReady).
    { unfold status_of. rewrite El, Es. unfold status_at. rewrite Heqb, Ha, Hb. reflexivity. }
    unfold phase_inv. rewrite Hsw'. split.
    + unfold phase_inv in Hph. rewrite Hsw in Hph. cbv beta iota zeta delta [phase_at] in *.
      rewrite !Hc. simpl. lia.
    + right. rewrite !abstract_eq, Hsw, Hsw', Es, Hp, Hf, Ha, Heqb0. simpl.
      rewrite <- (calculateAreaInAcres_coordinates (selectedPoints (state w) ++ _)).
      change (map coordinate_of (selectedPoints (state w) ++ [mkMapPoint c (length (selectedPoints (state w)) + 1)]))
        with (map point_coordinate (selectedPoints (state w) ++ [mkMapPoint c (length (selectedPoints (state w)) + 1)])).
      rewrite map_app. apply s_boundary. rewrite length_map. exact Hn.
  - (* four points already: ignored *)
    assert (H4 : 4 <= length (selectedPoints (state w))) by lia.
    destruct (Hign (or_intror H4)) as (Hs' & Hto & _).
    apply sim_frame; [exact Hph | rewrite Es, Hs'; reflexivity | exact El | rewrite Es, Hs'; auto | |].
    + intros p _. rewrite pending_dispatch. change (handleEvent (MapPress c) (state w)) with (handleMapPress c (state w)). rewrite Hto. apply Nat.add_0_r.
    + apply (ticks_timed_absorb w _ (timers w) (timeouts (handleEvent (MapPress c) (state w)))
               (now w) (nextSeq w)); [reflexivity | auto |]. change (handleEvent (MapPress c) (state w)) with (handleMapPress c (state w)). rewrite Hto. reflexivity.
  - (* not selecting: ignored *)
    destruct (Hign (or_introl eq_refl)) as (Hs' & Hto & _).
    apply sim_frame; [exact Hph | rewrite Es, Hs'; reflexivity | exact El | rewrite Es, Hs'; auto | |].
    + intros p _. rewrite pending_dispatch. change (handleEvent (MapPress c) (state w)) with (handleMapPress c (state w)). rewrite Hto. apply Nat.add_0_r.
    + apply (ticks_timed_absorb w _ (timers w) (timeouts (handleEvent (MapPress c) (state w)))
               (now w) (nextSeq w)); [reflexivity | auto |]. change (handleEvent (MapPress c) (state w)) with (handleMapPress c (state w)). rewrite Hto. reflexivity.
Qed.
(** "Start Selection" in [AwaitingStart]: a new, empty selection. *)
Lemma sim_begin (w : SW) :
  session_inv w -> status_of w = AwaitingStart ->
  phase_inv (dispatch PressStartSelection w) /\
  sstep (abstract w) (abstract (dispatch PressStartSelection w)).
Proof.
  intros (Hr & Hm & Hph) Hst.
  unfold phase_inv in Hph. rewrite Hst in Hph. destruct Hph as (Hmf & H1 & H2 & H3).
  destruct (begin_run (state w) Hm Hmf) as (Hsel & Hbb & Hsp & Hfa & Ha & Hmo & Hef & Hfr).
  pose proof Hst as Hst'. unfold status_of in Hst'. status_cases Hst'.
  assert (El : navigations (log (dispatch PressStartSelection w)) = navigations (log w))
    by (rewrite navigations_dispatch, Hef; apply Nat.add_0_r).
  assert (Es : state (dispatch PressStartSelection w) = after (handleEvent PressStartSelection (state w)))
    by reflexivity.
  assert (Hc : forall p, (forall cb, front cb = true -> p cb = false) ->
                 pending (dispatch PressStartSelection w) p = pending w p)
    by (intros p Hp; rewrite pending_dispatch, (count_front p _ Hp Hfr); apply Nat.add_0_r).
  assert (Hst2 : status_of (dispatch PressStartSelection w) = Selecting)
    by (unfold status_of; rewrite El, Es; unfold status_at; rewrite Heqb, Ha, Hbb, Hsp; reflexivity).
  unfold phase_inv. rewrite Hst2. split.
  - cbv beta iota zeta delta [phase_at].
    rewrite !Hc by (apply front_not; eauto). auto.
  - rewrite !abstract_eq, Hst, Hst2, Es, Hsel, Hfa, Ha, Heqb0. simpl. apply s_begin.
Qed.

Lemma runCallback_mounted (cb : CB) (s : @Screen F) :
  mounted (after (runCallback cb s)) = mounted s.
Proof.
  destruct cb; hsplit; mrun; auto;
    repeat match goal with |- context [if ?c then _ else _] => destruct c eqn:? end; auto.
Qed.

Lemma dstep_step (w w' : SW) : dstep w w' -> step w w'.
Proof.
  intros Hd. inv Hd; [apply step_fire | apply step_event | apply step_event | apply step_event |
                      apply step_wait]; assumption.
Qed.
End Simulation.

(** ** Executable sessions

    [drun] runs a list of inputs under the discipline of [dstep]; a run it
    accepts is a sequence of [dstep]s ([drun_star]). *)

Section Executable.
Context {F : Type} `{JsNumber F}.

Local Abbreviation SW := (World (@ScreenComponent F _)).

Definition is_awaiting (st : Status) : bool :=
  match st with AwaitingStart => true | _ => false end.

Definition dexec1 (i : Input (@ScreenComponent F _)) (w : SW) : option SW :=
  match i with
  | Event PressStartSelection =>
      if is_awaiting (status_of w) then exec1 i w else None
  | Event Unmount => None
  | _ => exec1 i w
  end.

Fixpoint drun (inputs : list (Input (@ScreenComponent F _))) (w : SW) : option SW :=
  match inputs with
  | [] => Some w
  | i :: rest => match dexec1 i w with Some w' => drun rest w' | None => None end
  end.

Lemma dexec1_dstep i (w w' : SW) : dexec1 i w = Some w' -> dstep w w'.
Proof.
  destruct i as [|e|d]; simpl; intros E.
  - destruct (earliest (timers w)) eqn:Et; inv E. apply d_fire, Et.
  - destruct e as [|c|r|]; simpl in E; try discriminate;
      repeat match type of E with context [if ?c then _ else _] => destruct c eqn:? end;
      try discriminate; inv E.
    + apply d_begin; [|assumption]. destruct (status_of w); try discriminate; reflexivity.
    + apply d_map. assumption.
    + apply d_location. assumption.
  - destruct (forallb _ _) eqn:Ea; inv E. apply d_wait.
    intros t Ht. rewrite forallb_forall in Ea. apply N.leb_le, Ea, Ht.
Qed.

Lemma drun_star inputs (w w' : SW) : drun inputs w = Some w' -> dstep^* w w'.
Proof.
  revert w. induction inputs as [|i rest IH]; simpl; intros w E.
  - inv E. apply star_refl.
  - destruct (dexec1 i w) as [w1|] eqn:E1; [|discriminate].
    eapply star_step; [apply (dexec1_dstep i _ _ E1) | apply IH, E].
Qed.
End Executable.

(** ** Refinement *)

Section Refinement.
Context {F : Type} `{JsNumber F}.

Local Abbreviation SW := (World (@ScreenComponent F _)).

Lemma mountScreen_session_inv : session_inv (@mountScreen F _).
Proof.
  split; [apply star_refl|]. split; [reflexivity|].
  unfold phase_inv, phase_at. simpl. auto.
Qed.

(** One step of a session of the spec is a step of the machine, or
    leaves the abstract session unchanged; the invariant is kept. *)
Lemma session_step (w w' : SW) :
  session_inv w -> dstep w w' ->
  session_inv w' /\ (abstract w' = abstract w \/ sstep (abstract w) (abstract w')).
Proof.
  intros Hinv Hd.
  assert (Hr' : reachable w')
    by (eapply star_snoc; [exact (proj1 Hinv) | apply dstep_step, Hd]).
  pose proof Hinv as (Hr & Hm & Hph).
  pose proof (proj1 (reachable_world_inv w Hr)) as Hwf.
  destruct Hd as [w t Et|w c Hen|w r Hen|w Hst Hen|w d Hw].
  - assert (Hm' : mounted (state (fire_timer t w)) = true)
      by (change (mounted (after (runCallback (callback t) (state w))) = true);
          rewrite runCallback_mounted; exact Hm).
    destruct (front (callback t)) eqn:Hf.
    + destruct (sim_fire_front w t Hwf Hph Et Hf) as [Hp Ha]. repeat split; auto.
    + destruct (callback t) eqn:Hcb; try discriminate Hf.
      * destruct (sim_fire_start w t Hinv Et Hcb) as [Hp Ha]. repeat split; auto.
      * destruct (sim_fire_tick w t index Hinv Et Hcb) as [Hp Ha]. repeat split; auto.
      * destruct (sim_fire_nav w t Hinv Et Hcb) as [Hp Ha]. repeat split; auto.
  - destruct (sim_map w c Hinv Hen) as [Hp Ha].
    destruct (handleMapPress_frame c (state w)) as (_ & Hmo & _).
    repeat split; auto. change (mounted (after (handleMapPress c (state w))) = true).
    rewrite Hmo. exact Hm.
  - destruct (sim_location w r Hph) as [Hp Ha].
    destruct (location_frame r (state w)) as (Hv & _).
    assert (Hmo : mounted (after (handleEvent (LocationResolved r) (state w))) = mounted (state w))
      by (unfold core_view in Hv; congruence).
    repeat split; auto. change (mounted (after (handleEvent (LocationResolved r) (state w))) = true).
    rewrite Hmo. exact Hm.
  - destruct (sim_begin w Hinv Hst) as [Hp Ha].
    unfold phase_inv in Hph. rewrite Hst in Hph.
    destruct (begin_run (state w) Hm (proj1 Hph)) as (_ & _ & _ & _ & _ & Hmo & _).
    repeat split; auto.
  - destruct (sim_wait w d Hph) as [Hp Ha]. repeat split; auto.
Qed.

Lemma session_star (w w' : SW) :
  session_inv w -> dstep^* w w' -> session_inv w' /\ sstep^* (abstract w) (abstract w').
Proof.
  intros Hinv Hs. induction Hs as [x|x y z Hxy Hyz IH].
  - split; [exact Hinv | apply star_refl].
  - destruct (session_step x y Hinv Hxy) as [Hy [E|Hst]].
    + destruct (IH Hy) as [Hz Hyz']. rewrite E in Hyz'. auto.
    + destruct (IH Hy) as [Hz Hyz']. split; [exact Hz | eapply star_step; eauto].
Qed.

(** C2: refinement.  Every session the spec describes (the screen stays
    mounted; "Start Selection" is pressed only while the prompt is up and
    no session has begun) is, read through [abstract], a run of the
    spec's machine from [Idle]: the screen implements section 4.2 up to
    steps that change nothing the spec sees. *)
Theorem disciplined_runs_refine (w : SW) :
  dstep^* (@mountScreen F _) w -> sstep^* initial_session (abstract w).
Proof.
  intros Hs. exact (proj2 (session_star _ _ mountScreen_session_inv Hs)).
Qed.

(** C7: in such a session the screen navigates at most once, and it has
    navigated exactly when the session is [Complete]. *)
Theorem disciplined_navigates_at_most_once (w : SW) :
  dstep^* (@mountScreen F _) w ->
  navigations (log w) <= 1 /\ (status (abstract w) = Complete <-> navigations (log w) = 1).
Proof.
  intros Hs. destruct (session_star _ _ mountScreen_session_inv Hs) as [(_ & _ & Hph) _].
  unfold phase_inv in Hph. rewrite abstract_eq. simpl.
  destruct (status_of w) eqn:Est; simpl in Hph;
    try (unfold status_of in Est; status_cases Est; apply Nat.leb_gt in Heqb;
         split; [lia | split; [discriminate | lia]]).
  split; [lia | tauto].
Qed.
End Refinement.
