(* ===== verification/Traces.v ===== *)
(** * Concrete runs of the screen

    The runs below use the exact number model, with [cos_taylor] for
    [Math.cos], and execute the loop of [EventLoop] from [mountScreen].
    Each run is a list of inputs: fire the next timer, deliver an event,
    or let time pass.  [run_star] turns each run into a reachability proof.

    - [full_session]: the Preloader (17 timers, 6800 ms), the location
      answer, the prompt at 9300 ms, "Start Selection", the fade, and the
      spec's four taps.  The boundary of 2.889 acres is formed at once,
      at 10200 ms, and the screen navigates once, at 23200 ms.
    - The step index over time is 0, 0, 1, 2, 3, 4: the first tick sets
      step 0 again, so step 0 is shown for two intervals.
    - Unmounting during the analysis cancels nothing: the stale timers
      still run, and [navigation.replace] is called after the screen is
      gone.
    - Pressing "Start Selection" a second time while the prompt fades,
      after a first boundary has been formed, starts a second session
      without cancelling the first: the screen navigates twice. *)

From Stdlib Require Import String List Arith NArith QArith Lia.
From S2P Require Import Prelude JsNumber AreaCalculator EventLoop Screen Session Selection Prompt Render Liveness Preloader SessionMachine.
Import ListNotations.
Local Open Scope kisaan_scope.

#[local] Instance Q_JsNumber : JsNumber Q := QNumber cos_taylor.

Local Abbreviation SW := (World (@ScreenComponent Q _)).

Definition tap (lat lng : Q) : Input (@ScreenComponent Q _) :=
  Event (MapPress (mkCoordinate lat lng)).

(** The spec's square, tapped 100 ms apart. *)
Definition square_taps : list (Input (@ScreenComponent Q _)) :=
  [tap 19 73; Wait 100; tap 19 (73001 # 1000); Wait 100;
   tap (19001 # 1000) (73001 # 1000); Wait 100; tap (19001 # 1000) 73].

(** Mount, the Preloader's timers, the location, the map animation and
    the prompt. *)
Definition to_prompt : list (Input (@ScreenComponent Q _)) :=
  repeat Fire 17 ++ [Event (LocationResolved (PositionFound (mkCoordinate 19 73))); Fire; Fire].

Definition full_session : list (Input (@ScreenComponent Q _)) :=
  to_prompt ++ [Event PressStartSelection; Fire] ++ square_taps.

Definition world_after (inputs : list (Input (@ScreenComponent Q _))) : SW :=
  match run inputs mountScreen with Some w => w | None => mountScreen end.

Definition session_world : SW := world_after full_session.

(** The run is accepted: every input was enabled. *)
Definition runs (inputs : list (Input (@ScreenComponent Q _))) : bool :=
  match run inputs mountScreen with Some _ => true | None => false end.

Lemma runs_reachable inputs : runs inputs = true -> step^* mountScreen (world_after inputs).
Proof.
  unfold runs, world_after. destruct (run inputs mountScreen) eqn:E; [|discriminate].
  intros _. exact (run_star inputs _ _ E).
Qed.

(** Runs under the discipline of [SessionMachine.dstep]. *)
Definition dworld_after (inputs : list (Input (@ScreenComponent Q _))) : SW :=
  match drun inputs mountScreen with Some w => w | None => mountScreen end.

Definition druns (inputs : list (Input (@ScreenComponent Q _))) : bool :=
  match drun inputs mountScreen with Some _ => true | None => false end.

Lemma druns_disciplined inputs : druns inputs = true -> dstep^* mountScreen (dworld_after inputs).
Proof.
  unfold druns, dworld_after. destruct (drun inputs mountScreen) eqn:E; [|discriminate].
  intros _. exact (drun_star inputs _ _ E).
Qed.

(** The state after three of the four taps. *)
Definition three_taps_screen : @Screen Q :=
  state (world_after (to_prompt ++ [Event PressStartSelection; Fire] ++ firstn 5 square_taps)).

(** Fire the pending timers one by one, recording the clock and the step
    index after each. *)
Fixpoint observe_steps (fuel : nat) (w : SW) : list (N * nat) :=
  match fuel with
  | O => []
  | S f =>
      match exec1 Fire w with
      | Some w' => (now w', currentAnalysisStep (state w')) :: observe_steps f w'
      | None => []
      end
  end.

(** The whole workflow.  The prompt appears at 9300 ms, and the
    boundary of 2.889 acres is formed on the fourth tap (10200 ms).  The
    analysis starts 2500 ms later, and the screen navigates to
    [ChoiceScreen] exactly once, at 23200 ms, with no timer left. *)
Example full_session_navigates_once :
  step^* mountScreen session_world /\
  now session_world = 10200%N /\
  farmArea (state session_world) = Some (2889 # 1000)%Q /\
  isSelectingPoints (state session_world) = false /\
  now (drain 7 session_world) = 23200%N /\
  navigations (log (drain 7 session_world)) = 1%nat /\
  length (timers (drain 7 session_world)) = 0%nat.
Proof.
  split; [apply runs_reachable; vm_compute; reflexivity|].
  repeat match goal with |- _ /\ _ => split end; vm_compute; reflexivity.
Qed.

(** The step index after each timer of the analysis.  It is 0 at the
    start, 0 again at the first tick, then 1, 2, 3, 4 at 1800 ms
    intervals, and the navigation comes 1500 ms after the last tick. *)
Example analysis_step_sequence :
  observe_steps 7 session_world =
  [(12700%N, 0%nat); (14500%N, 0%nat); (16300%N, 1%nat); (18100%N, 2%nat);
   (19900%N, 3%nat); (21700%N, 4%nat); (23200%N, 4%nat)].
Proof. vm_compute. reflexivity. Qed.

(** The full session, the analysis start at 12700 ms, then the screen
    leaves (the user goes back). *)
Definition unmount_during_analysis : list (Input (@ScreenComponent Q _)) :=
  full_session ++ [Fire; Event Unmount].

(** Unmounting the screen during the analysis does not stop it.  The
    step timers and the navigation timer still fire, and
    [navigation.replace('ChoiceScreen')] runs after the screen is gone. *)
Example unmount_during_analysis_still_navigates :
  let w := world_after unmount_during_analysis in
  step^* mountScreen w /\
  mounted (state w) = false /\ isAnalyzing (state w) = true /\
  navigations (log w) = 0%nat /\
  step^* w (drain 10 w) /\ navigations (log (drain 10 w)) = 1%nat.
Proof.
  cbv zeta. split; [apply runs_reachable; vm_compute; reflexivity|].
  split; [vm_compute; reflexivity|]. split; [vm_compute; reflexivity|].
  split; [vm_compute; reflexivity|]. split; [apply drain_star | vm_compute; reflexivity].
Qed.

(** Two selections in one visit.  Four taps 100 ms apart form a
    boundary, and the second press comes 400 ms after the first, while
    the prompt is still fading out (600 ms from 9300 ms).  The stopped
    fade's timer still fires at 9900 ms, as a no-op, between the second
    and third taps of the second group. *)
Definition restarted_selection : list (Input (@ScreenComponent Q _)) :=
  to_prompt ++ [Event PressStartSelection; Wait 50] ++ square_taps
  ++ [Wait 50; Event PressStartSelection] ++ firstn 4 square_taps
  ++ [Fire] ++ skipn 4 square_taps.

(** Pressing "Start Selection" again while the prompt fades, after
    four quick taps have already formed a boundary, clears that boundary
    but not its analysis timer.  Both analyses run, and the screen calls
    [navigation.replace] twice. *)
Example restarted_selection_navigates_twice :
  let w := world_after restarted_selection in
  step^* mountScreen w /\ ghost_boundaries (state w) = 2%nat /\
  step^* w (drain 20 w) /\ navigations (log (drain 20 w)) = 2%nat.
Proof.
  cbv zeta. split; [apply runs_reachable; vm_compute; reflexivity|].
  split; [vm_compute; reflexivity|]. split; [apply drain_star | vm_compute; reflexivity].
Qed.

(** ** Witnesses of the [Session] theorems *)

Lemma handleMapPress_spec_witness :
  boundingBox (after (handleMapPress (mkCoordinate (19001 # 1000) 73) three_taps_screen))
  = Some (map point_coordinate
            (selectedPoints three_taps_screen ++ [mkMapPoint (mkCoordinate (19001 # 1000) 73) 4])).
Proof.
  destruct (handleMapPress_spec (mkCoordinate (19001 # 1000) 73) three_taps_screen
              ltac:(vm_compute; reflexivity)) as (_ & _ & H4).
  apply (H4 ltac:(vm_compute; reflexivity) ltac:(vm_compute; reflexivity)).
Defined.

Lemma reachable_selection_bounded_witness :
  (length (selectedPoints (state session_world)) <= 4)%nat /\
  map id (selectedPoints (state session_world))
  = seq 1 (length (selectedPoints (state session_world))).
Proof.
  apply reachable_selection_bounded.
  apply runs_reachable. vm_compute. reflexivity.
Defined.

Lemma reachable_step_in_catalogue_witness :
  exists st, nth_error analysisSteps (currentAnalysisStep (state session_world)) = Some st.
Proof.
  apply reachable_step_in_catalogue.
  apply runs_reachable. vm_compute. reflexivity.
Defined.

Lemma reachable_boundary_is_selection_witness :
  (isSelectingPoints (state session_world) = true -> boundingBox (state session_world) = None) /\
  (forall bb, boundingBox (state session_world) = Some bb ->
     bb = map point_coordinate (selectedPoints (state session_world)) /\
     length (selectedPoints (state session_world)) = 4%nat).
Proof.
  apply reachable_boundary_is_selection.
  apply runs_reachable. vm_compute. reflexivity.
Defined.

Lemma reachable_navigation_accounting_witness :
  (navigations (log session_world) + owed (map callback (timers session_world))
   = ghost_boundaries (state session_world))%nat.
Proof.
  apply reachable_navigation_accounting.
  apply runs_reachable. vm_compute. reflexivity.
Defined.

Lemma reachable_timers_drain_witness :
  timers (drain (timer_load session_world) session_world) = [] /\
  step^* session_world (drain (timer_load session_world) session_world) /\
  navigations (log (drain (timer_load session_world) session_world))
  = ghost_boundaries (state session_world).
Proof.
  apply (reachable_timers_drain session_world).
  apply runs_reachable. vm_compute. reflexivity.
Defined.

Lemma disciplined_runs_refine_witness :
  sstep^* initial_session (abstract (dworld_after (full_session ++ repeat Fire 7))).
Proof.
  apply disciplined_runs_refine. apply druns_disciplined. vm_compute. reflexivity.
Defined.

Lemma disciplined_navigates_at_most_once_witness :
  (navigations (log (dworld_after (full_session ++ repeat Fire 7))) <= 1)%nat /\
  (status (abstract (dworld_after (full_session ++ repeat Fire 7))) = Complete <->
   navigations (log (dworld_after (full_session ++ repeat Fire 7))) = 1%nat).
Proof.
  apply disciplined_navigates_at_most_once. apply druns_disciplined. vm_compute. reflexivity.
Defined.

Lemma reachable_preloader_word_witness :
  nth_error words (preloaderIndex (state (world_after (repeat Fire 6)))) <> None /\
  (chain_count (map callback (timers (world_after (repeat Fire 6)))) <= 1)%nat /\
  (preloader_active (state (world_after (repeat Fire 6))) = true ->
   chain_count (map callback (timers (world_after (repeat Fire 6)))) = 1%nat).
Proof.
  apply reachable_preloader_word.
  apply runs_reachable. vm_compute. reflexivity.
Defined.

Lemma taps_after_start_match_reference_witness :
  selection_result (press_all [mkCoordinate 19 73; mkCoordinate 19 (73001 # 1000);
                               mkCoordinate (19001 # 1000) (73001 # 1000);
                               mkCoordinate (19001 # 1000) 73; mkCoordinate 20 74]
                      (after (startPointSelection (state (world_after to_prompt)))))
  = selection_ref (firstn 4 [mkCoordinate 19 73; mkCoordinate 19 (73001 # 1000);
                             mkCoordinate (19001 # 1000) (73001 # 1000);
                             mkCoordinate (19001 # 1000) 73; mkCoordinate 20 74]).
Proof. apply taps_after_start_match_reference. vm_compute. reflexivity. Defined.

(** A real plot of about 1.1 m a side ([tiny_square]), tapped after the
    prompt. *)
Definition tiny_session : list (Input (@ScreenComponent Q _)) :=
  to_prompt ++ [Event PressStartSelection; Fire] ++
  [tap 19 73; Wait 100; tap 19 (7300001 # 100000); Wait 100;
   tap (1900001 # 100000) (7300001 # 100000); Wait 100; tap (1900001 # 100000) 73].

(** A small real plot crashes the screen.  Its area rounds to
    [0] acres, so [boundingBox && farmArea && (...)] (line 477) renders
    a raw [0] outside [<Text>], which React Native rejects: the screen
    the user reaches by tapping the four corners of a 1.1 m square
    throws. *)
Example tiny_plot_render_throws :
  runs tiny_session = true /\
  boundingBox (state (world_after tiny_session)) <> None /\
  render_throws (state (world_after tiny_session)) = true.
Proof. split; [vm_compute; reflexivity|]. split; [vm_compute; discriminate | vm_compute; reflexivity]. Qed.

Lemma reachable_instructions_in_range_witness :
  match snd (render (state (world_after (to_prompt ++ [Event PressStartSelection; Fire] ++
                                         firstn 3 square_taps)))) with
  | Some mv => match instructions mv with
               | Some (more, n) => (n <= 3)%nat /\ (1 <= more <= 4)%Z /\ more = (4 - Z.of_nat n)%Z
               | None => True
               end
  | None => True
  end.
Proof. apply reachable_instructions_in_range. apply runs_reachable. vm_compute. reflexivity. Defined.


(** Right after "Start Selection" the prompt is still on screen, fading;
    once the timers have run it is gone. *)
Lemma reachable_prompt_hidden_witness :
  let w := world_after (to_prompt ++ [Event PressStartSelection]) in
  mounted (state w) = true /\ isSelectingPoints (state w) = true /\
  showSelectionMessage (state w) = true /\
  showSelectionMessage (state (drain (timer_load w) w)) = false.
Proof.
  cbv zeta. split; [vm_compute; reflexivity|]. split; [vm_compute; reflexivity|].
  split; [vm_compute; reflexivity|].
  apply reachable_prompt_hidden; [apply runs_reachable; vm_compute; reflexivity | vm_compute; reflexivity |].
  left. vm_compute. reflexivity.
Defined.
